(** * DeepResearch-AI: resilience and extraction layer

    A shallow embedding of the retry wrappers, the JSON extractors, the
    search client, the feedback generator, the chunking and merging steps
    of the analysis and the research orchestrator, followed by the
    properties established about them.

    Conventions of the embedding.
    - JavaScript strings are [string]; one [ascii] stands for one code
      unit, so the model covers texts whose code units are below 256.
    - JavaScript numbers that the code uses as integers (indices, delays,
      counts, limits) are [Z].
    - A thrown value is an error object [JsError]; what the code reads of
      it is its [message] and its [statusCode].
    - An asynchronous function is a computation [M A]: it takes the state
      of the run and gives back an outcome (a value or a thrown error)
      with the new state.  The state holds the outside world, on which
      the remote services act, and the trace of what the run did to it
      (pauses and requests).
    - [pLimit] only bounds how many calls are in flight; within one run,
      which awaits every call before the next, it passes the call through. *)

From Stdlib Require Import ZArith List String Ascii Bool Lia DecimalString.
Import ListNotations.
Local Open Scope string_scope.
Local Open Scope Z_scope.

(* ===================================================================== *)
(** ** JavaScript strings *)
(* ===================================================================== *)

Module JsString.

Definition chr (n : nat) : ascii := ascii_of_nat n.
Definition str1 (c : ascii) : string := String c EmptyString.

(** The double quote and the line feed, which string literals of this
    file do not hold. *)
Definition dq : string := str1 (chr 34).
Definition nl : string := str1 (chr 10).
Definition quoted (s : string) : string := dq ++ s ++ dq.

Definition js_length (s : string) : Z := Z.of_nat (String.length s).

(** [s.startsWith(p)] *)
Fixpoint startsWith (p s : string) : bool :=
  match p, s with
  | EmptyString, _ => true
  | String a p', String b s' => Ascii.eqb a b && startsWith p' s'
  | String _ _, EmptyString => false
  end.

(** What follows [p] in [s], when [s] starts with [p]. *)
Fixpoint strip_prefix (p s : string) : option string :=
  match p, s with
  | EmptyString, _ => Some s
  | String a p', String b s' =>
      if Ascii.eqb a b then strip_prefix p' s' else None
  | String _ _, EmptyString => None
  end.

(** [s.indexOf(needle)]: the first position at which [needle] occurs,
    [-1] when there is none. *)
Fixpoint indexOf_from (needle s : string) (i : Z) : Z :=
  if startsWith needle s then i
  else match s with
       | EmptyString => -1
       | String _ s' => indexOf_from needle s' (i + 1)
       end.
Definition indexOf (needle s : string) : Z := indexOf_from needle s 0.

(** [s.lastIndexOf(needle)]: the last position at which [needle]
    occurs, [-1] when there is none. *)
Fixpoint lastIndexOf_from (needle s : string) (i last : Z) : Z :=
  let last' := if startsWith needle s then i else last in
  match s with
  | EmptyString => last'
  | String _ s' => lastIndexOf_from needle s' (i + 1) last'
  end.
Definition lastIndexOf (needle s : string) : Z :=
  lastIndexOf_from needle s 0 (-1).

(** [s.includes(needle)] *)
Fixpoint includes (needle s : string) : bool :=
  startsWith needle s ||
  match s with
  | EmptyString => false
  | String _ s' => includes needle s'
  end.

(** [s.substring(a, b)]: both indices are clamped to [0, length] and
    swapped when the first is the larger. *)
Definition clamp (len x : Z) : Z := Z.min (Z.max x 0) len.
Definition js_substring (s : string) (a b : Z) : string :=
  let len := js_length s in
  let a' := clamp len a in
  let b' := clamp len b in
  let from := Z.min a' b' in
  let to := Z.max a' b' in
  String.substring (Z.to_nat from) (Z.to_nat (to - from)) s.

(** White space of [\s] and of [trim], among the code units below 256:
    tab, line feed, vertical tab, form feed, carriage return, space
    and no-break space. *)
Definition is_ws (c : ascii) : bool :=
  let n := nat_of_ascii c in
  ((9 <=? n) && (n <=? 13) || (n =? 32) || (n =? 160))%nat.

Fixpoint trimStart (s : string) : string :=
  match s with
  | EmptyString => EmptyString
  | String a s' => if is_ws a then trimStart s' else s
  end.

Fixpoint trimEnd (s : string) : string :=
  match s with
  | EmptyString => EmptyString
  | String a s' =>
      match trimEnd s' with
      | EmptyString => if is_ws a then EmptyString else str1 a
      | t => String a t
      end
  end.

Definition trim (s : string) : string := trimEnd (trimStart s).

(** [String(n)] for an integer [n]. *)
Definition string_of_Z (n : Z) : string :=
  NilZero.string_of_int (Z.to_int n).

(** [s.repeat(n)] *)
Fixpoint repeat_string (s : string) (n : nat) : string :=
  match n with
  | O => EmptyString
  | S n' => s ++ repeat_string s n'
  end.

(** [arr.join(sep)] *)
Fixpoint join (sep : string) (l : list string) : string :=
  match l with
  | [] => EmptyString
  | [x] => x
  | x :: rest => x ++ sep ++ join sep rest
  end.

(** Membership of a character, as a boolean. *)
Fixpoint has_char (c : ascii) (s : string) : bool :=
  match s with
  | EmptyString => false
  | String a s' => Ascii.eqb a c || has_char c s'
  end.

End JsString.
Import JsString.

(* ===================================================================== *)
(** ** JavaScript arrays *)
(* ===================================================================== *)

Module JsArray.

(** [arr.slice(0, n)] for an integer [n]: a negative [n] counts from
    the end of the array. *)
Definition slice0 {A} (l : list A) (n : Z) : list A :=
  let len := Z.of_nat (List.length l) in
  let stop := if n <? 0 then Z.max (len + n) 0 else Z.min n len in
  firstn (Z.to_nat stop) l.

(** [arr.findIndex(p)]: the first index whose element satisfies [p],
    [-1] when there is none. *)
Fixpoint findIndex_from {A} (p : A -> bool) (l : list A) (i : Z) : Z :=
  match l with
  | [] => -1
  | x :: l' => if p x then i else findIndex_from p l' (i + 1)
  end.
Definition findIndex {A} (p : A -> bool) (l : list A) : Z :=
  findIndex_from p l 0.

(** [arr.filter((x, i, arr) => p x i arr)] *)
Fixpoint filter_indexed_from {A} (p : A -> Z -> list A -> bool)
         (arr l : list A) (i : Z) : list A :=
  match l with
  | [] => []
  | x :: l' =>
      if p x i arr then x :: filter_indexed_from p arr l' (i + 1)
      else filter_indexed_from p arr l' (i + 1)
  end.
Definition filter_indexed {A} (p : A -> Z -> list A -> bool)
           (arr : list A) : list A :=
  filter_indexed_from p arr arr 0.

(** [[...new Set(arr)]] for an array of strings: a [Set] keeps
    insertion order and ignores a value it already holds. *)
Definition set_add (acc : list string) (x : string) : list string :=
  if existsb (String.eqb x) acc then acc else acc ++ [x].
Definition spread_set (l : list string) : list string :=
  fold_left set_add l [].

End JsArray.
Import JsArray.


(* ===================================================================== *)
(** ** JSON values and [JSON.parse] *)
(* ===================================================================== *)

Module Json.

(** A parsed JSON value.  A number keeps the text it was written with;
    an object keeps its members in the order of the text, and a property
    read takes the last member with that key, as [JSON.parse] lets a
    later duplicate overwrite an earlier one. *)
#[warnings="-register-all"]
Inductive json : Type :=
| JNull
| JBool (b : bool)
| JNumber (lexeme : string)
| JString (s : string)
| JArray (items : list json)
| JObject (members : list (string * json)).

(** The outcome of a parsing function: a value with the text that
    follows it, a syntax error, or fuel exhausted. *)
Inductive presult (A : Type) : Type :=
| POk (a : A) (rest : string)
| PFail
| POutOfFuel.
Arguments POk {A} a rest.
Arguments PFail {A}.
Arguments POutOfFuel {A}.

(** JSON white space: space, tab, line feed, carriage return. *)
Definition is_json_ws (c : ascii) : bool :=
  let n := nat_of_ascii c in
  ((n =? 32) || (n =? 9) || (n =? 10) || (n =? 13))%nat.

Fixpoint skip_ws (s : string) : string :=
  match s with
  | EmptyString => EmptyString
  | String a s' => if is_json_ws a then skip_ws s' else s
  end.

Definition is_digit (c : ascii) : bool :=
  let n := nat_of_ascii c in ((48 <=? n) && (n <=? 57))%nat.

Definition hex_value (c : ascii) : option nat :=
  let n := nat_of_ascii c in
  if ((48 <=? n) && (n <=? 57))%nat then Some (n - 48)%nat
  else if ((65 <=? n) && (n <=? 70))%nat then Some (n - 55)%nat
  else if ((97 <=? n) && (n <=? 102))%nat then Some (n - 87)%nat
  else None.

(** The character a one-letter escape stands for. *)
Definition unescape (c : ascii) : option ascii :=
  let n := nat_of_ascii c in
  if (n =? 34)%nat then Some (chr 34)            (* quote *)
  else if (n =? 92)%nat then Some (chr 92)       (* backslash *)
  else if (n =? 47)%nat then Some (chr 47)       (* slash *)
  else if (n =? 98)%nat then Some (chr 8)        (* backspace *)
  else if (n =? 102)%nat then Some (chr 12)      (* form feed *)
  else if (n =? 110)%nat then Some (chr 10)      (* line feed *)
  else if (n =? 114)%nat then Some (chr 13)      (* carriage return *)
  else if (n =? 116)%nat then Some (chr 9)       (* tab *)
  else None.

Definition cons_char (c : ascii) (r : option (string * string))
  : option (string * string) :=
  match r with
  | Some (body, rest) => Some (String c body, rest)
  | None => None
  end.

(** The characters of a string literal after its opening quote, with
    the text after its closing quote.  A [\uXXXX] escape is decoded when
    its code unit is below 256, the range of the model's strings. *)
Fixpoint parse_string_body (s : string) : option (string * string) :=
  match s with
  | EmptyString => None
  | String c s' =>
      if Ascii.eqb c (chr 34) then Some (EmptyString, s')
      else if Ascii.eqb c (chr 92) then
        match s' with
        | EmptyString => None
        | String e s'' =>
            match unescape e with
            | Some ch => cons_char ch (parse_string_body s'')
            | None =>
                if Ascii.eqb e "u" then
                  match s'' with
                  | String h1 (String h2 (String h3 (String h4 r))) =>
                      match hex_value h1, hex_value h2,
                            hex_value h3, hex_value h4 with
                      | Some 0%nat, Some 0%nat, Some a, Some b =>
                          cons_char (chr (16 * a + b)) (parse_string_body r)
                      | _, _, _, _ => None
                      end
                  | _ => None
                  end
                else None
            end
        end
      else if (nat_of_ascii c <? 32)%nat then None
      else cons_char c (parse_string_body s')
  end.

(** The longest run of digits at the head of a text, and what follows. *)
Fixpoint take_digits (s : string) : string * string :=
  match s with
  | EmptyString => (EmptyString, EmptyString)
  | String c s' =>
      if is_digit c then
        let (d, r) := take_digits s' in (String c d, r)
      else (EmptyString, s)
  end.

(** A number: [-]? ( 0 | [1-9][0-9]* ) ( . [0-9]+ )? ( [eE] [+-]? [0-9]+ )? *)
Definition parse_int_part (s : string) : option (string * string) :=
  match s with
  | String c s' =>
      if Ascii.eqb c "0" then Some ("0", s')
      else if is_digit c then
        let (d, r) := take_digits s' in Some (String c d, r)
      else None
  | EmptyString => None
  end.

Definition parse_frac_part (s : string) : option (string * string) :=
  match s with
  | String c s' =>
      if Ascii.eqb c "." then
        match take_digits s' with
        | (EmptyString, _) => None
        | (d, r) => Some (String c d, r)
        end
      else Some (EmptyString, s)
  | EmptyString => Some (EmptyString, s)
  end.

Definition parse_exp_part (s : string) : option (string * string) :=
  match s with
  | String c s' =>
      if Ascii.eqb c "e" || Ascii.eqb c "E" then
        let (sign, s1) :=
          match s' with
          | String g s'' =>
              if Ascii.eqb g "+" || Ascii.eqb g "-"
              then (str1 g, s'') else (EmptyString, s')
          | EmptyString => (EmptyString, s')
          end in
        match take_digits s1 with
        | (EmptyString, _) => None
        | (d, r) => Some (String c (sign ++ d), r)
        end
      else Some (EmptyString, s)
  | EmptyString => Some (EmptyString, s)
  end.

Definition parse_sign (s : string) : string * string :=
  match s with
  | String c s' => if Ascii.eqb c "-" then (str1 c, s') else (EmptyString, s)
  | EmptyString => (EmptyString, s)
  end.

Definition parse_number (s : string) : option (string * string) :=
  let (sign, s0) := parse_sign s in
  match parse_int_part s0 with
  | None => None
  | Some (i, s1) =>
      match parse_frac_part s1 with
      | None => None
      | Some (f, s2) =>
          match parse_exp_part s2 with
          | None => None
          | Some (e, s3) => Some (sign ++ i ++ f ++ e, s3)
          end
      end
  end.

Definition parse_literal (word : string) (v : json) (s : string)
  : presult json :=
  match strip_prefix word s with
  | Some rest => POk v rest
  | None => PFail
  end.

(** The first character of a text, when it is [c], and what follows. *)
Definition after_char (c : ascii) (s : string) : option string :=
  match s with
  | String a rest => if Ascii.eqb a c then Some rest else None
  | EmptyString => None
  end.

(** Recursive descent over the grammar of JSON values.  The fuel bounds
    the depth of the recursion; [parse_fuel] gives enough of it for every
    text (see [parse_fuel_enough]). *)
Fixpoint parse_value (fuel : nat) (s : string) : presult json :=
  match fuel with
  | O => POutOfFuel
  | S fuel' =>
      match skip_ws s with
      | EmptyString => PFail
      | String c r =>
          if Ascii.eqb c "{" then
            match after_char "}" (skip_ws r) with
            | Some r' => POk (JObject []) r'
            | None => parse_members fuel' (skip_ws r) []
            end
          else if Ascii.eqb c "[" then
            match after_char "]" (skip_ws r) with
            | Some r' => POk (JArray []) r'
            | None => parse_elements fuel' (skip_ws r) []
            end
          else if Ascii.eqb c (chr 34) then
            match parse_string_body r with
            | Some (str, r') => POk (JString str) r'
            | None => PFail
            end
          else if Ascii.eqb c "t" then parse_literal "true" (JBool true) (String c r)
          else if Ascii.eqb c "f" then parse_literal "false" (JBool false) (String c r)
          else if Ascii.eqb c "n" then parse_literal "null" JNull (String c r)
          else
            match parse_number (String c r) with
            | Some (lexeme, r') => POk (JNumber lexeme) r'
            | None => PFail
            end
      end
  end

(** The elements of an array after its opening bracket, up to and
    including the closing one. *)
with parse_elements (fuel : nat) (s : string) (acc : list json)
  : presult json :=
  match fuel with
  | O => POutOfFuel
  | S fuel' =>
      match parse_value fuel' s with
      | POk v r =>
          match after_char "," (skip_ws r) with
          | Some r' => parse_elements fuel' r' (acc ++ [v])
          | None =>
              match after_char "]" (skip_ws r) with
              | Some r' => POk (JArray (acc ++ [v])) r'
              | None => PFail
              end
          end
      | PFail => PFail
      | POutOfFuel => POutOfFuel
      end
  end

(** The members of an object after its opening brace, up to and
    including the closing one. *)
with parse_members (fuel : nat) (s : string) (acc : list (string * json))
  : presult json :=
  match fuel with
  | O => POutOfFuel
  | S fuel' =>
      match after_char (chr 34) (skip_ws s) with
      | None => PFail
      | Some r =>
          match parse_string_body r with
          | None => PFail
          | Some (key, r1) =>
              match after_char ":" (skip_ws r1) with
              | None => PFail
              | Some r2 =>
                  match parse_value fuel' r2 with
                  | POk v r3 =>
                      match after_char "," (skip_ws r3) with
                      | Some r4 => parse_members fuel' r4 (acc ++ [(key, v)])
                      | None =>
                          match after_char "}" (skip_ws r3) with
                          | Some r4 => POk (JObject (acc ++ [(key, v)])) r4
                          | None => PFail
                          end
                      end
                  | PFail => PFail
                  | POutOfFuel => POutOfFuel
                  end
              end
          end
      end
  end.

(** A parsing function is well served by its fuel on a text when it
    does not run out of it and leaves less text than it was given. *)
Definition served {A : Type} (res : presult A) (s : string) : Prop :=
  res <> POutOfFuel /\
  forall v r, res = POk v r -> (String.length r < String.length s)%nat.

Definition parse_fuel (s : string) : nat := (2 * String.length s + 2)%nat.

(** [JSON.parse(s)]: [None] stands for the [SyntaxError] it throws. *)
Definition JSON_parse (s : string) : option json :=
  match parse_value (parse_fuel s) s with
  | POk v rest =>
      match skip_ws rest with
      | EmptyString => Some v
      | String _ _ => None
      end
  | PFail => None
  | POutOfFuel => None
  end.

(** [obj[key]] on the members of an object: the last member with that
    key. *)
Fixpoint get_member (key : string) (members : list (string * json))
  : option json :=
  match members with
  | [] => None
  | (k, v) :: rest =>
      match get_member key rest with
      | Some v' => Some v'
      | None => if String.eqb k key then Some v else None
      end
  end.

End Json.
Import Json.


(* ===================================================================== *)
(** ** Errors, outcomes and the state of a run *)
(* ===================================================================== *)

Module Runtime.

(** An error object: [e.message] and [e.statusCode], either of which may
    be undefined. *)
Record JsError : Type := mkJsError {
  message : option string;
  statusCode : option Z
}.

(** [new Error(msg)] *)
Definition Error (msg : string) : JsError :=
  {| message := Some msg; statusCode := None |}.

(** The errors the language raises by itself.  Their message texts are
    the engine's; the code under study only reads them back. *)
Definition TypeError : JsError := Error "TypeError".
Definition SyntaxError : JsError := Error "SyntaxError".

Inductive Outcome (A : Type) : Type :=
| Returned (a : A)
| Thrown (e : JsError).
Arguments Returned {A} a.
Arguments Thrown {A} e.

(** What a run does to the outside: pauses and requests. *)
Inductive Event : Type :=
| EvDelay (ms : Z)
| EvSearch (query : string) (limit timeout : Z)
| EvGenerate (prompt : string).

(** The answer of [model.generateContent]: [result.response.text()]
    gives the text or throws. *)
Record GenerateContentResult : Type := {
  response_text : Outcome string
}.

(** One item of a search answer and the answer itself: [item.markdown]
    and [result.data], either of which may be undefined. *)
Record SearchItem : Type := { markdown : option string }.
Record SearchResponse : Type := { data : option (list SearchItem) }.

(** The collaborators of the code under study.  The two remote services
    act on a world of their own.  [trimPrompt] is imported from
    [models/providers/ai-models], which is not among the sources: it is
    taken as it comes, a function of the content and the size budget
    that returns a string or throws. *)
Record Services : Type := {
  World : Type;
  model_generateContent :
    string -> World -> Outcome GenerateContentResult * World;
  firecrawl_search :
    string -> Z -> Z -> World -> Outcome SearchResponse * World;
  trimPrompt : string -> Z -> Outcome string
}.

Record State (W : Type) : Type := mkState {
  world : W;
  trace : list Event
}.
Arguments mkState {W} world trace.
Arguments world {W} s.
Arguments trace {W} s.

(** A computation of the run. *)
Definition M (W A : Type) : Type := State W -> Outcome A * State W.

Definition ret {W A} (a : A) : M W A := fun st => (Returned a, st).

Definition throw {W A} (e : JsError) : M W A := fun st => (Thrown e, st).

Definition bind {W A B} (m : M W A) (k : A -> M W B) : M W B :=
  fun st =>
    match m st with
    | (Returned a, st') => k a st'
    | (Thrown e, st') => (Thrown e, st')
    end.

(** [try { m } catch (e) { handler e }] *)
Definition try_catch {W A} (m : M W A) (handler : JsError -> M W A)
  : M W A :=
  fun st =>
    match m st with
    | (Returned a, st') => (Returned a, st')
    | (Thrown e, st') => handler e st'
    end.

(** A synchronous step that returns or throws. *)
Definition lift {W A} (o : Outcome A) : M W A := fun st => (o, st).

(** [await delay(ms)] *)
Definition delay {W} (ms : Z) : M W unit :=
  fun st => (Returned tt, mkState (world st) (trace st ++ [EvDelay ms])).

(** A request to a remote service: it is recorded, and the service
    answers from the world and changes it. *)
Definition request {W A} (ev : Event) (op : W -> Outcome A * W) : M W A :=
  fun st =>
    let (r, w') := op (world st) in
    (r, mkState w' (trace st ++ [ev])).

(** [pLimit(n)] hands back a wrapper that runs the call it is given. *)
Definition limit {W A} (fn : M W A) : M W A := fn.

(** The pauses among the events of a trace. *)
Fixpoint waits (tr : list Event) : list Z :=
  match tr with
  | [] => []
  | EvDelay ms :: rest => ms :: waits rest
  | _ :: rest => waits rest
  end.

(** The search requests among the events of a trace. *)
Fixpoint searches (tr : list Event) : list (string * Z * Z) :=
  match tr with
  | [] => []
  | EvSearch q l t :: rest => (q, l, t) :: searches rest
  | _ :: rest => searches rest
  end.

End Runtime.
Import Runtime.

Declare Scope run_scope.
Delimit Scope run_scope with run.
Notation "x <- m ;; k" := (bind m (fun x => k))
  (at level 61, m at next level, right associativity) : run_scope.
Notation "m ;;; k" := (bind m (fun _ => k))
  (at level 61, right associativity) : run_scope.

(* ===================================================================== *)
(** ** The fenced code block pattern *)
(* ===================================================================== *)

Module CodeBlock.

Definition fence : string := "```".

(** The lazy body of the capture group: the text after the opening
    brace up to the first closing brace that is followed by optional
    white space and a fence. *)
Fixpoint lazy_body (s : string) : option string :=
  match s with
  | EmptyString => None
  | String c s' =>
      if Ascii.eqb c "}" && startsWith fence (trimStart s')
      then Some "}"
      else match lazy_body s' with
           | Some body => Some (String c body)
           | None => None
           end
  end.

(** After the fence and the optional tag: white space, then the
    captured object.  The white space is taken whole: a shorter run
    would leave a white space character where the brace must be. *)
Definition after_tag (s : string) : option string :=
  match trimStart s with
  | String c body =>
      if Ascii.eqb c "{" then
        match lazy_body body with
        | Some b => Some (String c b)
        | None => None
        end
      else None
  | EmptyString => None
  end.

(** A match that starts at the head of the text: the tag is tried
    first, then its absence. *)
Definition match_here (s : string) : option string :=
  match strip_prefix fence s with
  | None => None
  | Some r =>
      match strip_prefix "json" r with
      | Some r' =>
          match after_tag r' with
          | Some c => Some c
          | None => after_tag r
          end
      | None => after_tag r
      end
  end.

(** The first capture group of the leftmost match of
    [/```(?:json)?\s*(\{[\s\S]*?\})\s*```/] in the text. *)
Fixpoint codeBlockMatch (s : string) : option string :=
  match match_here s with
  | Some c => Some c
  | None =>
      match s with
      | EmptyString => None
      | String _ s' => codeBlockMatch s'
      end
  end.

End CodeBlock.
Import CodeBlock.


(* ===================================================================== *)
(** ** src/core/feedback.ts *)
(* ===================================================================== *)

Module Feedback.
Section WithServices.
Variable S : Services.
Local Abbreviation W := (World S).
Local Open Scope run_scope.

(** [retry(fn, retries = 3, baseDelay = 1000)].  The count of retries
    is a natural number: every call of the sources leaves it at its
    default. *)
Fixpoint retry {T} (fn : M W T) (retries : nat) (baseDelay : Z) : M W T :=
  try_catch fn (fun e =>
    match retries with
    | O => throw e
    | Datatypes.S retries' =>
        let isRateLimit :=
          match message e with
          | Some msg => includes "429" msg || includes "quota" msg
          | None => false
          end in
        let waitTime := if isRateLimit then baseDelay * 2 else baseDelay in
        delay waitTime ;;;
        retry fn retries' (waitTime * 2)
    end).

Definition default_retries : nat := 3.
Definition default_baseDelay : Z := 1000.

Definition extractJSON (text : string) : option string :=
  match codeBlockMatch text with
  | Some captured => Some captured
  | None =>
      let startIndex := indexOf "{" text in
      let endIndex := lastIndexOf "}" text in
      if (startIndex =? -1) || (endIndex =? -1) then None
      else Some (js_substring text startIndex (endIndex + 1))
  end.

Definition prompt (query : string) (numQuestions : Z) : string :=
  join nl [
    "Given this research query: " ++ quoted query;
    "";
    "Generate " ++ string_of_Z numQuestions ++ " insightful follow-up questions to better understand what specific aspects the user wants to research.";
    "The questions should help clarify the scope, priorities, and specific areas of interest.";
    "";
    "Format your response as a JSON object like this:";
    "{";
    "  " ++ quoted "questions" ++ ": [";
    "    " ++ quoted "What specific aspects of X are you most interested in?" ++ ",";
    "    " ++ quoted "Are there particular Y that you want to focus on?" ++ ",";
    "    " ++ quoted "How important is Z compared to other factors?";
    "  ]";
    "}";
    "";
    "IMPORTANT: Return ONLY the JSON object, no other text."
  ].

Definition retryPrompt (query : string) (numQuestions : Z) : string :=
  prompt query numQuestions ++ nl ++ nl ++
  "PREVIOUS ATTEMPT FAILED. You MUST return ONLY a valid JSON object with an array of questions. No other text.".

(** [typeof q === 'string' && q.trim().length > 0 && q.includes('?')] *)
Definition isValidQuestion (q : json) : bool :=
  match q with
  | JString s => (js_length (trim s) >? 0) && includes "?" s
  | _ => false
  end.

Definition trimmed (q : json) : string :=
  match q with
  | JString s => trim s
  | _ => EmptyString
  end.

(** [parsed.questions.filter(...).map(q => q.trim()).slice(0, numQuestions)]:
    reading [questions] off [null], or calling [filter] on what is not
    an array, throws a [TypeError]. *)
Definition validQuestions (parsed : json) (numQuestions : Z)
  : Outcome (list string) :=
  match parsed with
  | JObject members =>
      match get_member "questions" members with
      | Some (JArray questions) =>
          Returned
            (slice0 (map trimmed (filter isValidQuestion questions))
                    numQuestions)
      | _ => Thrown TypeError
      end
  | _ => Thrown TypeError
  end.

(** The body shared by the two attempts: extract, parse, validate.
    [noJson] and [noValid] are the messages of the two errors the
    attempt raises by itself. *)
Definition questionsOf (noJson noValid : string) (text : string)
           (numQuestions : Z) : Outcome (list string) :=
  match extractJSON text with
  | None => Thrown (Error noJson)
  | Some EmptyString => Thrown (Error noJson)
  | Some jsonStr =>
      match JSON_parse jsonStr with
      | None => Thrown SyntaxError
      | Some parsed =>
          match validQuestions parsed numQuestions with
          | Thrown e => Thrown e
          | Returned [] => Thrown (Error noValid)
          | Returned valid => Returned valid
          end
      end
  end.

Definition firstAttempt (text : string) (numQuestions : Z)
  : Outcome (list string) :=
  questionsOf "No JSON found in response"
              "No valid questions found in response" text numQuestions.

Definition secondAttempt (text : string) (numQuestions : Z)
  : Outcome (list string) :=
  questionsOf "Failed to get JSON response after retry"
              "No valid questions found in retry response" text numQuestions.

(** [limit(() => retry(async () => model.generateContent(p)))] followed
    by [result.response.text()]. *)
Definition generateText (p : string) : M W string :=
  result <- limit (retry
              (request (EvGenerate p) (model_generateContent S p))
              default_retries default_baseDelay) ;;
  lift (response_text result).

(** The questions returned when everything else failed. *)
Definition defaultQuestions (query : string) : list string :=
  [ "What specific aspects of " ++ quoted query ++ " are you most interested in?";
    "What are your main priorities or goals for this research?";
    "Are there any specific limitations or constraints we should consider?" ].

Record FeedbackArgs : Type := {
  query : string;
  numQuestions : option Z
}.

Definition generateFeedback (args : FeedbackArgs) : M W (list string) :=
  let query := query args in
  let numQuestions :=
    match numQuestions args with Some n => n | None => 3 end in
  try_catch
    (text <- generateText (prompt query numQuestions) ;;
     try_catch
       (lift (firstAttempt text numQuestions))
       (fun _ =>
          retryText <- generateText (retryPrompt query numQuestions) ;;
          lift (secondAttempt retryText numQuestions)))
    (fun _ => ret (slice0 (defaultQuestions query) numQuestions)).

End WithServices.
End Feedback.

(* ===================================================================== *)
(** ** src/core/web-search.ts *)
(* ===================================================================== *)

Module WebSearch.
Section WithServices.
Variable S : Services.
Local Abbreviation W := (World S).
Local Open Scope run_scope.

(** [retry(fn, retries = 3, baseDelay = 2000)].  The reset hint read
    from the message only goes to the log. *)
Fixpoint retry {T} (fn : M W T) (retries : nat) (baseDelay : Z) : M W T :=
  try_catch fn (fun e =>
    match retries with
    | O => throw e
    | Datatypes.S retries' =>
        let isRateLimit :=
          match statusCode e with
          | Some code => code =? 429
          | None => false
          end in
        let waitTime := if isRateLimit then baseDelay * 4 else baseDelay in
        delay waitTime ;;;
        retry fn retries' (waitTime * 2)
    end).

Definition default_retries : nat := 3.
Definition default_baseDelay : Z := 2000.

Definition search_timeout : Z := 30000.
Definition search_limit (depth : Z) : Z := Z.min (depth * 2) 5.

(** [result.data.map(item => ...)]: the items are visited in order and
    the first [trimPrompt] that throws ends the visit. *)
Fixpoint mapItems (items : list SearchItem) : Outcome (list (option string)) :=
  match items with
  | [] => Returned []
  | item :: rest =>
      let here :=
        match markdown item with
        | None => Returned None
        | Some EmptyString => Returned None
        | Some content =>
            match trimPrompt S content 15000 with
            | Returned t => Returned (Some t)
            | Thrown e => Thrown e
            end
        end in
      match here with
      | Thrown e => Thrown e
      | Returned x =>
          match mapItems rest with
          | Thrown e => Thrown e
          | Returned xs => Returned (x :: xs)
          end
      end
  end.

(** lodash's [compact]: the falsy entries, here [null] and the empty
    string, are dropped. *)
Fixpoint compact (l : list (option string)) : list string :=
  match l with
  | [] => []
  | None :: rest => compact rest
  | Some EmptyString :: rest => compact rest
  | Some s :: rest => s :: compact rest
  end.

Definition extractContents (result : SearchResponse) : Outcome (list string) :=
  match data result with
  | None => Thrown TypeError
  | Some items =>
      match mapItems items with
      | Thrown e => Thrown e
      | Returned l => Returned (compact l)
      end
  end.

Definition searchRequest (query : string) (depth : Z) : M W SearchResponse :=
  request (EvSearch query (search_limit depth) search_timeout)
          (firecrawl_search S query (search_limit depth) search_timeout).

Definition searchWeb (query : string) (depth : Z) : M W (list string) :=
  try_catch
    (result <- limit (retry (searchRequest query depth)
                            default_retries default_baseDelay) ;;
     contents <- lift (extractContents result) ;;
     delay 1000 ;;;
     ret contents)
    (fun _ => ret []).

End WithServices.
End WebSearch.


(* ===================================================================== *)
(** ** src/core/research-engine.ts *)
(* ===================================================================== *)

Module ResearchEngine.

Record Finding : Type := {
  title : string;
  details : list string
}.

(** What [processContents] returns, and what the analysis of one chunk
    is typed as. *)
Record Analysis : Type := {
  summary : string;
  keyFindings : list Finding;
  sources : list string
}.

Record Report : Type := {
  executiveSummary : string;
  report_keyFindings : list Finding;
  report_sources : list string
}.

(** The object [deepResearch] returns; [feedbackQuestions] and [error]
    are present on some paths only. *)
Record ResearchResult : Type := {
  query : string;
  feedbackQuestions : option (list string);
  error : option string;
  searchQueries : list string;
  report : Report
}.

Definition extractJSON (text : string) : option string :=
  match codeBlockMatch text with
  | Some captured => Some captured
  | None =>
      let startIndex := indexOf "{" text in
      let endIndex := lastIndexOf "}" text in
      if (startIndex =? -1) || (endIndex =? -1) then None
      else Some (js_substring text startIndex (endIndex + 1))
  end.

Definition maxChunkSize : Z := 15000.

(** The loop of [processContents] that fills [chunks]; it returns the
    chunks pushed so far with the chunk being built. *)
Fixpoint chunkLoop (contents : list string) (chunks : list string)
         (currentChunk : string) : list string * string :=
  match contents with
  | [] => (chunks, currentChunk)
  | content :: rest =>
      if js_length currentChunk + js_length content >? maxChunkSize
      then chunkLoop rest (chunks ++ [currentChunk]) content
      else chunkLoop rest chunks (currentChunk ++ nl ++ nl ++ content)
  end.

(** The chunking step of [processContents]: the loop, then the last
    chunk when it is not empty. *)
Definition processContents_chunks (contents : list string) : list string :=
  let (chunks, currentChunk) := chunkLoop contents [] EmptyString in
  match currentChunk with
  | EmptyString => chunks
  | _ => chunks ++ [currentChunk]
  end.

(** The merge step of [processContents], on the results of the chunks. *)
Definition firstWithTitle (f : Finding) (i : Z) (arr : list Finding) : bool :=
  findIndex (fun g => String.eqb (title g) (title f)) arr =? i.

Definition processContents_merge (chunkResults : list Analysis) : Analysis :=
  let merged_summary := join (nl ++ nl) (map summary chunkResults) in
  let merged_keyFindings := flat_map keyFindings chunkResults in
  let merged_sources := flat_map sources chunkResults in
  {| summary := merged_summary;
     keyFindings := filter_indexed firstWithTitle merged_keyFindings;
     sources := spread_set merged_sources |}.

Section WithServices.
Variable S : Services.
Local Abbreviation W := (World S).
Local Open Scope run_scope.

(** [retry(fn, retries = 3, baseDelay = 2000)] *)
Fixpoint retry {T} (fn : M W T) (retries : nat) (baseDelay : Z) : M W T :=
  try_catch fn (fun e =>
    match retries with
    | O => throw e
    | Datatypes.S retries' =>
        let isRateLimit :=
          match message e with
          | Some msg => includes "429" msg || includes "quota" msg
          | None => false
          end in
        let waitTime := if isRateLimit then baseDelay * 4 else baseDelay in
        delay waitTime ;;;
        retry fn retries' (waitTime * 2)
    end).

(** The steps [deepResearch] calls.  It is written over any four of
    them, so that what it guarantees can be stated whatever they do. *)
Variable generateFeedback : Feedback.FeedbackArgs -> M W (list string).
Variable generateSerpQueries : string -> Z -> M W (list string).
Variable searchWeb : string -> Z -> M W (list string).
Variable processContents : string -> list string -> M W Analysis.

(** The loop over the search queries, with a pause between two of them. *)
Fixpoint searchLoop (queries : list string) (depth : Z)
  : M W (list (list string)) :=
  match queries with
  | [] => ret []
  | q :: rest =>
      results <- searchWeb q depth ;;
      match rest with
      | [] => ret tt
      | _ :: _ => delay 1000
      end ;;;
      more <- searchLoop rest depth ;;
      ret (results :: more)
  end.

(** [`${e.message}`] *)
Definition messageText (e : JsError) : string :=
  match message e with
  | Some msg => msg
  | None => "undefined"
  end.

(** The body of the [try] of [deepResearch]. *)
Definition deepResearch_try (query : string) (breadth depth : Z)
  : M W ResearchResult :=
  if (breadth =? 1) && (depth =? 1) then
    feedbackQuestions <-
      generateFeedback {| Feedback.query := query;
                          Feedback.numQuestions := Some 3 |} ;;
    ret {| query := query;
           feedbackQuestions := Some feedbackQuestions;
           error := None;
           searchQueries := [];
           report := {| executiveSummary := EmptyString;
                        report_keyFindings := [];
                        report_sources := [] |} |}
  else
    searchQueries <- generateSerpQueries query breadth ;;
    searchResults <- searchLoop searchQueries depth ;;
    let allContents := List.concat searchResults in
    analysis <- processContents query allContents ;;
    ret {| query := query;
           feedbackQuestions := None;
           error := None;
           searchQueries := searchQueries;
           report := {| executiveSummary := summary analysis;
                        report_keyFindings := keyFindings analysis;
                        report_sources := sources analysis |} |}.

(** The report of the [catch] of [deepResearch]. *)
Definition failedReport : Report :=
  {| executiveSummary := "Research could not be completed due to an error.";
     report_keyFindings := [];
     report_sources := [] |}.

Definition deepResearch (query : string) (breadth depth : Z)
  : M W ResearchResult :=
  try_catch (deepResearch_try query breadth depth)
    (fun e =>
       ret {| query := query;
              feedbackQuestions := None;
              error := Some ("Research failed: " ++ messageText e);
              searchQueries := [];
              report := failedReport |}).

End WithServices.
End ResearchEngine.

(* ===================================================================== *)
(** ** src/models/providers/gemini-provider.ts *)
(* ===================================================================== *)

Module GeminiProvider.

(** The loop that counts braces.  It returns [jsonStartIndex] and the
    index [i] at which the count comes back to zero, when that happens. *)
Fixpoint braceLoop (s : string) (i braceCount jsonStartIndex : Z)
  : option (Z * Z) :=
  match s with
  | EmptyString => None
  | String c s' =>
      if Ascii.eqb c "{" then
        braceLoop s' (i + 1) (braceCount + 1)
                  (if braceCount =? 0 then i else jsonStartIndex)
      else if Ascii.eqb c "}" then
        if (braceCount - 1 =? 0) && negb (jsonStartIndex =? -1)
        then Some (jsonStartIndex, i)
        else braceLoop s' (i + 1) (braceCount - 1) jsonStartIndex
      else braceLoop s' (i + 1) braceCount jsonStartIndex
  end.

Definition extractJSON (text : string) : option string :=
  match codeBlockMatch text with
  | Some captured => Some captured
  | None =>
      let startIndex := indexOf "{" text in
      let endIndex := lastIndexOf "}" text in
      if (startIndex =? -1) || (endIndex =? -1) then None
      else
        match braceLoop text 0 0 (-1) with
        | Some (jsonStartIndex, i) =>
            Some (js_substring text jsonStartIndex (i + 1))
        | None => Some (js_substring text startIndex (endIndex + 1))
        end
  end.

End GeminiProvider.


(* ===================================================================== *)
(** ** Scripted services, for concrete runs *)
(* ===================================================================== *)

Module Scenario.

(** A world that answers from two scripts, one answer per request; a
    service whose script is used up fails. *)
Record Script : Type := {
  modelAnswers : list (Outcome string);
  searchAnswers : list (Outcome SearchResponse)
}.

Definition answerModel (_ : string) (w : Script)
  : Outcome GenerateContentResult * Script :=
  match modelAnswers w with
  | [] => (Thrown (Error "no answer"), w)
  | Returned text :: rest =>
      (Returned {| response_text := Returned text |},
       {| modelAnswers := rest; searchAnswers := searchAnswers w |})
  | Thrown e :: rest =>
      (Thrown e, {| modelAnswers := rest; searchAnswers := searchAnswers w |})
  end.

Definition answerSearch (_ : string) (_ _ : Z) (w : Script)
  : Outcome SearchResponse * Script :=
  match searchAnswers w with
  | [] => (Thrown (Error "no answer"), w)
  | a :: rest =>
      (a, {| modelAnswers := modelAnswers w; searchAnswers := rest |})
  end.

Definition scripted : Services :=
  {| World := Script;
     model_generateContent := answerModel;
     firecrawl_search := answerSearch;
     trimPrompt := fun content size =>
                     Returned (js_substring content 0 size) |}.

Definition start (model : list (Outcome string))
           (search : list (Outcome SearchResponse)) : State Script :=
  mkState {| modelAnswers := model; searchAnswers := search |} [].

(** A model that never answers with JSON. *)
Definition chatty : Services :=
  {| World := unit;
     model_generateContent := fun _ w =>
       (Returned {| response_text := Returned "I cannot help with that." |}, w);
     firecrawl_search := fun _ _ _ w => (Thrown (Error "unreachable"), w);
     trimPrompt := fun content _ => Returned content |}.

(** An operation on a world of remaining failures: it fails while some
    are left and then succeeds with [42]. *)
Definition flaky (w : list JsError) : Outcome Z * list JsError :=
  match w with
  | e :: rest => (Thrown e, rest)
  | [] => (Returned 42, [])
  end.

Definition flakyServices : Services :=
  {| World := list JsError;
     model_generateContent := fun _ w => (Thrown (Error "unused"), w);
     firecrawl_search := fun _ _ _ w => (Thrown (Error "unused"), w);
     trimPrompt := fun content _ => Returned content |}.

Definition rateLimited429 : JsError :=
  {| message := Some "Request failed"; statusCode := Some 429 |}.
Definition quotaExceeded : JsError := Error "quota exceeded for today".
Definition timedOut : JsError := Error "socket hang up".

(** A text whose prose holds braces before the object. *)
Definition embedded : string := "{" ++ quoted "a" ++ ":1}".
Definition proseWithBraces : string :=
  "Use {braces} like this: " ++ embedded.

(** A model answer with a single question. *)
Definition oneQuestion : string :=
  "{" ++ quoted "questions" ++ ": [" ++ quoted "Which decade?" ++ "]}".

(** Steps for the runs that do not reach them. *)
Definition noQueries : string -> Z -> M Script (list string) :=
  fun _ _ => throw (Error "not called").
Definition noAnalysis
  : string -> list string -> M Script ResearchEngine.Analysis :=
  fun _ _ => throw (Error "not called").

End Scenario.


(* ===================================================================== *)
(** ** Vocabulary of the properties *)
(* ===================================================================== *)

Module Backoff.

(** The two ways the wrappers recognise a rate limit. *)
Definition messageSaysRateLimit (e : JsError) : bool :=
  match message e with
  | Some msg => includes "429" msg || includes "quota" msg
  | None => false
  end.

Definition statusIs429 (e : JsError) : bool :=
  match statusCode e with
  | Some code => code =? 429
  | None => false
  end.

(** The classification the specification gives for all wrappers. *)
Definition specRateLimited (e : JsError) : bool :=
  statusIs429 e || messageSaysRateLimit e.

Section Scheme.
Context {W T : Type}.
Variable isRateLimit : JsError -> bool.
Variable factor : Z.

Definition waitFor (e : JsError) (baseDelay : Z) : Z :=
  if isRateLimit e then baseDelay * factor else baseDelay.

(** The scheme the three wrappers share, over the classifier and the
    factor in which they differ. *)
Fixpoint retryWith (fn : M W T) (retries : nat) (baseDelay : Z) : M W T :=
  try_catch fn (fun e =>
    match retries with
    | O => throw e
    | S retries' =>
        bind (delay (waitFor e baseDelay))
             (fun _ => retryWith fn retries' (waitFor e baseDelay * 2))
    end).

(** The first [k] calls of an operation from a world, when they all
    fail: the errors they throw and the world they leave. *)
Fixpoint failures (op : W -> Outcome T * W) (k : nat) (w : W)
  : option (list JsError * W) :=
  match k with
  | O => Some ([], w)
  | S k' =>
      match op w with
      | (Thrown e, w') =>
          match failures op k' w' with
          | Some (es, w'') => Some (e :: es, w'')
          | None => None
          end
      | (Returned _, _) => None
      end
  end.

End Scheme.

(** The waits of [k] failures that are not rate limits: each the double
    of the one before. *)
Fixpoint backoff (baseDelay : Z) (k : nat) : list Z :=
  match k with
  | O => []
  | S k' => baseDelay :: backoff (baseDelay * 2) k'
  end.

(** The events of a request attempted once more after each wait. *)
Fixpoint attemptsTrace (ev : Event) (ws : list Z) : list Event :=
  match ws with
  | [] => [ev]
  | w :: ws' => ev :: EvDelay w :: attemptsTrace ev ws'
  end.

Definition total (ws : list Z) : Z := fold_right Z.add 0 ws.

End Backoff.
Import Backoff.

Module SearchSpec.

(** The contents of the items that have one, in the order of the items. *)
Definition presentContents (items : list SearchItem) : list string :=
  flat_map (fun item => match markdown item with
                        | Some content => [content]
                        | None => []
                        end) items.

Definition nonEmpty (s : string) : bool :=
  match s with
  | EmptyString => false
  | String _ _ => true
  end.

(** What the search client keeps of an answer when trimming is the
    function [cut]: the trimmed contents of the items that have a
    content, the empty ones left out. *)
Definition keptContents (cut : string -> string) (items : list SearchItem)
  : list string :=
  filter nonEmpty (map cut (filter nonEmpty (presentContents items))).

End SearchSpec.
Import SearchSpec.

Module FeedbackSpec.

(** Whether a model answer gives questions: extraction, parsing and
    validation all succeed on it. *)
Definition yieldsQuestions (text : string) (numQuestions : Z) : bool :=
  match Feedback.firstAttempt text numQuestions with
  | Returned _ => true
  | Thrown _ => false
  end.

(** The count asked for: [numQuestions], 3 when it is left out. *)
Definition asked (args : Feedback.FeedbackArgs) : Z :=
  match Feedback.numQuestions args with
  | Some n => n
  | None => 3
  end.

End FeedbackSpec.
Import FeedbackSpec.

Module MergeSpec.

(** First occurrence wins: the elements of a list whose key is neither
    among the keys seen nor the key of an earlier element. *)
Fixpoint firstByKey {A : Type} (key : A -> string) (seen : list string)
         (l : list A) : list A :=
  match l with
  | [] => []
  | x :: rest =>
      if existsb (String.eqb (key x)) seen
      then firstByKey key seen rest
      else x :: firstByKey key (seen ++ [key x]) rest
  end.

Definition hasTitleOf (f g : ResearchEngine.Finding) : bool :=
  String.eqb (ResearchEngine.title g) (ResearchEngine.title f).

End MergeSpec.
Import MergeSpec.

Module ExtractSpec.

(** Reading the text after an opening brace at depth [depth]: the depth
    comes back to zero at the last character of the text and nowhere
    before it. *)
Fixpoint closesAtEndFrom (depth : nat) (s : string) : bool :=
  match s with
  | EmptyString => false
  | String c s' =>
      if Ascii.eqb c "{" then closesAtEndFrom (S depth) s'
      else if Ascii.eqb c "}" then
        match depth with
        | O => false
        | S O => match s' with EmptyString => true | String _ _ => false end
        | S d => closesAtEndFrom d s'
        end
      else closesAtEndFrom depth s'
  end.

(** A text that opens with a brace whose matching brace is its last
    character. *)
Definition balancedObject (obj : string) : bool :=
  match obj with
  | String c body => Ascii.eqb c "{" && closesAtEndFrom 1 body
  | EmptyString => false
  end.

End ExtractSpec.
Import ExtractSpec.

(* ===================================================================== *)
(** ** src/core/research-engine.ts, the steps of the orchestrator *)
(* ===================================================================== *)

Module ResearchSteps.

(** The analysis [processContents] returns from its [catch]: every
    content cut to 200 characters, with an ellipsis. *)
Definition processContents_fallback (contents : list string)
  : ResearchEngine.Analysis :=
  {| ResearchEngine.summary :=
       "Error analyzing results. Here are the raw findings:";
     ResearchEngine.keyFindings :=
       [ {| ResearchEngine.title := "Raw Results";
            ResearchEngine.details :=
              map (fun c => js_substring c 0 200 ++ "...") contents |} ];
     ResearchEngine.sources := ["Error processing sources"] |}.

Section WithServices.
Variable S : Services.
Local Abbreviation W := (World S).
Local Open Scope run_scope.

Definition default_retries : nat := 3.
Definition default_baseDelay : Z := 2000.

Definition prompt (query : string) (breadth : Z) : string :=
  join nl [
    "Given this research query: " ++ quoted query;
    "";
    "Generate " ++ string_of_Z breadth ++ " unique search queries that will help gather comprehensive information.";
    "The queries should cover different aspects and use varied search terms for better results.";
    "";
    "Format your response as a JSON object like this:";
    "{";
    "  " ++ quoted "queries" ++ ": [";
    "    " ++ quoted "detailed comparison iPhone 14 Pro Max vs iPhone 16 Pro Max camera features" ++ ",";
    "    " ++ quoted "iPhone 16 Pro Max expected battery life improvements" ++ ",";
    "    " ++ quoted "major upgrades iPhone 14 Pro Max to iPhone 16 Pro Max worth it";
    "  ]";
    "}";
    "";
    "IMPORTANT: Return ONLY the JSON object, no other text."
  ].

(** [typeof q === 'string' && q.trim().length > 0] *)
Definition isValidQuery (q : json) : bool :=
  match q with
  | JString s => js_length (trim s) >? 0
  | _ => false
  end.

Definition trimmed (q : json) : string :=
  match q with
  | JString s => trim s
  | _ => EmptyString
  end.

(** [parsed.queries.filter(...).map(q => q.trim()).slice(0, breadth)]:
    reading [queries] off [null], or calling [filter] on what is not an
    array, throws a [TypeError]. *)
Definition validQueries (parsed : json) (breadth : Z)
  : Outcome (list string) :=
  match parsed with
  | JObject members =>
      match get_member "queries" members with
      | Some (JArray queries) =>
          Returned
            (slice0 (map trimmed (filter isValidQuery queries)) breadth)
      | _ => Thrown TypeError
      end
  | _ => Thrown TypeError
  end.

(** What the [try] does with the text of the model: extract, parse,
    validate. *)
Definition queriesOf (text : string) (breadth : Z) : Outcome (list string) :=
  match ResearchEngine.extractJSON text with
  | None => Thrown (Error "No JSON found in response")
  | Some EmptyString => Thrown (Error "No JSON found in response")
  | Some jsonStr =>
      match JSON_parse jsonStr with
      | None => Thrown SyntaxError
      | Some parsed =>
          match validQueries parsed breadth with
          | Thrown e => Thrown e
          | Returned [] => Thrown (Error "No valid queries found in response")
          | Returned valid => Returned valid
          end
      end
  end.

(** The variations of the query returned when anything failed. *)
Definition fallbackQueries (query : string) : list string :=
  [ query;
    query ++ " comparison";
    query ++ " review";
    query ++ " worth it" ].

Definition generateSerpQueries (query : string) (breadth : Z)
  : M W (list string) :=
  try_catch
    (result <- limit (ResearchEngine.retry S
                 (request (EvGenerate (prompt query breadth))
                          (model_generateContent S (prompt query breadth)))
                 default_retries default_baseDelay) ;;
     text <- lift (response_text result) ;;
     lift (queriesOf text breadth))
    (fun _ => ret (slice0 (fallbackQueries query) breadth)).

(** [deepResearch] as the module wires it: the feedback generator, the
    query generator and the search client are the ones above; the
    analysis is left as a step. *)
Definition deepResearch_wired
    (processContents : string -> list string -> M W ResearchEngine.Analysis)
    (query : string) (breadth depth : Z) : M W ResearchEngine.ResearchResult :=
  ResearchEngine.deepResearch S (Feedback.generateFeedback S)
    generateSerpQueries (WebSearch.searchWeb S) processContents
    query breadth depth.

End WithServices.
End ResearchSteps.

(* ===================================================================== *)
(** ** src/run.ts *)
(* ===================================================================== *)

Module Run.

(** The value of a digit in a radix, when the character is one. *)
Definition digit_value (radix : Z) (c : ascii) : option Z :=
  let n := Z.of_nat (nat_of_ascii c) in
  let v := if (48 <=? n) && (n <=? 57) then Some (n - 48)
           else if (97 <=? n) && (n <=? 122) then Some (n - 87)
           else if (65 <=? n) && (n <=? 90) then Some (n - 55)
           else None in
  match v with
  | Some d => if d <? radix then Some d else None
  | None => None
  end.

(** The value of the longest run of digits at the head of a text, read
    after the digits of value [acc]; [seen] tells whether a digit was
    read. *)
Fixpoint read_digits (radix : Z) (s : string) (acc : Z) (seen : bool)
  : option Z :=
  match s with
  | EmptyString => if seen then Some acc else None
  | String c s' =>
      match digit_value radix c with
      | Some d => read_digits radix s' (acc * radix + d) true
      | None => if seen then Some acc else None
      end
  end.

(** [parseInt(s)] without a radix: leading white space, a sign, the
    prefix [0x] or [0X] for base 16, then digits; [None] stands for
    [NaN].  The value is kept exact where a double would round it or
    overflow: the callers clamp it into a small range, which gives the
    same result either way. *)
Definition parseInt (s : string) : option Z :=
  let s1 := trimStart s in
  let (negative, s2) :=
    match s1 with
    | String c rest =>
        if Ascii.eqb c "-" then (true, rest)
        else if Ascii.eqb c "+" then (false, rest)
        else (false, s1)
    | EmptyString => (false, s1)
    end in
  let (radix, s3) :=
    match s2 with
    | String z (String x rest) =>
        if Ascii.eqb z "0" && (Ascii.eqb x "x" || Ascii.eqb x "X")
        then (16, rest) else (10, s2)
    | _ => (10, s2)
    end in
  match read_digits radix s3 0 false with
  | Some n => Some (if negative then - n else n)
  | None => None
  end.

(** [parseInt(s) || fallback]: [NaN] and zero are falsy. *)
Definition parseIntOr (s : string) (fallback : Z) : Z :=
  match parseInt s with
  | Some n => if n =? 0 then fallback else n
  | None => fallback
  end.

(** [Math.min(10, Math.max(1, parseInt(breadthStr) || 6))] *)
Definition chooseBreadth (breadthStr : string) : Z :=
  Z.min 10 (Z.max 1 (parseIntOr breadthStr 6)).

(** [Math.min(5, Math.max(1, parseInt(depthStr) || 3))] *)
Definition chooseDepth (depthStr : string) : Z :=
  Z.min 5 (Z.max 1 (parseIntOr depthStr 3)).

(** [c.toLowerCase()] on one code unit below 256: the capital letters
    of ASCII and of Latin-1, the multiplication sign left alone. *)
Definition lower_char (c : ascii) : ascii :=
  let n := nat_of_ascii c in
  if ((65 <=? n) && (n <=? 90))%nat then ascii_of_nat (n + 32)
  else if ((192 <=? n) && (n <=? 222) && negb (n =? 215))%nat
  then ascii_of_nat (n + 32)
  else c.

Fixpoint toLowerCase (s : string) : string :=
  match s with
  | EmptyString => EmptyString
  | String c s' => String (lower_char c) (toLowerCase s')
  end.

(** The class [[a-z0-9]]. *)
Definition is_slug_char (c : ascii) : bool :=
  let n := nat_of_ascii c in
  ((97 <=? n) && (n <=? 122) || (48 <=? n) && (n <=? 57))%nat.

(** [s.replace(/[^a-z0-9]+/g, '-')]: every longest run of characters
    outside the class becomes one hyphen; [inRun] tells whether the
    character before was in such a run. *)
Fixpoint replaceRuns (s : string) (inRun : bool) : string :=
  match s with
  | EmptyString => EmptyString
  | String c s' =>
      if is_slug_char c then String c (replaceRuns s' false)
      else if inRun then replaceRuns s' true
      else String "-" (replaceRuns s' true)
  end.

(** [s.slice(0, n)] for a count [n] that is not negative. *)
Fixpoint sliceTo (n : nat) (s : string) : string :=
  match n, s with
  | O, _ => EmptyString
  | S _, EmptyString => EmptyString
  | S n', String c s' => String c (sliceTo n' s')
  end.

(** [query.toLowerCase().replace(/[^a-z0-9]+/g, '-').slice(0, 50)] *)
Definition sanitizedQuery (query : string) : string :=
  sliceTo 50 (replaceRuns (toLowerCase query) false).

(** The name of the report: [date] is the day part of
    [new Date().toISOString()]. *)
Definition filename (query date : string) : string :=
  "research-" ++ sanitizedQuery query ++ "-" ++ date ++ ".md".

End Run.

(* ===================================================================== *)
(** ** src/utils/file.ts *)
(* ===================================================================== *)

Module FileUtil.

(** [s.endsWith(suffix)] *)
Definition endsWith (suffix s : string) : bool :=
  let n := String.length s in
  let k := String.length suffix in
  if (n <? k)%nat then false
  else String.eqb (String.substring (n - k) k s) suffix.

(** The name [saveToFile] writes under, in the output directory:
    [timestamp] is the time of the call, as the function formats it. *)
Definition fileWithExt (filename timestamp : string) : string :=
  let finalFilename :=
    match filename with
    | EmptyString => "research-" ++ timestamp ++ ".md"
    | _ => filename
    end in
  if endsWith ".md" finalFilename then finalFilename
  else finalFilename ++ ".md".

End FileUtil.

Module MoreSpec.

(** Pauses that start at no less than [b] and at least double each
    time. *)
Fixpoint growsFrom (b : Z) (ws : list Z) : Prop :=
  match ws with
  | [] => True
  | w :: rest => b <= w /\ growsFrom (2 * w) rest
  end.

(** The pauses of [k] failures that are all rate limits, with the
    factor [f] of the wrapper. *)
Fixpoint compounded (b f : Z) (k : nat) : list Z :=
  match k with
  | O => []
  | S k' => b * f :: compounded (b * f * 2) f k'
  end.

(** A text made of white space only. *)
Fixpoint all_ws (s : string) : bool :=
  match s with
  | EmptyString => true
  | String c s' => is_ws c && all_ws s'
  end.

(** Whether a model answer gives search queries. *)
Definition yieldsQueries (text : string) (breadth : Z) : bool :=
  match ResearchSteps.queriesOf text breadth with
  | Returned _ => true
  | Thrown _ => false
  end.

(** The characters of a text, one by one. *)
Fixpoint chars (s : string) : list ascii :=
  match s with
  | EmptyString => []
  | String c s' => c :: chars s'
  end.

(** The model requests among the events of a trace. *)
Fixpoint generates (tr : list Event) : list string :=
  match tr with
  | [] => []
  | EvGenerate p :: rest => p :: generates rest
  | _ :: rest => generates rest
  end.

(** One for true, zero for false. *)
Definition b2n (b : bool) : nat := if b then 1%nat else 0%nat.

End MoreSpec.
Import MoreSpec.

(* ===================================================================== *)
(** * Properties *)
(* ===================================================================== *)

Local Open Scope list_scope.

(** ** The retry wrappers *)

Section RetryFacts.
Context {W T : Type}.
Variable isRateLimit : JsError -> bool.
Variable factor : Z.
Variable ev : Event.
Variable op : W -> Outcome T * W.

Lemma retryWith_returned (r : nat) (b : Z) (st : State W) v w' :
  op (world st) = (Returned v, w') ->
  retryWith isRateLimit factor (request ev op) r b st
  = (Returned v, mkState w' (trace st ++ [ev])).
Proof.
  intros Hop. destruct r; simpl; unfold try_catch, request; rewrite Hop;
    reflexivity.
Qed.

Lemma retryWith_thrown_last (b : Z) (st : State W) e w' :
  op (world st) = (Thrown e, w') ->
  retryWith isRateLimit factor (request ev op) 0 b st
  = (Thrown e, mkState w' (trace st ++ [ev])).
Proof.
  intros Hop. simpl. unfold try_catch, request. rewrite Hop. reflexivity.
Qed.

Lemma retryWith_thrown_more (r : nat) (b : Z) (st : State W) e w' :
  op (world st) = (Thrown e, w') ->
  retryWith isRateLimit factor (request ev op) (S r) b st
  = retryWith isRateLimit factor (request ev op) r
      (waitFor isRateLimit factor e b * 2)
      (mkState w' (trace st ++ [ev; EvDelay (waitFor isRateLimit factor e b)])).
Proof.
  intros Hop. simpl. unfold try_catch at 1. unfold request at 1.
  rewrite Hop. unfold bind, delay. simpl.
  rewrite <- app_assoc. reflexivity.
Qed.

(** Whatever the operation does, a wrapped request only adds attempts
    and pauses to the trace, at most [r] pauses. *)
Lemma retryWith_trace (r : nat) : forall (b : Z) (st : State W),
  exists ws, (List.length ws <= r)%nat /\
    trace (snd (retryWith isRateLimit factor (request ev op) r b st))
    = trace st ++ attemptsTrace ev ws.
Proof.
  induction r as [|r IH]; intros b st.
  - exists []. split; [simpl; lia|].
    destruct (op (world st)) as [[v|e] w'] eqn:Hop.
    + rewrite (retryWith_returned _ _ _ _ _ Hop). reflexivity.
    + rewrite (retryWith_thrown_last _ _ _ _ Hop). reflexivity.
  - destruct (op (world st)) as [[v|e] w'] eqn:Hop.
    + exists []. split; [simpl; lia|].
      rewrite (retryWith_returned _ _ _ _ _ Hop). reflexivity.
    + rewrite (retryWith_thrown_more _ _ _ _ _ Hop).
      destruct (IH (waitFor isRateLimit factor e b * 2)
                   (mkState w' (trace st ++ [ev; EvDelay (waitFor isRateLimit factor e b)])))
        as [ws [Hlen Htr]].
      exists (waitFor isRateLimit factor e b :: ws). split; [simpl; lia|].
      rewrite Htr. simpl. rewrite <- app_assoc. reflexivity.
Qed.

(** [k] failures that are not rate limits, then a success, within the
    retries allowed. *)
Lemma retryWith_succeeds (k : nat) : forall (r : nat) (b : Z) (st : State W)
    es wk v w',
  (k <= r)%nat ->
  failures op k (world st) = Some (es, wk) ->
  Forall (fun e => isRateLimit e = false) es ->
  op wk = (Returned v, w') ->
  retryWith isRateLimit factor (request ev op) r b st
  = (Returned v, mkState w' (trace st ++ attemptsTrace ev (backoff b k))).
Proof.
  induction k as [|k IH]; intros r b st es wk v w' Hle Hf Hnr Hok.
  - simpl in Hf. injection Hf as <- <-.
    apply retryWith_returned. exact Hok.
  - destruct r as [|r]; [lia|].
    simpl in Hf.
    destruct (op (world st)) as [[v0|e] w1] eqn:Hop; [discriminate|].
    destruct (failures op k w1) as [[es' w2]|] eqn:Hf'; [|discriminate].
    injection Hf as <- <-.
    inversion Hnr as [|? ? He Hrest]; subst.
    rewrite (retryWith_thrown_more _ _ _ _ _ Hop).
    unfold waitFor. rewrite He.
    rewrite (IH r (b * 2) (mkState w1 (trace st ++ [ev; EvDelay b]))
                es' w2 v w'); [|lia|exact Hf'|exact Hrest|exact Hok].
    simpl. rewrite <- app_assoc. reflexivity.
Qed.

(** One failure more than the retries allowed: the last error is the
    one thrown. *)
Lemma retryWith_exhausted (r : nat) : forall (b : Z) (st : State W) es wk d,
  failures op (S r) (world st) = Some (es, wk) ->
  fst (retryWith isRateLimit factor (request ev op) r b st)
  = Thrown (last es d)
  /\ world (snd (retryWith isRateLimit factor (request ev op) r b st)) = wk.
Proof.
  induction r as [|r IH]; intros b st es wk d Hf.
  - simpl in Hf.
    destruct (op (world st)) as [[v0|e] w1] eqn:Hop; [discriminate|].
    injection Hf as <- <-.
    rewrite (retryWith_thrown_last _ _ _ _ Hop). split; reflexivity.
  - change (failures op (S (S r)) (world st)) with
      (match op (world st) with
       | (Thrown e, w') =>
           match failures op (S r) w' with
           | Some (es, w'') => Some (e :: es, w'')
           | None => None
           end
       | (Returned _, _) => None
       end) in Hf.
    destruct (op (world st)) as [[v0|e] w1] eqn:Hop; [discriminate|].
    destruct (failures op (S r) w1) as [[es' w2]|] eqn:Hf'; [|discriminate].
    injection Hf as <- <-.
    rewrite (retryWith_thrown_more _ _ _ _ _ Hop).
    destruct (IH (waitFor isRateLimit factor e b * 2)
                 (mkState w1 (trace st ++ [ev; EvDelay (waitFor isRateLimit factor e b)]))
                 es' w2 d Hf') as [H1 H2].
    split; [|exact H2].
    rewrite H1. f_equal.
    destruct es' as [|e' es'']; [|reflexivity].
    simpl in Hf'. destruct (op w1) as [[?|?] ?]; [discriminate|].
    destruct (failures op r w) as [[? ?]|]; discriminate.
Qed.

End RetryFacts.

(** Each wrapper is the shared scheme at its own classifier and factor. *)
Lemma Feedback_retry_scheme (S : Services) (T : Type) (fn : M (World S) T)
    (r : nat) : forall (b : Z) (st : State (World S)),
  Feedback.retry S fn r b st = retryWith messageSaysRateLimit 2 fn r b st.
Proof.
  induction r as [|r IH]; intros b st; simpl; unfold try_catch;
    destruct (fn st) as [[v|e] st']; try reflexivity.
  unfold bind, delay, waitFor, messageSaysRateLimit. simpl.
  apply IH.
Qed.

Lemma WebSearch_retry_scheme (S : Services) (T : Type) (fn : M (World S) T)
    (r : nat) : forall (b : Z) (st : State (World S)),
  WebSearch.retry S fn r b st = retryWith statusIs429 4 fn r b st.
Proof.
  induction r as [|r IH]; intros b st; simpl; unfold try_catch;
    destruct (fn st) as [[v|e] st']; try reflexivity.
  unfold bind, delay, waitFor, statusIs429. simpl.
  apply IH.
Qed.

Lemma ResearchEngine_retry_scheme (S : Services) (T : Type)
    (fn : M (World S) T) (r : nat) : forall (b : Z) (st : State (World S)),
  ResearchEngine.retry S fn r b st
  = retryWith messageSaysRateLimit 4 fn r b st.
Proof.
  induction r as [|r IH]; intros b st; simpl; unfold try_catch;
    destruct (fn st) as [[v|e] st']; try reflexivity.
  unfold bind, delay, waitFor, messageSaysRateLimit. simpl.
  apply IH.
Qed.

Lemma waits_app (l1 l2 : list Event) :
  waits (l1 ++ l2) = waits l1 ++ waits l2.
Proof.
  induction l1 as [|[ms|q l t|p] l1 IH]; simpl; rewrite ?IH; reflexivity.
Qed.

Lemma searches_app (l1 l2 : list Event) :
  searches (l1 ++ l2) = searches l1 ++ searches l2.
Proof.
  induction l1 as [|[ms|q l t|p] l1 IH]; simpl; rewrite ?IH; reflexivity.
Qed.

Lemma waits_attempts_search (q : string) (l t : Z) (ws : list Z) :
  waits (attemptsTrace (EvSearch q l t) ws) = ws.
Proof. induction ws as [|w ws IH]; simpl; rewrite ?IH; reflexivity. Qed.

Lemma waits_attempts_generate (p : string) (ws : list Z) :
  waits (attemptsTrace (EvGenerate p) ws) = ws.
Proof. induction ws as [|w ws IH]; simpl; rewrite ?IH; reflexivity. Qed.

Lemma backoff_from (k : nat) : forall (b : Z) (n : nat),
  backoff (b * 2 ^ Z.of_nat n) k
  = map (fun i => b * 2 ^ Z.of_nat i) (seq n k).
Proof.
  induction k as [|k IH]; intros b n; simpl; [reflexivity|].
  f_equal. rewrite <- IH. f_equal.
  rewrite Nat2Z.inj_succ, Z.pow_succ_r by lia. ring.
Qed.

Lemma backoff_geometric (b : Z) (k : nat) :
  backoff b k = map (fun i => b * 2 ^ Z.of_nat i) (seq 0 k).
Proof.
  rewrite <- backoff_from. simpl. f_equal. ring.
Qed.

Lemma total_backoff (k : nat) : forall b : Z,
  total (backoff b k) = b * (2 ^ Z.of_nat k - 1).
Proof.
  induction k as [|k IH]; intros b.
  - simpl. ring.
  - change (total (backoff b (S k))) with (b + total (backoff (b * 2) k)).
    rewrite IH, Nat2Z.inj_succ, Z.pow_succ_r by lia. ring.
Qed.

(** C4. In the retry wrapper of the search client, with [r] retries
    and base delay [b]: an operation that fails exactly [k < r + 1]
    times, none of the failures a rate limit, and then succeeds makes
    [retry] return the value of the success after the [k] waits
    [b, 2b, 4b, ...], which add up to [b * (2^k - 1)]; an operation that
    fails [r + 1] times makes [retry] throw the last of the errors. *)
Theorem c4_retry_backoff (S : Services) (T : Type) (query : string)
    (lim tmo : Z) (op : World S -> Outcome T * World S)
    (r : nat) (b : Z) (st : State (World S)) :
  let run := WebSearch.retry S (request (EvSearch query lim tmo) op) r b st in
  (forall (k : nat) es wk v w',
     (k < r + 1)%nat ->
     failures op k (world st) = Some (es, wk) ->
     Forall (fun e => statusIs429 e = false) es ->
     op wk = (Returned v, w') ->
     fst run = Returned v /\
     world (snd run) = w' /\
     waits (trace (snd run))
     = waits (trace st) ++ map (fun i => b * 2 ^ Z.of_nat i) (seq 0 k) /\
     total (map (fun i => b * 2 ^ Z.of_nat i) (seq 0 k))
     = b * (2 ^ Z.of_nat k - 1))
  /\
  (forall es wk d,
     failures op (r + 1) (world st) = Some (es, wk) ->
     fst run = Thrown (last es d) /\ world (snd run) = wk).
Proof.
  intros run. subst run. rewrite WebSearch_retry_scheme. split.
  - intros k es wk v w' Hk Hf Hnr Hok.
    rewrite (retryWith_succeeds statusIs429 4 _ op k r b st es wk v w');
      [|lia|exact Hf|exact Hnr|exact Hok].
    simpl. rewrite waits_app, waits_attempts_search.
    rewrite <- backoff_geometric.
    repeat split; try reflexivity. apply total_backoff.
  - intros es wk d Hf. rewrite Nat.add_1_r in Hf.
    apply retryWith_exhausted. exact Hf.
Qed.

(** Two time-outs and then an answer, with the default three retries
    and a base delay of two seconds. *)
Lemma c4_retry_backoff_witness :
  let run := WebSearch.retry Scenario.flakyServices
               (request (EvSearch "q" 4 30000) Scenario.flaky) 3 2000
               (mkState [Scenario.timedOut; Scenario.timedOut] []) in
  (fst run = Returned 42 /\
   world (snd run) = [] /\
   waits (trace (snd run)) = [] ++ [2000; 4000] /\
   total [2000; 4000] = 2000 * (2 ^ 2 - 1)).
Proof.
  apply (proj1 (c4_retry_backoff Scenario.flakyServices Z "q" 4 30000
                  Scenario.flaky 3 2000
                  (mkState [Scenario.timedOut; Scenario.timedOut] []))
               2%nat [Scenario.timedOut; Scenario.timedOut] [] 42 []).
  - lia.
  - reflexivity.
  - repeat constructor.
  - reflexivity.
Defined.

Lemma retryWith_first_wait {W T : Type} (isRateLimit : JsError -> bool)
    (factor : Z) (ev : Event) (op : W -> Outcome T * W) (r : nat) (b : Z)
    (st : State W) e w1 :
  op (world st) = (Thrown e, w1) ->
  exists rest,
    trace (snd (retryWith isRateLimit factor (request ev op) (S r) b st))
    = trace st ++ ev :: EvDelay (waitFor isRateLimit factor e b) :: rest.
Proof.
  intros Hop. rewrite (retryWith_thrown_more _ _ _ _ _ _ _ _ _ Hop).
  destruct (retryWith_trace isRateLimit factor ev op r
              (waitFor isRateLimit factor e b * 2)
              (mkState w1 (trace st ++ [ev; EvDelay (waitFor isRateLimit factor e b)])))
    as [ws [_ Htr]].
  exists (attemptsTrace ev ws). rewrite Htr. simpl.
  rewrite <- app_assoc. reflexivity.
Qed.

(** C3, as the code has it. Each wrapper classifies a failure in its
    own way and waits its own multiple of the base delay after a rate
    limit: the wrapper of the feedback module looks for 429 or quota in
    the message and waits twice the base delay; the wrapper of the
    search client looks at the status code alone and waits four times
    the base delay; the wrapper of the research engine looks at the
    message and waits four times the base delay.  After any other
    failure the first wait is the base delay. *)
Theorem c3_first_wait (S : Services) (T : Type) (ev : Event)
    (op : World S -> Outcome T * World S) (r : nat) (b : Z)
    (st : State (World S)) (e : JsError) (w1 : World S) :
  op (world st) = (Thrown e, w1) ->
  (exists rest,
     trace (snd (Feedback.retry S (request ev op) (Datatypes.S r) b st))
     = trace st ++ ev ::
         EvDelay (if messageSaysRateLimit e then b * 2 else b) :: rest)
  /\
  (exists rest,
     trace (snd (WebSearch.retry S (request ev op) (Datatypes.S r) b st))
     = trace st ++ ev ::
         EvDelay (if statusIs429 e then b * 4 else b) :: rest)
  /\
  (exists rest,
     trace (snd (ResearchEngine.retry S (request ev op) (Datatypes.S r) b st))
     = trace st ++ ev ::
         EvDelay (if messageSaysRateLimit e then b * 4 else b) :: rest).
Proof.
  intros Hop.
  rewrite Feedback_retry_scheme, WebSearch_retry_scheme,
    ResearchEngine_retry_scheme.
  repeat split.
  - apply (retryWith_first_wait messageSaysRateLimit 2 ev op r b st e w1 Hop).
  - apply (retryWith_first_wait statusIs429 4 ev op r b st e w1 Hop).
  - apply (retryWith_first_wait messageSaysRateLimit 4 ev op r b st e w1 Hop).
Qed.

(** A quota error, then an answer. *)
Lemma c3_first_wait_witness :
  (exists rest,
     trace (snd (Feedback.retry Scenario.flakyServices
                   (request (EvGenerate "p") Scenario.flaky) 3 1000
                   (mkState [Scenario.quotaExceeded] [])))
     = [] ++ EvGenerate "p" :: EvDelay 2000 :: rest)
  /\
  (exists rest,
     trace (snd (WebSearch.retry Scenario.flakyServices
                   (request (EvGenerate "p") Scenario.flaky) 3 1000
                   (mkState [Scenario.quotaExceeded] [])))
     = [] ++ EvGenerate "p" :: EvDelay 1000 :: rest)
  /\
  (exists rest,
     trace (snd (ResearchEngine.retry Scenario.flakyServices
                   (request (EvGenerate "p") Scenario.flaky) 3 1000
                   (mkState [Scenario.quotaExceeded] [])))
     = [] ++ EvGenerate "p" :: EvDelay 4000 :: rest).
Proof.
  apply (c3_first_wait Scenario.flakyServices Z (EvGenerate "p")
           Scenario.flaky 2 1000 (mkState [Scenario.quotaExceeded] [])
           Scenario.quotaExceeded []).
  reflexivity.
Defined.

(** C3 as stated fails in each wrapper.  The three errors below are rate
    limits by the stated classification.  After a quota message the
    feedback wrapper waits twice its base delay, not four times; the
    search wrapper, which does not read the message, waits its base
    delay; after a status 429 whose message does not say so, the
    wrapper of the research engine, which does not read the status,
    waits its base delay. *)
Lemma c3_counterexample :
  specRateLimited Scenario.quotaExceeded = true /\
  specRateLimited Scenario.rateLimited429 = true /\
  waits (trace (snd (Feedback.retry Scenario.flakyServices
                       (request (EvGenerate "p") Scenario.flaky) 3 1000
                       (mkState [Scenario.quotaExceeded] []))))
  = [2000] /\
  waits (trace (snd (WebSearch.retry Scenario.flakyServices
                       (request (EvSearch "q" 4 30000) Scenario.flaky) 3 2000
                       (mkState [Scenario.quotaExceeded] []))))
  = [2000] /\
  waits (trace (snd (ResearchEngine.retry Scenario.flakyServices
                       (request (EvGenerate "p") Scenario.flaky) 3 2000
                       (mkState [Scenario.rateLimited429] []))))
  = [2000] /\
  2000 <> 4 * 1000 /\ 2000 <> 4 * 2000.
Proof. repeat split; try reflexivity; discriminate. Qed.

(** ** The search client *)

Lemma searches_attempts (q : string) (l t : Z) (ws : list Z) :
  searches (attemptsTrace (EvSearch q l t) ws)
  = repeat (q, l, t) (S (List.length ws)).
Proof.
  induction ws as [|w ws IH]; [reflexivity|].
  simpl attemptsTrace. simpl searches. rewrite IH. reflexivity.
Qed.

Lemma mapItems_cut (S : Services) (cut : string -> string)
    (items : list SearchItem) :
  (forall c, trimPrompt S c 15000 = Returned (cut c)) ->
  exists l, WebSearch.mapItems S items = Returned l /\
            WebSearch.compact l = keptContents cut items.
Proof.
  intros Hcut. induction items as [|[[c|]] items [l [Hl Hc]]].
  - exists []. split; reflexivity.
  - destruct c as [|a c].
    + exists (None :: l). simpl. rewrite Hl. split; [reflexivity|exact Hc].
    + exists (Some (cut (String a c)) :: l). simpl. rewrite Hcut, Hl.
      split; [reflexivity|].
      unfold keptContents. simpl.
      fold (keptContents cut items). rewrite <- Hc.
      destruct (cut (String a c)); reflexivity.
  - exists (None :: l). simpl. rewrite Hl. split; [reflexivity|exact Hc].
Qed.

(** C5. [searchWeb] never throws.  When the wrapped search call fails
    for good, the error is caught and the empty list is returned.  Every
    request it sends asks for [min (depth * 2, 5)] results, and when the
    call succeeds the list returned holds the trimmed contents of the
    items that have one: the items without content are dropped. *)
Theorem c5_searchWeb (svc : Services) (query : string) (depth : Z)
    (st : State (World svc)) :
  let attempt :=
    WebSearch.retry svc (WebSearch.searchRequest svc query depth) 3 2000 st in
  exists contents st',
    WebSearch.searchWeb svc query depth st = (Returned contents, st') /\
    (forall e, fst attempt = Thrown e -> contents = []) /\
    (exists n, (1 <= n <= 4)%nat /\
       searches (trace st')
       = searches (trace st)
         ++ repeat (query, Z.min (depth * 2) 5, 30000) n) /\
    (forall result items cut,
       fst attempt = Returned result ->
       data result = Some items ->
       (forall c, trimPrompt svc c 15000 = Returned (cut c)) ->
       contents = keptContents cut items).
Proof.
  intros attempt.
  assert (Htr : exists ws, (List.length ws <= 3)%nat /\
            trace (snd attempt)
            = trace st ++ attemptsTrace
                (EvSearch query (Z.min (depth * 2) 5) 30000) ws).
  { subst attempt. unfold WebSearch.searchRequest.
    rewrite WebSearch_retry_scheme. apply retryWith_trace. }
  destruct Htr as [ws [Hlen Htr]].
  assert (Hs : forall tr, searches tr = searches (trace (snd attempt)) ->
            exists n, (1 <= n <= 4)%nat /\
              searches tr = searches (trace st)
                ++ repeat (query, Z.min (depth * 2) 5, 30000) n).
  { intros tr ->. exists (S (List.length ws)). split; [lia|].
    rewrite Htr, searches_app, searches_attempts. reflexivity. }
  unfold WebSearch.searchWeb, try_catch, bind, limit,
    WebSearch.default_retries, WebSearch.default_baseDelay.
  fold attempt. destruct attempt as [[result|e] st1] eqn:Hat; simpl in *.
  - unfold lift.
    destruct (WebSearch.extractContents svc result) as [l|e'] eqn:Hex.
    + exists l. eexists. split; [reflexivity|]. simpl.
      split; [discriminate|]. split.
      * apply Hs. rewrite searches_app. simpl. apply app_nil_r.
      * intros result' items cut Hres Hdata Hcut.
        injection Hres as <-.
        unfold WebSearch.extractContents in Hex. rewrite Hdata in Hex.
        destruct (mapItems_cut svc cut items Hcut) as [l' [Hl' Hc']].
        rewrite Hl' in Hex. injection Hex as <-. exact Hc'.
    + exists []. eexists. split; [reflexivity|].
      split; [reflexivity|]. split; [apply Hs; reflexivity|].
      intros result' items cut Hres Hdata Hcut.
      injection Hres as <-.
      unfold WebSearch.extractContents in Hex. rewrite Hdata in Hex.
      destruct (mapItems_cut svc cut items Hcut) as [l' [Hl' Hc']].
      rewrite Hl' in Hex. discriminate.
  - exists []. eexists. split; [reflexivity|].
    split; [reflexivity|]. split; [apply Hs; reflexivity|].
    discriminate.
Qed.

(** One search that succeeds after a time-out, and one that fails for
    good. *)
Lemma c5_searchWeb_witness :
  (exists contents,
     fst (WebSearch.searchWeb Scenario.scripted "cats" 2
            (Scenario.start []
               [Thrown Scenario.timedOut;
                Returned {| data := Some [ {| markdown := Some "abc" |};
                                           {| markdown := None |};
                                           {| markdown := Some "" |} ] |}]))
     = Returned contents /\ contents = ["abc"])
  /\
  (exists contents,
     fst (WebSearch.searchWeb Scenario.scripted "cats" 2
            (Scenario.start [] []))
     = Returned contents /\ contents = []).
Proof.
  split.
  - destruct (c5_searchWeb Scenario.scripted "cats" 2
                (Scenario.start []
                   [Thrown Scenario.timedOut;
                    Returned {| data := Some [ {| markdown := Some "abc" |};
                                               {| markdown := None |};
                                               {| markdown := Some "" |} ] |}]))
      as [contents [st' [Hrun [_ [_ Hkept]]]]].
    exists contents. split; [rewrite Hrun; reflexivity|].
    apply (Hkept {| data := Some [ {| markdown := Some "abc" |};
                                   {| markdown := None |};
                                   {| markdown := Some "" |} ] |}
                 [ {| markdown := Some "abc" |};
                   {| markdown := None |};
                   {| markdown := Some "" |} ]
                 (fun c => js_substring c 0 15000)).
    + reflexivity.
    + reflexivity.
    + intros c. reflexivity.
  - destruct (c5_searchWeb Scenario.scripted "cats" 2 (Scenario.start [] []))
      as [contents [st' [Hrun [Hfail _]]]].
    exists contents. split; [rewrite Hrun; reflexivity|].
    apply (Hfail (Error "no answer")). reflexivity.
Defined.

(** ** The orchestrator *)


(** ** The feedback generator *)

Lemma retryWith_returned_from_op {W T : Type} (isRateLimit : JsError -> bool)
    (factor : Z) (ev : Event) (op : W -> Outcome T * W) (r : nat) :
  forall (b : Z) (st : State W) v,
  fst (retryWith isRateLimit factor (request ev op) r b st) = Returned v ->
  exists w w', op w = (Returned v, w').
Proof.
  induction r as [|r IH]; intros b st v Hrun;
    destruct (op (world st)) as [[v0|e] w'] eqn:Hop.
  - rewrite (retryWith_returned _ _ _ _ _ _ _ _ _ Hop) in Hrun.
    injection Hrun as <-. eauto.
  - rewrite (retryWith_thrown_last _ _ _ _ _ _ _ _ Hop) in Hrun.
    discriminate.
  - rewrite (retryWith_returned _ _ _ _ _ _ _ _ _ Hop) in Hrun.
    injection Hrun as <-. eauto.
  - rewrite (retryWith_thrown_more _ _ _ _ _ _ _ _ _ Hop) in Hrun.
    eapply IH. exact Hrun.
Qed.

Lemma searches_attempts_generate (p : string) (ws : list Z) :
  searches (attemptsTrace (EvGenerate p) ws) = [].
Proof. induction ws as [|w ws IH]; simpl; rewrite ?IH; reflexivity. Qed.

(** A call of the model sends no search, and the text it returns is
    one the model gave. *)
Lemma generateText_facts (svc : Services) (p : string)
    (st : State (World svc)) :
  searches (trace (snd (Feedback.generateText svc p st)))
  = searches (trace st) /\
  forall text, fst (Feedback.generateText svc p st) = Returned text ->
    exists w r w', model_generateContent svc p w = (Returned r, w') /\
                   response_text r = Returned text.
Proof.
  unfold Feedback.generateText, bind, limit, lift.
  rewrite Feedback_retry_scheme.
  destruct (retryWith_trace messageSaysRateLimit 2 (EvGenerate p)
              (model_generateContent svc p) Feedback.default_retries
              Feedback.default_baseDelay st) as [ws [_ Htr]].
  pose proof (retryWith_returned_from_op messageSaysRateLimit 2
                (EvGenerate p) (model_generateContent svc p)
                Feedback.default_retries Feedback.default_baseDelay st)
    as Hfrom.
  destruct (retryWith messageSaysRateLimit 2 _ _ _ st) as [[r|e] st1];
    simpl in *.
  - split.
    + rewrite Htr, searches_app, searches_attempts_generate.
      apply app_nil_r.
    + intros text Htext.
      destruct (Hfrom r eq_refl) as [w [w' Hop]].
      exists w, r, w'. split; [exact Hop|exact Htext].
  - split.
    + rewrite Htr, searches_app, searches_attempts_generate.
      apply app_nil_r.
    + discriminate.
Qed.

Lemma slice0_length {A : Type} (l : list A) (n : Z) :
  0 <= n ->
  Z.of_nat (List.length (slice0 l n)) = Z.min n (Z.of_nat (List.length l)).
Proof.
  intros Hn. unfold slice0.
  destruct (n <? 0) eqn:Hneg; [apply Z.ltb_lt in Hneg; lia|].
  rewrite length_firstn. lia.
Qed.

Lemma slice0_Forall {A : Type} (P : A -> Prop) (l : list A) (n : Z) :
  Forall P l -> Forall P (slice0 l n).
Proof.
  intros H. unfold slice0.
  set (k := Z.to_nat _). rewrite <- (firstn_skipn k l) in H.
  apply Forall_app in H. exact (proj1 H).
Qed.

(** The messages of the two errors an attempt raises by itself do not
    change what it returns. *)
Lemma questionsOf_messages (a b a' b' text : string) (n : Z) :
  match Feedback.questionsOf a b text n with
  | Returned l => Feedback.questionsOf a' b' text n = Returned l
  | Thrown _ => exists e, Feedback.questionsOf a' b' text n = Thrown e
  end.
Proof.
  unfold Feedback.questionsOf.
  destruct (Feedback.extractJSON text) as [[|c s]|]; eauto.
  destruct (JSON_parse (String c s)) as [parsed|]; eauto.
  destruct (Feedback.validQuestions parsed n) as [[|q qs]|e]; eauto.
Qed.

(** The questions an attempt returns: at least one, and no more than
    asked for. *)
Lemma questionsOf_returned (a b text : string) (n : Z) (l : list string) :
  0 <= n ->
  Feedback.questionsOf a b text n = Returned l ->
  (1 <= Z.of_nat (List.length l) <= n).
Proof.
  intros Hn. unfold Feedback.questionsOf.
  destruct (Feedback.extractJSON text) as [[|c s]|]; try discriminate.
  destruct (JSON_parse (String c s)) as [parsed|]; try discriminate.
  unfold Feedback.validQuestions.
  destruct parsed as [| | | | |members]; try discriminate.
  destruct (get_member "questions" members) as [[| | | |questions|]|];
    try discriminate.
  pose proof (slice0_length
                (map Feedback.trimmed
                     (filter Feedback.isValidQuestion questions)) n Hn) as Hlen.
  destruct (slice0 _ n) as [|q qs]; [discriminate|].
  intros H. injection H as <-.
  simpl List.length in *. lia.
Qed.

(** [generateFeedback] always returns, sends no search, and returns
    either the default questions cut to the count asked for or the
    questions read from an answer of the model. *)
Lemma generateFeedback_cases (svc : Services) (args : Feedback.FeedbackArgs)
    (st : State (World svc)) :
  exists qs st',
    Feedback.generateFeedback svc args st = (Returned qs, st') /\
    searches (trace st') = searches (trace st) /\
    (qs = slice0 (Feedback.defaultQuestions (Feedback.query args))
                 (asked args)
     \/
     exists p w r w' text,
       model_generateContent svc p w = (Returned r, w') /\
       response_text r = Returned text /\
       Feedback.firstAttempt text (asked args) = Returned qs).
Proof.
  unfold Feedback.generateFeedback. fold (asked args).
  set (n := asked args). set (q := Feedback.query args).
  unfold try_catch at 1. unfold bind at 1.
  destruct (generateText_facts svc (Feedback.prompt q n) st) as [Hs1 Hfrom1].
  destruct (Feedback.generateText svc (Feedback.prompt q n) st)
    as [[text|e] st1]; simpl in Hs1, Hfrom1.
  - unfold try_catch, lift.
    destruct (Feedback.firstAttempt text n) as [l|e] eqn:Hfirst.
    + exists l, st1. split; [reflexivity|]. split; [exact Hs1|].
      right. destruct (Hfrom1 text eq_refl) as [w [r [w' [Hop Htext]]]].
      exists (Feedback.prompt q n), w, r, w', text. auto.
    + unfold bind.
      destruct (generateText_facts svc (Feedback.retryPrompt q n) st1)
        as [Hs2 Hfrom2].
      destruct (Feedback.generateText svc (Feedback.retryPrompt q n) st1)
        as [[retryText|e2] st2]; simpl in Hs2, Hfrom2.
      * destruct (Feedback.secondAttempt retryText n) as [l|e3] eqn:Hsecond.
        -- exists l, st2. split; [reflexivity|].
           split; [rewrite Hs2; exact Hs1|]. right.
           destruct (Hfrom2 retryText eq_refl) as [w [r [w' [Hop Htext]]]].
           exists (Feedback.retryPrompt q n), w, r, w', retryText.
           split; [exact Hop|]. split; [exact Htext|].
           unfold Feedback.secondAttempt in Hsecond.
           pose proof (questionsOf_messages
                         "Failed to get JSON response after retry"
                         "No valid questions found in retry response"
                         "No JSON found in response"
                         "No valid questions found in response"
                         retryText n) as Hm.
           rewrite Hsecond in Hm. exact Hm.
        -- eexists. exists st2. split; [reflexivity|].
           split; [rewrite Hs2; exact Hs1|]. left. reflexivity.
      * eexists. exists st2. split; [reflexivity|].
        split; [rewrite Hs2; exact Hs1|]. left. reflexivity.
  - eexists. exists st1. split; [reflexivity|].
    split; [exact Hs1|]. left. reflexivity.
Qed.

Lemma includes_app_r (needle a b : string) :
  includes needle b = true -> includes needle (a ++ b)%string = true.
Proof.
  intros H. induction a as [|c a IH]; [exact H|].
  simpl. rewrite IH. apply orb_true_r.
Qed.

Lemma defaultQuestions_wellformed (query : string) :
  Forall (fun q => q <> EmptyString /\ includes "?" q = true)
         (Feedback.defaultQuestions query).
Proof.
  unfold Feedback.defaultQuestions. repeat constructor; try discriminate.
  apply includes_app_r. apply includes_app_r. reflexivity.
Qed.

(** C6, as the code has it. When no answer of the model gives
    questions, [generateFeedback] returns the default questions cut to
    the count asked for: for a count [n >= 0] (3 when it is left out),
    exactly [min (n, 3)] strings, none empty and each holding a question
    mark.  So it returns exactly [n] strings when [n] is at most 3. *)
Theorem c6_fallback_questions (svc : Services) (args : Feedback.FeedbackArgs)
    (st : State (World svc)) :
  0 <= asked args ->
  (forall p w r w' text,
     model_generateContent svc p w = (Returned r, w') ->
     response_text r = Returned text ->
     yieldsQuestions text (asked args) = false) ->
  exists qs st',
    Feedback.generateFeedback svc args st = (Returned qs, st') /\
    Z.of_nat (List.length qs) = Z.min (asked args) 3 /\
    Forall (fun q => q <> EmptyString /\ includes "?" q = true) qs.
Proof.
  intros Hn Hnever.
  destruct (generateFeedback_cases svc args st)
    as [qs [st' [Hrun [_ [Hdef|Hmodel]]]]].
  - exists qs, st'. split; [exact Hrun|]. subst qs. split.
    + rewrite slice0_length by exact Hn. reflexivity.
    + apply slice0_Forall. apply defaultQuestions_wellformed.
  - destruct Hmodel as [p [w [r [w' [text [Hop [Htext Hfirst]]]]]]].
    pose proof (Hnever p w r w' text Hop Htext) as Hno.
    unfold yieldsQuestions in Hno. rewrite Hfirst in Hno. discriminate.
Qed.

(** A model that only chats, asked for two questions. *)
Lemma c6_fallback_questions_witness :
  exists qs st',
    Feedback.generateFeedback Scenario.chatty
      {| Feedback.query := "tides"; Feedback.numQuestions := Some 2 |}
      (mkState tt [])
    = (Returned qs, st') /\
    Z.of_nat (List.length qs) = Z.min 2 3 /\
    Forall (fun q => q <> EmptyString /\ includes "?" q = true) qs.
Proof.
  apply (c6_fallback_questions Scenario.chatty
           {| Feedback.query := "tides"; Feedback.numQuestions := Some 2 |}
           (mkState tt [])).
  - unfold asked. simpl. lia.
  - intros p w r w' text Hop Htext. simpl in Hop.
    injection Hop as <- _. simpl in Htext. injection Htext as <-.
    reflexivity.
Defined.

(** C6 as stated fails for a count above three: asked for five
    questions, a model that never gives JSON gets three strings back. *)
Lemma c6_counterexample :
  yieldsQuestions "I cannot help with that." 5 = false /\
  exists qs,
    fst (Feedback.generateFeedback Scenario.chatty
           {| Feedback.query := "tides"; Feedback.numQuestions := Some 5 |}
           (mkState tt []))
    = Returned qs /\
    List.length qs = 3%nat /\ Z.of_nat (List.length qs) <> 5.
Proof.
  split; [reflexivity|].
  eexists. split; [reflexivity|]. split; [reflexivity|].
  intros H. vm_compute in H. discriminate.
Qed.

(** C7, as the code has it. With breadth 1 and depth 1, whatever the
    other steps are, [deepResearch] returns exactly the questions that
    [generateFeedback] returns for the query when asked for three,
    together with an empty report and no search queries, and it sends
    no search.  These questions are at least one and at most three:
    they are either the three default questions, on the fallback path,
    or the valid questions read from an answer of the model, cut to
    three, which may be fewer than three.  When no answer of the model
    gives questions they are exactly the three default questions. *)
Theorem c7_sentinel_mode (svc : Services)
    (generateSerpQueries searchWeb : string -> Z -> M (World svc) (list string))
    (processContents :
       string -> list string -> M (World svc) ResearchEngine.Analysis)
    (query : string) (st : State (World svc)) :
  exists qs st',
    Feedback.generateFeedback svc
      {| Feedback.query := query; Feedback.numQuestions := Some 3 |} st
    = (Returned qs, st') /\
    ResearchEngine.deepResearch svc (Feedback.generateFeedback svc)
      generateSerpQueries searchWeb processContents query 1 1 st
    = (Returned
         {| ResearchEngine.query := query;
            ResearchEngine.feedbackQuestions := Some qs;
            ResearchEngine.error := None;
            ResearchEngine.searchQueries := [];
            ResearchEngine.report :=
              {| ResearchEngine.executiveSummary := EmptyString;
                 ResearchEngine.report_keyFindings := [];
                 ResearchEngine.report_sources := [] |} |}, st') /\
    (1 <= List.length qs <= 3)%nat /\
    ((qs = Feedback.defaultQuestions query /\ List.length qs = 3%nat)
     \/
     exists p w r w' text,
       model_generateContent svc p w = (Returned r, w') /\
       response_text r = Returned text /\
       Feedback.firstAttempt text 3 = Returned qs) /\
    ((forall p w r w' text,
        model_generateContent svc p w = (Returned r, w') ->
        response_text r = Returned text ->
        yieldsQuestions text 3 = false) ->
     qs = Feedback.defaultQuestions query /\ List.length qs = 3%nat) /\
    searches (trace st') = searches (trace st).
Proof.
  destruct (generateFeedback_cases svc
              {| Feedback.query := query; Feedback.numQuestions := Some 3 |} st)
    as [qs [st' [Hrun [Hs Hcases]]]].
  exists qs, st'. split; [exact Hrun|].
  unfold ResearchEngine.deepResearch, try_catch,
    ResearchEngine.deepResearch_try.
  change ((1 =? 1) && (1 =? 1)) with true. cbv iota.
  unfold bind. rewrite Hrun. unfold ret.
  split; [reflexivity|].
  assert (Hpaths :
    (qs = Feedback.defaultQuestions query /\ List.length qs = 3%nat)
    \/
    exists p w r w' text,
      model_generateContent svc p w = (Returned r, w') /\
      response_text r = Returned text /\
      Feedback.firstAttempt text 3 = Returned qs).
  { destruct Hcases as [Hdef|Hmodel].
    - left. subst qs. split; reflexivity.
    - right. exact Hmodel. }
  split; [|split; [exact Hpaths|split; [|exact Hs]]].
  - destruct Hpaths as [[_ Hlen]|[p [w [r [w' [text [_ [_ Hfirst]]]]]]]].
    + lia.
    + unfold Feedback.firstAttempt in Hfirst.
      apply questionsOf_returned in Hfirst; lia.
  - intros Hnever.
    destruct Hpaths as [Hdef|[p [w [r [w' [text [Hop [Htext Hfirst]]]]]]]].
    + exact Hdef.
    + pose proof (Hnever p w r w' text Hop Htext) as Hno.
      unfold yieldsQuestions in Hno. rewrite Hfirst in Hno. discriminate.
Qed.

(** A model that only chats: the three default questions come back. *)
Lemma c7_sentinel_mode_witness :
  exists qs st',
    ResearchEngine.deepResearch Scenario.chatty
      (Feedback.generateFeedback Scenario.chatty)
      (fun _ _ => ret []) (WebSearch.searchWeb Scenario.chatty)
      (fun _ contents => ret (ResearchSteps.processContents_fallback contents))
      "tides" 1 1 (mkState tt [])
    = (Returned
         {| ResearchEngine.query := "tides";
            ResearchEngine.feedbackQuestions := Some qs;
            ResearchEngine.error := None;
            ResearchEngine.searchQueries := [];
            ResearchEngine.report :=
              {| ResearchEngine.executiveSummary := EmptyString;
                 ResearchEngine.report_keyFindings := [];
                 ResearchEngine.report_sources := [] |} |}, st') /\
    qs = Feedback.defaultQuestions "tides" /\
    List.length qs = 3%nat /\
    searches (trace st') = [].
Proof.
  destruct (c7_sentinel_mode Scenario.chatty
              (fun _ _ => ret []) (WebSearch.searchWeb Scenario.chatty)
              (fun _ contents =>
                 ret (ResearchSteps.processContents_fallback contents))
              "tides" (mkState tt []))
    as [qs [st' [_ [Hrun [_ [_ [Hfallback Hs]]]]]]].
  exists qs, st'. split; [exact Hrun|].
  assert (Hdef : qs = Feedback.defaultQuestions "tides"
                 /\ List.length qs = 3%nat).
  { apply Hfallback. intros p w r w' text Hop Htext. simpl in Hop.
    injection Hop as <- _. simpl in Htext. injection Htext as <-.
    reflexivity. }
  split; [exact (proj1 Hdef)|]. split; [exact (proj2 Hdef)|exact Hs].
Defined.

(** C7 as stated fails when the model gives fewer than three valid
    questions: one question comes back, not three. *)
Lemma c7_counterexample :
  fst (ResearchEngine.deepResearch Scenario.scripted
         (Feedback.generateFeedback Scenario.scripted)
         Scenario.noQueries (WebSearch.searchWeb Scenario.scripted)
         Scenario.noAnalysis "quantum computing" 1 1
         (Scenario.start [Returned Scenario.oneQuestion] []))
  = Returned
      {| ResearchEngine.query := "quantum computing";
         ResearchEngine.feedbackQuestions := Some ["Which decade?"];
         ResearchEngine.error := None;
         ResearchEngine.searchQueries := [];
         ResearchEngine.report :=
           {| ResearchEngine.executiveSummary := EmptyString;
              ResearchEngine.report_keyFindings := [];
              ResearchEngine.report_sources := [] |} |}
  /\ List.length ["Which decade?"] <> 3%nat.
Proof. split; [reflexivity|discriminate]. Qed.

(** ** The merge step of the analysis *)

Section FirstByKey.
Context {A : Type}.
Variable key : A -> string.

Lemma existsb_eqb_In (k : string) (seen : list string) :
  existsb (String.eqb k) seen = true <-> In k seen.
Proof.
  rewrite existsb_exists. split.
  - intros [y [Hin Heq]]. apply String.eqb_eq in Heq. subst. exact Hin.
  - intros Hin. exists k. split; [exact Hin|apply String.eqb_refl].
Qed.

Lemma firstByKey_keys (l : list A) : forall (seen : list string) (k : string),
  In k (map key (firstByKey key seen l))
  <-> ~ In k seen /\ In k (map key l).
Proof.
  induction l as [|x rest IH]; intros seen k; simpl.
  - tauto.
  - destruct (existsb (String.eqb (key x)) seen) eqn:Hseen.
    + apply existsb_eqb_In in Hseen. rewrite IH. split.
      * intros [Hn Hin]. auto.
      * intros [Hn [Hx|Hin]]; [subst; contradiction|auto].
    + assert (Hnot : ~ In (key x) seen).
      { intros Hin. apply existsb_eqb_In in Hin. congruence. }
      simpl. rewrite IH. rewrite in_app_iff. simpl. split.
      * intros [Hx|[Hn Hin]]; [subst; auto|]. split; [tauto|auto].
      * intros [Hn [Hx|Hin]]; [auto|].
        destruct (String.eqb_spec (key x) k) as [Heq|Hne]; [auto|].
        right. split; [|exact Hin]. intros [H|[H|[]]]; auto.
Qed.

Lemma firstByKey_NoDup (l : list A) : forall seen : list string,
  NoDup (map key (firstByKey key seen l)).
Proof.
  induction l as [|x rest IH]; intros seen; simpl.
  - constructor.
  - destruct (existsb (String.eqb (key x)) seen); [apply IH|].
    simpl. constructor; [|apply IH].
    rewrite firstByKey_keys. intros [Hn _]. apply Hn.
    apply in_or_app. right. left. reflexivity.
Qed.

(** An element is kept exactly when it is the first of the list with
    its key, and that key was not seen before. *)
Lemma firstByKey_first (l : list A) : forall (seen : list string) (f : A),
  In f (firstByKey key seen l)
  <-> ~ In (key f) seen /\
      find (fun g => String.eqb (key g) (key f)) l = Some f.
Proof.
  induction l as [|x rest IH]; intros seen f; simpl.
  - split; [tauto|]. intros [_ H]. discriminate.
  - destruct (existsb (String.eqb (key x)) seen) eqn:Hseen.
    + apply existsb_eqb_In in Hseen. rewrite IH.
      destruct (String.eqb_spec (key x) (key f)) as [Heq|Hne].
      * rewrite <- Heq. split; intros [Hn _]; contradiction.
      * tauto.
    + assert (Hnot : ~ In (key x) seen).
      { intros Hin. apply existsb_eqb_In in Hin. congruence. }
      simpl. rewrite IH. rewrite in_app_iff. simpl.
      destruct (String.eqb_spec (key x) (key f)) as [Heq|Hne].
      * split.
        -- intros [Hx|[Hn _]]; [subst; auto|]. exfalso. apply Hn. auto.
        -- intros [_ Hx]. injection Hx as ->. auto.
      * split.
        -- intros [Hx|[Hn Hfind]]; [subst; contradiction|].
           split; [tauto|exact Hfind].
        -- intros [Hn Hfind]. right. split; [|exact Hfind].
           intros [H|[H|[]]]; auto.
Qed.

(** Only the membership in [seen] matters. *)
Lemma firstByKey_ext (l : list A) : forall seen seen' : list string,
  (forall k, In k seen <-> In k seen') ->
  firstByKey key seen l = firstByKey key seen' l.
Proof.
  induction l as [|x rest IH]; intros seen seen' Hsame; simpl;
    [reflexivity|].
  assert (Hb : existsb (String.eqb (key x)) seen
               = existsb (String.eqb (key x)) seen').
  { destruct (existsb (String.eqb (key x)) seen) eqn:H1;
      destruct (existsb (String.eqb (key x)) seen') eqn:H2;
      try reflexivity.
    - apply existsb_eqb_In in H1. apply Hsame in H1.
      apply existsb_eqb_In in H1. congruence.
    - apply existsb_eqb_In in H2. apply Hsame in H2.
      apply existsb_eqb_In in H2. congruence. }
  rewrite Hb. destruct (existsb (String.eqb (key x)) seen').
  - apply IH. exact Hsame.
  - f_equal. apply IH. intros k. rewrite !in_app_iff, Hsame. tauto.
Qed.

End FirstByKey.

Lemma findIndex_from_skip {A : Type} (p : A -> bool) (pre rest : list A) :
  forall i : Z,
  existsb p pre = false ->
  findIndex_from p (pre ++ rest) i
  = findIndex_from p rest (i + Z.of_nat (List.length pre)).
Proof.
  induction pre as [|x pre IH]; intros i Hnone; simpl.
  - f_equal. lia.
  - simpl in Hnone. apply orb_false_iff in Hnone. destruct Hnone as [Hx Hpre].
    rewrite Hx, (IH _ Hpre). f_equal. lia.
Qed.

Lemma findIndex_from_hit {A : Type} (p : A -> bool) (pre rest : list A) :
  forall i : Z,
  existsb p pre = true ->
  i <= findIndex_from p (pre ++ rest) i < i + Z.of_nat (List.length pre).
Proof.
  induction pre as [|x pre IH]; intros i Hsome; simpl in *.
  - discriminate.
  - destruct (p x); [lia|]. simpl in Hsome.
    pose proof (IH (i + 1) Hsome). lia.
Qed.

(** The filter of the merge keeps the first finding of each title. *)
Lemma filter_first_titles (l : list ResearchEngine.Finding) :
  forall pre : list ResearchEngine.Finding,
  filter_indexed_from ResearchEngine.firstWithTitle (pre ++ l) l
    (Z.of_nat (List.length pre))
  = firstByKey ResearchEngine.title (map ResearchEngine.title pre) l.
Proof.
  induction l as [|x rest IH]; intros pre; [reflexivity|].
  assert (Hnext :
    filter_indexed_from ResearchEngine.firstWithTitle (pre ++ x :: rest) rest
      (Z.of_nat (List.length pre) + 1)
    = firstByKey ResearchEngine.title
        (map ResearchEngine.title pre ++ [ResearchEngine.title x]) rest).
  { specialize (IH (pre ++ [x])).
    rewrite <- app_assoc, length_app, map_app in IH. simpl in IH.
    rewrite <- IH. f_equal. lia. }
  assert (Hseen :
    existsb (String.eqb (ResearchEngine.title x)) (map ResearchEngine.title pre)
    = existsb (fun g => String.eqb (ResearchEngine.title g)
                                   (ResearchEngine.title x)) pre).
  { clear. induction pre as [|y pre IH]; simpl; [reflexivity|].
    rewrite IH, (String.eqb_sym (ResearchEngine.title x)). reflexivity. }
  simpl. rewrite Hnext, Hseen. unfold ResearchEngine.firstWithTitle at 1.
  unfold findIndex.
  destruct (existsb _ pre) eqn:Hpre.
  - pose proof (findIndex_from_hit _ pre (x :: rest) 0 Hpre) as Hrange.
    destruct (Z.eqb_spec
                (findIndex_from
                   (fun g => String.eqb (ResearchEngine.title g)
                                        (ResearchEngine.title x))
                   (pre ++ x :: rest) 0)
                (Z.of_nat (List.length pre))); [lia|].
    apply firstByKey_ext. intros k. rewrite in_app_iff. simpl.
    split; [|tauto]. intros [Hk|[<-|[]]]; [exact Hk|].
    apply existsb_eqb_In. exact Hseen.
  - rewrite (findIndex_from_skip _ pre (x :: rest) 0 Hpre). simpl.
    rewrite String.eqb_refl, Z.eqb_refl. reflexivity.
Qed.

Lemma spread_set_from (l : list string) : forall acc : list string,
  fold_left set_add l acc = acc ++ firstByKey (fun s => s) acc l.
Proof.
  induction l as [|x rest IH]; intros acc; simpl.
  - symmetry. apply app_nil_r.
  - unfold set_add at 2.
    destruct (existsb (String.eqb x) acc); rewrite IH; [reflexivity|].
    rewrite <- app_assoc. reflexivity.
Qed.

(** C9. The merge step returns key findings whose titles are pairwise
    distinct: a finding is kept exactly when it is the first of the
    flattened findings with its title, and the kept findings stay in
    their order.  It returns sources without duplicates: every source
    of the chunks once, at the place of its first occurrence. *)
Theorem c9_merge_dedup (chunkResults : list ResearchEngine.Analysis) :
  let findings := flat_map ResearchEngine.keyFindings chunkResults in
  let srcs := flat_map ResearchEngine.sources chunkResults in
  let merged := ResearchEngine.processContents_merge chunkResults in
  NoDup (map ResearchEngine.title (ResearchEngine.keyFindings merged)) /\
  (forall f, In f (ResearchEngine.keyFindings merged)
             <-> find (hasTitleOf f) findings = Some f) /\
  ResearchEngine.keyFindings merged
  = firstByKey ResearchEngine.title [] findings /\
  NoDup (ResearchEngine.sources merged) /\
  (forall s, In s (ResearchEngine.sources merged) <-> In s srcs) /\
  ResearchEngine.sources merged = firstByKey (fun s => s) [] srcs.
Proof.
  intros findings srcs merged.
  assert (Hk : ResearchEngine.keyFindings merged
               = firstByKey ResearchEngine.title [] findings).
  { subst merged. unfold ResearchEngine.processContents_merge. simpl.
    fold findings. unfold filter_indexed.
    exact (filter_first_titles findings []). }
  assert (Hs : ResearchEngine.sources merged
               = firstByKey (fun s => s) [] srcs).
  { subst merged. unfold ResearchEngine.processContents_merge. simpl.
    fold srcs. unfold spread_set. rewrite spread_set_from. reflexivity. }
  rewrite Hk, Hs. repeat split.
  - apply firstByKey_NoDup.
  - intros H. apply firstByKey_first in H. exact (proj2 H).
  - intros H. apply firstByKey_first. split; [intros []|exact H].
  - pose proof (firstByKey_NoDup (fun s : string => s) srcs []) as H.
    rewrite map_id in H. exact H.
  - intros H.
    pose proof (firstByKey_keys (fun s : string => s) srcs [] s) as Hkeys.
    rewrite !map_id in Hkeys. apply Hkeys in H. exact (proj2 H).
  - intros H.
    pose proof (firstByKey_keys (fun s : string => s) srcs [] s) as Hkeys.
    rewrite !map_id in Hkeys. apply Hkeys. split; [intros []|exact H].
Qed.

(** Findings titled A, B, A: two are kept, the first A among them. *)
Example merge_titles_A_B_A :
  let first_A := {| ResearchEngine.title := "A";
                    ResearchEngine.details := ["first"] |} in
  let only_B := {| ResearchEngine.title := "B";
                   ResearchEngine.details := [] |} in
  let second_A := {| ResearchEngine.title := "A";
                     ResearchEngine.details := ["second"] |} in
  ResearchEngine.processContents_merge
    [ {| ResearchEngine.summary := "one";
         ResearchEngine.keyFindings := [first_A; only_B];
         ResearchEngine.sources := ["x"; "y"] |};
      {| ResearchEngine.summary := "two";
         ResearchEngine.keyFindings := [second_A];
         ResearchEngine.sources := ["y"; "x"; "z"] |} ]
  = {| ResearchEngine.summary := "one" ++ nl ++ nl ++ "two";
       ResearchEngine.keyFindings := [first_A; only_B];
       ResearchEngine.sources := ["x"; "y"; "z"] |}.
Proof. reflexivity. Qed.

(** ** Strings *)

Lemma length_append (a b : string) :
  String.length (a ++ b) = (String.length a + String.length b)%nat.
Proof. induction a as [|c a IH]; simpl; [reflexivity|rewrite IH; reflexivity]. Qed.

Lemma append_assoc (a b c : string) :
  ((a ++ b) ++ c = a ++ (b ++ c))%string.
Proof. induction a as [|x a IH]; simpl; [reflexivity|rewrite IH; reflexivity]. Qed.

Lemma append_empty_r (a : string) : (a ++ EmptyString)%string = a.
Proof. induction a as [|x a IH]; simpl; [reflexivity|rewrite IH; reflexivity]. Qed.

Lemma has_char_append (c : ascii) (a b : string) :
  has_char c (a ++ b) = has_char c a || has_char c b.
Proof.
  induction a as [|x a IH]; simpl; [reflexivity|].
  rewrite IH. apply orb_assoc.
Qed.

Lemma substring_all (s : string) :
  String.substring 0 (String.length s) s = s.
Proof. induction s as [|c s IH]; simpl; [reflexivity|rewrite IH; reflexivity]. Qed.

Lemma substring_prefix (a b : string) :
  String.substring 0 (String.length a) (a ++ b) = a.
Proof.
  induction a as [|c a IH]; simpl.
  - destruct b; reflexivity.
  - rewrite IH. reflexivity.
Qed.

Lemma substring_skip (pre s : string) (m : nat) :
  String.substring (String.length pre) m (pre ++ s) = String.substring 0 m s.
Proof. induction pre as [|c pre IH]; simpl; [reflexivity|exact IH]. Qed.

Lemma substring_middle (pre obj post : string) :
  String.substring (String.length pre) (String.length obj)
    (pre ++ obj ++ post) = obj.
Proof. rewrite substring_skip. apply substring_prefix. Qed.

(** A stretch of a text taken inside a prefix that does not hold [c]
    does not hold [c]. *)
Lemma substring_within_no_char (c : ascii) (s : string) :
  forall n m : nat,
  has_char c s = false ->
  has_char c (String.substring n m s) = false.
Proof.
  induction s as [|x s IH]; intros n m Hno.
  - destruct n, m; reflexivity.
  - simpl in Hno. apply orb_false_iff in Hno. destruct Hno as [Hx Hs].
    destruct n as [|n].
    + destruct m as [|m]; simpl; [reflexivity|].
      rewrite Hx. apply IH. exact Hs.
    + simpl. apply IH. exact Hs.
Qed.

Lemma substring_inside_prefix (pre rest : string) :
  forall n m : nat,
  (n + m <= String.length pre)%nat ->
  String.substring n m (pre ++ rest) = String.substring n m pre.
Proof.
  induction pre as [|x pre IH]; intros n m Hle; simpl in Hle.
  - assert (n = 0%nat) by lia. assert (m = 0%nat) by lia. subst.
    destruct rest; reflexivity.
  - destruct n as [|n].
    + destruct m as [|m]; simpl; [reflexivity|].
      f_equal. apply IH. lia.
    + simpl. apply IH. lia.
Qed.

Lemma js_substring_ordered (s : string) (a b : Z) :
  0 <= a <= b -> b <= js_length s ->
  js_substring s a b = String.substring (Z.to_nat a) (Z.to_nat (b - a)) s.
Proof.
  intros Hab Hb. unfold js_substring, clamp.
  replace (Z.min (Z.min (Z.max a 0) (js_length s))
                 (Z.min (Z.max b 0) (js_length s))) with a by lia.
  replace (Z.max (Z.min (Z.max a 0) (js_length s))
                 (Z.min (Z.max b 0) (js_length s))) with b by lia.
  reflexivity.
Qed.

Lemma js_substring_swapped (s : string) (a b : Z) :
  0 <= b <= a -> a <= js_length s ->
  js_substring s a b = String.substring (Z.to_nat b) (Z.to_nat (a - b)) s.
Proof.
  intros Hab Hb. unfold js_substring, clamp.
  replace (Z.min (Z.min (Z.max a 0) (js_length s))
                 (Z.min (Z.max b 0) (js_length s))) with b by lia.
  replace (Z.max (Z.min (Z.max a 0) (js_length s))
                 (Z.min (Z.max b 0) (js_length s))) with a by lia.
  reflexivity.
Qed.

Lemma startsWith_char (c : ascii) (s : string) :
  startsWith (str1 c) s
  = match s with
    | String b _ => Ascii.eqb b c
    | EmptyString => false
    end.
Proof.
  destruct s as [|b s]; simpl; [reflexivity|].
  rewrite andb_true_r. apply Ascii.eqb_sym.
Qed.

(** The first occurrence of a character splits the text. *)
Lemma has_char_first (c : ascii) (s : string) :
  has_char c s = true ->
  exists pre post, s = (pre ++ String c post)%string /\ has_char c pre = false.
Proof.
  induction s as [|x s IH]; simpl; [discriminate|].
  destruct (Ascii.eqb_spec x c) as [->|Hne]; simpl.
  - intros _. exists EmptyString, s. split; reflexivity.
  - intros H. destruct (IH H) as [pre [post [-> Hpre]]].
    exists (String x pre), post. split; [reflexivity|].
    simpl. rewrite Hpre. apply Ascii.eqb_neq in Hne. rewrite Hne. reflexivity.
Qed.

(** The last occurrence of a character splits the text. *)
Lemma has_char_last (c : ascii) (s : string) :
  has_char c s = true ->
  exists pre post, s = (pre ++ String c post)%string /\ has_char c post = false.
Proof.
  induction s as [|x s IH]; simpl; [discriminate|].
  destruct (has_char c s) eqn:Hs.
  - intros _. destruct (IH eq_refl) as [pre [post [-> Hpost]]].
    exists (String x pre), post. split; [reflexivity|exact Hpost].
  - rewrite orb_false_r. intros Hx. apply Ascii.eqb_eq in Hx. subst x.
    exists EmptyString, s. split; [reflexivity|exact Hs].
Qed.

Lemma indexOf_from_cons (needle : string) (x : ascii) (s : string) (i : Z) :
  indexOf_from needle (String x s) i
  = if startsWith needle (String x s) then i
    else indexOf_from needle s (i + 1).
Proof. reflexivity. Qed.

Lemma lastIndexOf_from_cons (needle : string) (x : ascii) (s : string)
    (i last : Z) :
  lastIndexOf_from needle (String x s) i last
  = lastIndexOf_from needle s (i + 1)
      (if startsWith needle (String x s) then i else last).
Proof. reflexivity. Qed.

Lemma indexOf_from_absent (c : ascii) (s : string) : forall i : Z,
  has_char c s = false -> indexOf_from (str1 c) s i = -1.
Proof.
  induction s as [|x s IH]; intros i Hno.
  - reflexivity.
  - simpl in Hno. apply orb_false_iff in Hno. destruct Hno as [Hx Hs].
    rewrite indexOf_from_cons, startsWith_char, Hx. apply IH. exact Hs.
Qed.

Lemma indexOf_from_first (c : ascii) (pre post : string) : forall i : Z,
  has_char c pre = false ->
  indexOf_from (str1 c) (pre ++ String c post) i = i + js_length pre.
Proof.
  unfold js_length. induction pre as [|x pre IH]; intros i Hno.
  - simpl append.
    rewrite indexOf_from_cons, startsWith_char, Ascii.eqb_refl. simpl. lia.
  - simpl in Hno. apply orb_false_iff in Hno. destruct Hno as [Hx Hs].
    simpl append.
    rewrite indexOf_from_cons, startsWith_char, Hx, (IH _ Hs).
    simpl String.length. lia.
Qed.

Lemma lastIndexOf_from_absent (c : ascii) (s : string) : forall i last : Z,
  has_char c s = false -> lastIndexOf_from (str1 c) s i last = last.
Proof.
  induction s as [|x s IH]; intros i last Hno.
  - reflexivity.
  - simpl in Hno. apply orb_false_iff in Hno. destruct Hno as [Hx Hs].
    rewrite lastIndexOf_from_cons, startsWith_char, Hx. apply IH. exact Hs.
Qed.

Lemma lastIndexOf_from_last (c : ascii) (pre post : string) :
  forall i last : Z,
  has_char c post = false ->
  lastIndexOf_from (str1 c) (pre ++ String c post) i last = i + js_length pre.
Proof.
  unfold js_length. induction pre as [|x pre IH]; intros i last Hno.
  - simpl append.
    rewrite lastIndexOf_from_cons, startsWith_char, Ascii.eqb_refl.
    rewrite lastIndexOf_from_absent by exact Hno. simpl. lia.
  - simpl append.
    rewrite lastIndexOf_from_cons, (IH _ _ Hno). simpl String.length. lia.
Qed.

(** ** JSON texts *)

Lemma skip_ws_has_char (c : ascii) (s r : string) :
  skip_ws s = String c r -> has_char c s = true.
Proof.
  induction s as [|x s IH]; simpl; [discriminate|].
  destruct (is_json_ws x).
  - intros H. rewrite (IH H). apply orb_true_r.
  - intros H. injection H as -> _. rewrite Ascii.eqb_refl. reflexivity.
Qed.

Lemma parse_elements_cons (fuel : nat) (s : string) (acc : list json) :
  parse_elements (S fuel) s acc
  = match parse_value fuel s with
    | POk v r =>
        match after_char "," (skip_ws r) with
        | Some r' => parse_elements fuel r' (acc ++ [v])
        | None =>
            match after_char "]" (skip_ws r) with
            | Some r' => POk (JArray (acc ++ [v])) r'
            | None => PFail
            end
        end
    | PFail => PFail
    | POutOfFuel => POutOfFuel
    end.
Proof. reflexivity. Qed.

Lemma parse_elements_array (fuel : nat) :
  forall (s : string) (acc : list json) v r,
  parse_elements fuel s acc = POk v r -> exists l, v = JArray l.
Proof.
  induction fuel as [|fuel IH]; intros s acc v r H; [discriminate|].
  rewrite parse_elements_cons in H.
  destruct (parse_value fuel s) as [v0 r0| |]; try discriminate.
  destruct (after_char "," (skip_ws r0)) as [r1|].
  - eapply IH. exact H.
  - destruct (after_char "]" (skip_ws r0)) as [r1|]; [|discriminate].
    injection H as <- _. eauto.
Qed.

(** A text that parses to an object holds an opening brace. *)
Lemma parse_value_object_brace (fuel : nat) (s : string) members rest :
  parse_value fuel s = POk (JObject members) rest ->
  has_char "{" s = true.
Proof.
  destruct fuel as [|fuel]; [discriminate|]. simpl.
  destruct (skip_ws s) as [|c r] eqn:Hskip; [discriminate|].
  destruct (Ascii.eqb_spec c "{") as [->|_].
  - intros _. eapply skip_ws_has_char. exact Hskip.
  - destruct (Ascii.eqb c "[").
    + destruct (after_char "]" (skip_ws r)); [discriminate|].
      intros H. apply parse_elements_array in H. destruct H as [l H].
      discriminate.
    + destruct (Ascii.eqb c (chr 34)).
      * destruct (parse_string_body r) as [[str r']|]; discriminate.
      * unfold parse_literal.
        destruct (Ascii.eqb c "t");
          [destruct (strip_prefix _ _); discriminate|].
        destruct (Ascii.eqb c "f");
          [destruct (strip_prefix _ _); discriminate|].
        destruct (Ascii.eqb c "n");
          [destruct (strip_prefix _ _); discriminate|].
        destruct (parse_number (String c r)) as [[lexeme r']|]; discriminate.
Qed.

Lemma JSON_parse_object_brace (s : string) members :
  JSON_parse s = Some (JObject members) -> has_char "{" s = true.
Proof.
  unfold JSON_parse.
  destruct (parse_value (parse_fuel s) s) as [v rest| |] eqn:Hp;
    try discriminate.
  destruct (skip_ws rest); [|discriminate].
  intros H. injection H as ->.
  eapply parse_value_object_brace. exact Hp.
Qed.

(** ** The extractors *)

Lemma indexOf_char_absent (c : ascii) (s : string) :
  has_char c s = false -> indexOf (str1 c) s = -1.
Proof. apply indexOf_from_absent. Qed.

Lemma indexOf_char_first (c : ascii) (pre post : string) :
  has_char c pre = false ->
  indexOf (str1 c) (pre ++ String c post) = js_length pre.
Proof.
  intros H. unfold indexOf. rewrite indexOf_from_first by exact H. lia.
Qed.

Lemma lastIndexOf_char_absent (c : ascii) (s : string) :
  has_char c s = false -> lastIndexOf (str1 c) s = -1.
Proof. apply lastIndexOf_from_absent. Qed.

Lemma lastIndexOf_char_last (c : ascii) (pre post : string) :
  has_char c post = false ->
  lastIndexOf (str1 c) (pre ++ String c post) = js_length pre.
Proof.
  intros H. unfold lastIndexOf. rewrite lastIndexOf_from_last by exact H. lia.
Qed.

Lemma js_length_append (a b : string) :
  js_length (a ++ b) = js_length a + js_length b.
Proof. unfold js_length. rewrite length_append. lia. Qed.

Lemma js_length_nonneg (s : string) : 0 <= js_length s.
Proof. unfold js_length. lia. Qed.

(** C10. On a text without a fenced block, the extractor of the
    feedback module and that of the research engine, which are the same
    function, return null exactly when the text holds no opening brace
    or no closing brace.  When it holds both and the last closing brace
    comes before the first opening brace, they return the stretch of
    the text between the two, which holds no opening brace and is not
    the text of a JSON object. *)
Theorem c10_naive_extract_null (text : string) :
  codeBlockMatch text = None ->
  ResearchEngine.extractJSON text = Feedback.extractJSON text /\
  (Feedback.extractJSON text = None
   <-> has_char "{" text = false \/ has_char "}" text = false) /\
  (has_char "{" text = true ->
   has_char "}" text = true ->
   lastIndexOf "}" text < indexOf "{" text ->
   exists between,
     Feedback.extractJSON text = Some between /\
     between = String.substring
                 (Z.to_nat (lastIndexOf "}" text + 1))
                 (Z.to_nat (indexOf "{" text - (lastIndexOf "}" text + 1)))
                 text /\
     has_char "{" between = false /\
     forall members, JSON_parse between <> Some (JObject members)).
Proof.
  intros Hfence. split; [reflexivity|].
  unfold Feedback.extractJSON. rewrite Hfence.
  change "{"%string with (str1 "{"%char).
  change "}"%string with (str1 "}"%char).
  split.
  - destruct (has_char "{" text) eqn:Hopen.
    + destruct (has_char_first _ _ Hopen) as [pre [post [Ht Hpre]]].
      assert (Hs : indexOf (str1 "{") text = js_length pre).
      { rewrite Ht. apply indexOf_char_first. exact Hpre. }
      pose proof (js_length_nonneg pre) as Hnn.
      destruct (has_char "}" text) eqn:Hclose.
      * destruct (has_char_last _ _ Hclose) as [q [q' [Ht' Hq']]].
        assert (He : lastIndexOf (str1 "}") text = js_length q).
        { rewrite Ht'. apply lastIndexOf_char_last. exact Hq'. }
        pose proof (js_length_nonneg q) as Hnn'.
        rewrite Hs, He.
        destruct (Z.eqb_spec (js_length pre) (-1)); [lia|].
        destruct (Z.eqb_spec (js_length q) (-1)); [lia|].
        simpl. split; [discriminate|]. intros [H|H]; discriminate.
      * rewrite (lastIndexOf_char_absent _ _ Hclose).
        rewrite orb_true_r. split; auto.
    + rewrite (indexOf_char_absent _ _ Hopen). simpl. split; auto.
  - intros Hopen Hclose Hbefore.
    destruct (has_char_first _ _ Hopen) as [pre [post [Ht Hpre]]].
    destruct (has_char_last _ _ Hclose) as [q [q' [Ht' Hq']]].
    assert (Hs : indexOf (str1 "{") text = js_length pre).
    { rewrite Ht. apply indexOf_char_first. exact Hpre. }
    assert (He : lastIndexOf (str1 "}") text = js_length q).
    { rewrite Ht'. apply lastIndexOf_char_last. exact Hq'. }
    assert (Hlen : js_length pre <= js_length text).
    { rewrite Ht, js_length_append.
      pose proof (js_length_nonneg (String "{" post)). lia. }
    pose proof (js_length_nonneg pre) as Hnn.
    pose proof (js_length_nonneg q) as Hnn'.
    rewrite Hs, He in *.
    destruct (Z.eqb_spec (js_length pre) (-1)); [lia|].
    destruct (Z.eqb_spec (js_length q) (-1)); [lia|].
    simpl orb. cbv iota.
    rewrite js_substring_swapped by lia.
    eexists. split; [reflexivity|]. split; [reflexivity|].
    assert (Hno : has_char "{"
                    (String.substring (Z.to_nat (js_length q + 1))
                       (Z.to_nat (js_length pre - (js_length q + 1))) text)
                  = false).
    { rewrite Ht. rewrite substring_inside_prefix.
      - apply substring_within_no_char. exact Hpre.
      - unfold js_length in *. lia. }
    split; [exact Hno|].
    intros members Hparse. apply JSON_parse_object_brace in Hparse.
    congruence.
Qed.

(** A text between two braces: null was not returned, and the stretch
    returned is the blank-padded letter between them. *)
Lemma c10_naive_extract_null_witness :
  (Feedback.extractJSON "} x {" = None
   <-> has_char "{" "} x {" = false \/ has_char "}" "} x {" = false) /\
  exists between,
    Feedback.extractJSON "} x {" = Some between /\
    between = " x "%string /\
    has_char "{" between = false /\
    forall members, JSON_parse between <> Some (JObject members).
Proof.
  destruct (c10_naive_extract_null "} x {" eq_refl) as [_ [Hnull Hbetween]].
  split; [exact Hnull|].
  destruct (Hbetween eq_refl eq_refl eq_refl)
    as [between [Hres [Hshape [Hopen Hobj]]]].
  exists between. split; [exact Hres|]. split; [|split; assumption].
  rewrite Hshape. reflexivity.
Defined.

Lemma braceLoop_cons (c : ascii) (s : string) (i braceCount jsonStartIndex : Z) :
  GeminiProvider.braceLoop (String c s) i braceCount jsonStartIndex
  = if Ascii.eqb c "{" then
      GeminiProvider.braceLoop s (i + 1) (braceCount + 1)
        (if braceCount =? 0 then i else jsonStartIndex)
    else if Ascii.eqb c "}" then
      if (braceCount - 1 =? 0) && negb (jsonStartIndex =? -1)
      then Some (jsonStartIndex, i)
      else GeminiProvider.braceLoop s (i + 1) (braceCount - 1) jsonStartIndex
    else GeminiProvider.braceLoop s (i + 1) braceCount jsonStartIndex.
Proof. reflexivity. Qed.

(** Over a stretch without braces the loop only moves on. *)
Lemma braceLoop_skip (pre rest : string) :
  forall i braceCount jsonStartIndex : Z,
  has_char "{" pre = false -> has_char "}" pre = false ->
  GeminiProvider.braceLoop (pre ++ rest) i braceCount jsonStartIndex
  = GeminiProvider.braceLoop rest (i + js_length pre) braceCount
      jsonStartIndex.
Proof.
  unfold js_length.
  induction pre as [|x pre IH]; intros i bc js Hopen Hclose.
  - simpl. f_equal. lia.
  - simpl in Hopen, Hclose.
    apply orb_false_iff in Hopen. destruct Hopen as [Hx1 Hopen].
    apply orb_false_iff in Hclose. destruct Hclose as [Hx2 Hclose].
    simpl append. rewrite braceLoop_cons, Hx1, Hx2.
    rewrite (IH _ _ _ Hopen Hclose). f_equal. simpl String.length. lia.
Qed.

(** Inside an object whose opening brace is matched by its last
    character, the loop returns at that character. *)
Lemma braceLoop_closes (s post : string) :
  forall (d : nat) (i jsonStartIndex : Z),
  closesAtEndFrom d s = true ->
  (1 <= d)%nat ->
  jsonStartIndex <> -1 ->
  GeminiProvider.braceLoop (s ++ post) i (Z.of_nat d) jsonStartIndex
  = Some (jsonStartIndex, i + js_length s - 1).
Proof.
  unfold js_length.
  induction s as [|c s IH]; intros d i js Hclose Hd Hjs; [discriminate|].
  simpl in Hclose. simpl append. rewrite braceLoop_cons.
  destruct (Ascii.eqb c "{").
  - destruct (Z.eqb_spec (Z.of_nat d) 0) as [H0|_]; [lia|].
    replace (Z.of_nat d + 1) with (Z.of_nat (S d)) by lia.
    rewrite (IH (S d) (i + 1) js Hclose) by (lia || exact Hjs).
    f_equal. f_equal. simpl String.length. lia.
  - destruct (Ascii.eqb c "}").
    + destruct d as [|[|d]]; [discriminate| |].
      * destruct s; [|discriminate].
        destruct (Z.eqb_spec js (-1)) as [H0|_]; [contradiction|].
        simpl. f_equal. f_equal. lia.
      * destruct (Z.eqb_spec (Z.of_nat (S (S d)) - 1) 0) as [H0|_]; [lia|].
        simpl andb. cbv iota.
        replace (Z.of_nat (S (S d)) - 1) with (Z.of_nat (S d)) by lia.
        rewrite (IH (S d) (i + 1) js Hclose) by (lia || exact Hjs).
        f_equal. f_equal. simpl String.length. lia.
    + rewrite (IH d (i + 1) js Hclose Hd Hjs).
      f_equal. f_equal. simpl String.length. lia.
Qed.

Lemma closesAtEndFrom_has_close (s : string) : forall d : nat,
  closesAtEndFrom d s = true -> has_char "}" s = true.
Proof.
  induction s as [|c s IH]; intros d H; [discriminate|].
  simpl in H. simpl.
  destruct (Ascii.eqb c "{"); [rewrite (IH _ H); apply orb_true_r|].
  destruct (Ascii.eqb c "}"); [reflexivity|].
  rewrite (IH _ H). reflexivity.
Qed.

Lemma has_char_found_first (c : ascii) (s : string) :
  has_char c s = true -> 0 <= indexOf (str1 c) s.
Proof.
  intros H. destruct (has_char_first _ _ H) as [pre [post [-> Hpre]]].
  rewrite indexOf_char_first by exact Hpre. apply js_length_nonneg.
Qed.

Lemma has_char_found_last (c : ascii) (s : string) :
  has_char c s = true -> 0 <= lastIndexOf (str1 c) s.
Proof.
  intros H. destruct (has_char_last _ _ H) as [pre [post [-> Hpost]]].
  rewrite lastIndexOf_char_last by exact Hpost. apply js_length_nonneg.
Qed.

(** C2, as the code has it. In a text without a fenced block, made of
    a prose [pre], the text [obj] of the embedded object and a prose
    [post]: the extractors of the feedback module and of the research
    engine, which slice from the first opening brace to the last closing
    brace, return [obj] itself when [pre] holds no opening brace and
    [post] no closing brace; the extractor of the Gemini provider, which
    matches braces, returns [obj] itself when [pre] holds no brace and
    the opening brace of [obj] is matched by its last character,
    whatever [post] holds.  The string extracted is then the embedded
    text, so it parses to the embedded object. *)
Theorem c2_extract_embedded (pre obj post : string) :
  codeBlockMatch (pre ++ obj ++ post) = None ->
  (forall mid,
     obj = String "{" (mid ++ "}") ->
     has_char "{" pre = false ->
     has_char "}" post = false ->
     Feedback.extractJSON (pre ++ obj ++ post) = Some obj /\
     ResearchEngine.extractJSON (pre ++ obj ++ post) = Some obj)
  /\
  (balancedObject obj = true ->
   has_char "{" pre = false ->
   has_char "}" pre = false ->
   GeminiProvider.extractJSON (pre ++ obj ++ post) = Some obj).
Proof.
  intros Hfence.
  assert (Hslice : js_substring (pre ++ obj ++ post) (js_length pre)
                     (js_length pre + js_length obj) = obj).
  { rewrite js_substring_ordered.
    - replace (Z.to_nat (js_length pre)) with (String.length pre)
        by (unfold js_length; lia).
      replace (Z.to_nat (js_length pre + js_length obj - js_length pre))
        with (String.length obj) by (unfold js_length; lia).
      apply substring_middle.
    - pose proof (js_length_nonneg pre). pose proof (js_length_nonneg obj).
      lia.
    - rewrite !js_length_append. pose proof (js_length_nonneg post). lia. }
  split.
  - intros mid Hobj Hpre Hpost.
    assert (Hnaive : Feedback.extractJSON (pre ++ obj ++ post) = Some obj).
    { unfold Feedback.extractJSON. rewrite Hfence.
      change "{"%string with (str1 "{"%char).
      change "}"%string with (str1 "}"%char).
      assert (Hs : indexOf (str1 "{") (pre ++ obj ++ post) = js_length pre).
      { rewrite Hobj. simpl append. apply indexOf_char_first. exact Hpre. }
      assert (He : lastIndexOf (str1 "}") (pre ++ obj ++ post)
                   = js_length pre + js_length obj - 1).
      { rewrite Hobj.
        replace (pre ++ String "{" (mid ++ "}") ++ post)%string
          with ((pre ++ String "{" mid) ++ String "}" post)%string.
        - rewrite lastIndexOf_char_last by exact Hpost.
          rewrite !js_length_append. unfold js_length. simpl String.length.
          rewrite length_append. simpl String.length. lia.
        - rewrite append_assoc. simpl append. rewrite append_assoc.
          reflexivity. }
      rewrite Hs, He.
      pose proof (js_length_nonneg pre) as Hnn.
      assert (Hpos : 1 <= js_length obj).
      { rewrite Hobj. unfold js_length. simpl String.length. lia. }
      destruct (Z.eqb_spec (js_length pre) (-1)); [lia|].
      destruct (Z.eqb_spec (js_length pre + js_length obj - 1) (-1)); [lia|].
      simpl orb. cbv iota.
      replace (js_length pre + js_length obj - 1 + 1)
        with (js_length pre + js_length obj) by lia.
      rewrite Hslice. reflexivity. }
    split; exact Hnaive.
  - intros Hbal Hopen Hclose.
    unfold GeminiProvider.extractJSON. rewrite Hfence.
    change "{"%string with (str1 "{"%char).
    change "}"%string with (str1 "}"%char).
    destruct obj as [|c body]; [discriminate|].
    simpl in Hbal. apply andb_true_iff in Hbal. destruct Hbal as [Hc Hbody].
    apply Ascii.eqb_eq in Hc. subst c.
    assert (Hhas1 : has_char "{" (pre ++ String "{" body ++ post) = true).
    { rewrite !has_char_append. simpl. apply orb_true_r. }
    assert (Hhas2 : has_char "}" (pre ++ String "{" body ++ post) = true).
    { rewrite !has_char_append. simpl.
      rewrite (closesAtEndFrom_has_close _ _ Hbody). simpl.
      apply orb_true_r. }
    pose proof (has_char_found_first _ _ Hhas1) as Hs.
    pose proof (has_char_found_last _ _ Hhas2) as He.
    destruct (Z.eqb_spec (indexOf (str1 "{") (pre ++ String "{" body ++ post))
                         (-1)); [lia|].
    destruct (Z.eqb_spec (lastIndexOf (str1 "}") (pre ++ String "{" body ++ post))
                         (-1)); [lia|].
    simpl orb. cbv iota.
    rewrite braceLoop_skip by assumption.
    simpl append. rewrite braceLoop_cons.
    change (Ascii.eqb "{" "{") with true. change (0 =? 0) with true.
    cbv iota. change (0 + 1) with (Z.of_nat 1).
    pose proof (js_length_nonneg pre) as Hnn.
    rewrite (braceLoop_closes body post 1 (0 + js_length pre + 1)
               (0 + js_length pre) Hbody) by lia.
    replace (0 + js_length pre) with (js_length pre) by lia.
    replace (js_length pre + 1 + js_length body - 1 + 1)
      with (js_length pre + js_length (String "{" body))
      by (unfold js_length; simpl String.length; lia).
    exact (f_equal Some Hslice).
Qed.

(** An object after a prose without braces and before a prose with a
    stray opening brace: the three extractors return the object's text. *)
Lemma c2_extract_embedded_witness :
  Feedback.extractJSON ("Answer: " ++ Scenario.embedded ++ " - end {")
  = Some Scenario.embedded /\
  ResearchEngine.extractJSON ("Answer: " ++ Scenario.embedded ++ " - end {")
  = Some Scenario.embedded /\
  GeminiProvider.extractJSON ("Answer: " ++ Scenario.embedded ++ " - end {")
  = Some Scenario.embedded /\
  JSON_parse Scenario.embedded = Some (JObject [("a"%string, JNumber "1")]).
Proof.
  destruct (c2_extract_embedded "Answer: " Scenario.embedded " - end {"
              eq_refl) as [Hnaive Hbalanced].
  destruct (Hnaive (quoted "a" ++ ":1")%string eq_refl eq_refl eq_refl)
    as [Hf Hr].
  split; [exact Hf|]. split; [exact Hr|].
  split; [exact (Hbalanced eq_refl eq_refl eq_refl)|reflexivity].
Defined.

(** C2 as stated fails in the three extractors when the prose before
    the object holds a pair of braces.  The text has no fenced block and
    embeds one object.  The two slicing extractors return the stretch
    from the stray opening brace to the end of the object, and the
    matching extractor returns the stray pair; neither string is JSON,
    and the parser stops on a syntax error, not for want of fuel. *)
Lemma c2_counterexample :
  codeBlockMatch Scenario.proseWithBraces = None /\
  Scenario.proseWithBraces
  = ("Use {braces} like this: " ++ Scenario.embedded)%string /\
  JSON_parse Scenario.embedded = Some (JObject [("a"%string, JNumber "1")]) /\
  Feedback.extractJSON Scenario.proseWithBraces
  = Some ("{braces} like this: " ++ Scenario.embedded)%string /\
  ResearchEngine.extractJSON Scenario.proseWithBraces
  = Some ("{braces} like this: " ++ Scenario.embedded)%string /\
  GeminiProvider.extractJSON Scenario.proseWithBraces = Some "{braces}"%string /\
  JSON_parse ("{braces} like this: " ++ Scenario.embedded) = None /\
  parse_value (parse_fuel ("{braces} like this: " ++ Scenario.embedded))
              ("{braces} like this: " ++ Scenario.embedded) = PFail /\
  JSON_parse "{braces}" = None /\
  parse_value (parse_fuel "{braces}") "{braces}" = PFail.
Proof. repeat split; reflexivity. Qed.

(** ** The chunking step of the analysis *)

Lemma chunkLoop_bound (contents : list string) :
  forall (chunks : list string) (currentChunk : string),
  Forall (fun c => js_length c <= ResearchEngine.maxChunkSize) contents ->
  Forall (fun ch => js_length ch <= ResearchEngine.maxChunkSize + 2) chunks ->
  js_length currentChunk <= ResearchEngine.maxChunkSize + 2 ->
  let (chunks', last) :=
    ResearchEngine.chunkLoop contents chunks currentChunk in
  Forall (fun ch => js_length ch <= ResearchEngine.maxChunkSize + 2) chunks' /\
  js_length last <= ResearchEngine.maxChunkSize + 2.
Proof.
  unfold ResearchEngine.maxChunkSize.
  induction contents as [|content rest IH]; intros chunks cur Hitems Hchunks Hcur.
  - simpl. split; assumption.
  - inversion Hitems as [|? ? Hc Hrest]; subst.
    simpl ResearchEngine.chunkLoop. unfold ResearchEngine.maxChunkSize.
    destruct (Z.gtb_spec (js_length cur + js_length content) 15000)
      as [Hgt|Hle].
    + apply IH; [exact Hrest| |lia].
      apply Forall_app. split; [exact Hchunks|].
      constructor; [exact Hcur|constructor].
    + apply IH; [exact Hrest|exact Hchunks|].
      rewrite !js_length_append. unfold js_length in *.
      simpl String.length. lia.
Qed.

(** What the code does keep: when no item is longer than the bound, no
    chunk is longer than the bound by more than the two characters of
    one separator. *)
Lemma chunks_within_bound_and_separator (contents : list string) :
  Forall (fun c => js_length c <= ResearchEngine.maxChunkSize) contents ->
  Forall (fun ch => js_length ch <= ResearchEngine.maxChunkSize + 2)
         (ResearchEngine.processContents_chunks contents).
Proof.
  intros Hitems. unfold ResearchEngine.processContents_chunks.
  assert (Hempty : js_length EmptyString <= ResearchEngine.maxChunkSize + 2).
  { unfold ResearchEngine.maxChunkSize, js_length. simpl. lia. }
  pose proof (chunkLoop_bound contents [] EmptyString Hitems
                (Forall_nil _) Hempty) as H.
  destruct (ResearchEngine.chunkLoop contents [] EmptyString)
    as [chunks last].
  destruct H as [Hchunks Hlast].
  destruct last as [|c last]; [exact Hchunks|].
  apply Forall_app. split; [exact Hchunks|].
  constructor; [exact Hlast|constructor].
Qed.

(** C8, where the code departs from it. One item of exactly 15,000
    characters, the size the search client trims to, gives one chunk of
    15,002 characters: the test that closes a chunk does not count the
    separator the loop puts before every item it appends.  Two items of
    7,499 characters likewise give one chunk of 15,002 characters, and
    an item of 15,001 characters gives an empty chunk followed by the
    item. *)
Theorem c8_chunk_exceeds_bound :
  let page := repeat_string (repeat_string "a" 100) 150 in
  let half :=
    (repeat_string (repeat_string "a" 100) 74 ++ repeat_string "a" 99)%string in
  js_length page = 15000 /\
  ResearchEngine.processContents_chunks [page] = [nl ++ nl ++ page]%string /\
  map js_length (ResearchEngine.processContents_chunks [page]) = [15002] /\
  js_length half = 7499 /\
  map js_length (ResearchEngine.processContents_chunks [half; half])
  = [15002] /\
  map js_length (ResearchEngine.processContents_chunks [(page ++ "a")%string])
  = [0; 15001] /\
  ResearchEngine.maxChunkSize < 15002.
Proof. vm_compute. repeat split; reflexivity. Qed.

(** ** The fuel of the parser *)

Lemma skip_ws_length (s : string) :
  (String.length (skip_ws s) <= String.length s)%nat.
Proof.
  induction s as [|c s IH]; simpl; [lia|].
  destruct (is_json_ws c); simpl; lia.
Qed.

Lemma after_char_length (c : ascii) (s r : string) :
  after_char c s = Some r -> String.length s = S (String.length r).
Proof.
  destruct s as [|a s]; simpl; [discriminate|].
  destruct (Ascii.eqb a c); [|discriminate].
  intros H. injection H as ->. reflexivity.
Qed.

Lemma strip_prefix_length (p : string) : forall s r : string,
  strip_prefix p s = Some r ->
  String.length s = (String.length p + String.length r)%nat.
Proof.
  induction p as [|a p IH]; intros s r; simpl.
  - intros H. injection H as ->. reflexivity.
  - destruct s as [|b s]; [discriminate|].
    destruct (Ascii.eqb a b); [|discriminate].
    intros H. simpl. rewrite (IH _ _ H). reflexivity.
Qed.

Lemma cons_char_some (c : ascii) (res : option (string * string)) b r :
  cons_char c res = Some (b, r) -> exists b', res = Some (b', r).
Proof.
  destruct res as [[b' r']|]; simpl; [|discriminate].
  intros H. injection H as _ ->. eauto.
Qed.

Lemma parse_string_body_length (n : nat) : forall (s b r : string),
  (String.length s <= n)%nat ->
  parse_string_body s = Some (b, r) ->
  (String.length r < String.length s)%nat.
Proof.
  induction n as [|n IH]; intros s b r Hn H.
  - destruct s; [discriminate|simpl in Hn; lia].
  - destruct s as [|c s]; [discriminate|]. simpl in Hn. simpl in H.
    destruct (Ascii.eqb c (chr 34)).
    { injection H as _ ->. simpl. lia. }
    destruct (Ascii.eqb c (chr 92)).
    + destruct s as [|e s]; [discriminate|]. simpl in Hn.
      destruct (unescape e).
      * apply cons_char_some in H. destruct H as [b' H].
        destruct n as [|n]; [lia|].
        assert (String.length r < String.length s)%nat
          by (apply (IH s b' r); [lia|exact H]).
        simpl. lia.
      * destruct (Ascii.eqb e "u"); [|discriminate].
        destruct s as [|h1 [|h2 [|h3 [|h4 rest]]]]; try discriminate.
        destruct (hex_value h1) as [[|?]|]; try discriminate.
        destruct (hex_value h2) as [[|?]|]; try discriminate.
        destruct (hex_value h3) as [a|]; try discriminate.
        destruct (hex_value h4) as [d|]; try discriminate.
        apply cons_char_some in H. destruct H as [b' H].
        simpl in Hn.
        assert (String.length r < String.length rest)%nat
          by (apply (IH rest b' r); [lia|exact H]).
        simpl. lia.
    + destruct (nat_of_ascii c <? 32)%nat; [discriminate|].
      apply cons_char_some in H. destruct H as [b' H].
      assert (String.length r < String.length s)%nat
        by (apply (IH s b' r); [lia|exact H]).
      simpl. lia.
Qed.

Lemma take_digits_length (s : string) : forall d r : string,
  take_digits s = (d, r) -> (String.length r <= String.length s)%nat.
Proof.
  induction s as [|c s IH]; intros d r; simpl.
  - intros H. injection H as _ <-. simpl. lia.
  - destruct (is_digit c).
    + destruct (take_digits s) as [d' r'] eqn:Htd.
      intros H. injection H as _ <-.
      pose proof (IH d' r' eq_refl). lia.
    + intros H. injection H as _ <-. simpl. lia.
Qed.

Lemma parse_number_length (s lexeme r : string) :
  parse_number s = Some (lexeme, r) ->
  (String.length r < String.length s)%nat.
Proof.
  unfold parse_number.
  destruct (parse_sign s) as [sign s0] eqn:Hsign.
  assert (H0 : (String.length s0 <= String.length s)%nat).
  { unfold parse_sign in Hsign. destruct s as [|c s'].
    - injection Hsign as _ <-. lia.
    - destruct (Ascii.eqb c "-"); injection Hsign as _ <-; simpl; lia. }
  destruct (parse_int_part s0) as [[i s1]|] eqn:Hip; [|discriminate].
  assert (H1 : (String.length s1 < String.length s0)%nat).
  { unfold parse_int_part in Hip. destruct s0 as [|c s']; [discriminate|].
    destruct (Ascii.eqb c "0").
    - injection Hip as _ <-. simpl. lia.
    - destruct (is_digit c); [|discriminate].
      destruct (take_digits s') as [d r'] eqn:Htd.
      injection Hip as _ <-.
      pose proof (take_digits_length _ _ _ Htd). simpl. lia. }
  destruct (parse_frac_part s1) as [[f s2]|] eqn:Hfrac; [|discriminate].
  assert (H2 : (String.length s2 <= String.length s1)%nat).
  { unfold parse_frac_part in Hfrac. destruct s1 as [|c s'].
    - injection Hfrac as _ <-. lia.
    - destruct (Ascii.eqb c ".").
      + destruct (take_digits s') as [d r'] eqn:Htd.
        pose proof (take_digits_length _ _ _ Htd).
        destruct d; [discriminate|].
        injection Hfrac as _ <-. simpl. lia.
      + injection Hfrac as _ <-. lia. }
  destruct (parse_exp_part s2) as [[e s3]|] eqn:Hexp; [|discriminate].
  assert (H3 : (String.length s3 <= String.length s2)%nat).
  { unfold parse_exp_part in Hexp. destruct s2 as [|c s'].
    - injection Hexp as _ <-. lia.
    - destruct (Ascii.eqb c "e" || Ascii.eqb c "E").
      + destruct s' as [|g s''].
        * simpl in Hexp. discriminate.
        * destruct (Ascii.eqb g "+" || Ascii.eqb g "-").
          -- destruct (take_digits s'') as [d r'] eqn:Htd.
             pose proof (take_digits_length _ _ _ Htd).
             destruct d; [discriminate|].
             injection Hexp as _ <-. simpl. lia.
          -- destruct (take_digits (String g s'')) as [d r'] eqn:Htd.
             pose proof (take_digits_length _ _ _ Htd) as Hl.
             destruct d; [discriminate|].
             injection Hexp as _ <-. simpl in *. lia.
      + injection Hexp as _ <-. lia. }
  intros H. injection H as _ <-. lia.
Qed.

Lemma parse_value_cons (fuel : nat) (s : string) :
  parse_value (S fuel) s
  = match skip_ws s with
    | EmptyString => PFail
    | String c r =>
        if Ascii.eqb c "{" then
          match after_char "}" (skip_ws r) with
          | Some r' => POk (JObject []) r'
          | None => parse_members fuel (skip_ws r) []
          end
        else if Ascii.eqb c "[" then
          match after_char "]" (skip_ws r) with
          | Some r' => POk (JArray []) r'
          | None => parse_elements fuel (skip_ws r) []
          end
        else if Ascii.eqb c (chr 34) then
          match parse_string_body r with
          | Some (str, r') => POk (JString str) r'
          | None => PFail
          end
        else if Ascii.eqb c "t" then
          parse_literal "true" (JBool true) (String c r)
        else if Ascii.eqb c "f" then
          parse_literal "false" (JBool false) (String c r)
        else if Ascii.eqb c "n" then
          parse_literal "null" JNull (String c r)
        else
          match parse_number (String c r) with
          | Some (lexeme, r') => POk (JNumber lexeme) r'
          | None => PFail
          end
    end.
Proof. reflexivity. Qed.

Lemma parse_members_cons (fuel : nat) (s : string)
    (acc : list (string * json)) :
  parse_members (S fuel) s acc
  = match after_char (chr 34) (skip_ws s) with
    | None => PFail
    | Some r =>
        match parse_string_body r with
        | None => PFail
        | Some (key, r1) =>
            match after_char ":" (skip_ws r1) with
            | None => PFail
            | Some r2 =>
                match parse_value fuel r2 with
                | POk v r3 =>
                    match after_char "," (skip_ws r3) with
                    | Some r4 => parse_members fuel r4 (acc ++ [(key, v)])
                    | None =>
                        match after_char "}" (skip_ws r3) with
                        | Some r4 => POk (JObject (acc ++ [(key, v)])) r4
                        | None => PFail
                        end
                    end
                | PFail => PFail
                | POutOfFuel => POutOfFuel
                end
            end
        end
    end.
Proof. reflexivity. Qed.

Lemma parse_literal_length (word : string) (v v' : json) (s r : string) :
  (1 <= String.length word)%nat ->
  parse_literal word v s = POk v' r ->
  (String.length r < String.length s)%nat.
Proof.
  unfold parse_literal. intros Hw.
  destruct (strip_prefix word s) as [rest|] eqn:Hp; [|discriminate].
  intros H. injection H as _ <-.
  apply strip_prefix_length in Hp. lia.
Qed.

Lemma parse_literal_fuel (word : string) (v : json) (s : string) :
  parse_literal word v s <> POutOfFuel.
Proof.
  unfold parse_literal. destruct (strip_prefix word s); discriminate.
Qed.

Lemma served_fail {A : Type} (s : string) : served (@PFail A) s.
Proof. split; [discriminate|]. intros v r H. discriminate. Qed.

Lemma served_ok {A : Type} (v : A) (r s : string) :
  (String.length r < String.length s)%nat -> served (POk v r) s.
Proof.
  intros Hlt. split; [discriminate|].
  intros v' r' H. injection H as _ <-. exact Hlt.
Qed.

Lemma served_shorter {A : Type} (res : presult A) (s s' : string) :
  served res s -> (String.length s <= String.length s')%nat -> served res s'.
Proof.
  intros [Hf Hl] Hle. split; [exact Hf|].
  intros v r H. specialize (Hl v r H). lia.
Qed.

Lemma parser_served (fuel : nat) :
  (forall s, (2 * String.length s + 1 <= fuel)%nat ->
             served (parse_value fuel s) s) /\
  (forall s acc, (2 * String.length s + 2 <= fuel)%nat ->
                 served (parse_elements fuel s acc) s) /\
  (forall s acc, (2 * String.length s + 2 <= fuel)%nat ->
                 served (parse_members fuel s acc) s).
Proof.
  induction fuel as [|fuel [IHv [IHe IHm]]].
  - repeat split; intros; lia.
  - split; [|split].
    + intros s Hfuel. rewrite parse_value_cons.
      pose proof (skip_ws_length s) as Hskip.
      destruct (skip_ws s) as [|c r]; [apply served_fail|].
      simpl in Hskip. pose proof (skip_ws_length r) as Hskip'.
      destruct (Ascii.eqb c "{").
      { destruct (after_char "}" (skip_ws r)) as [r'|] eqn:Hc.
        - apply after_char_length in Hc. apply served_ok. lia.
        - apply (served_shorter _ (skip_ws r)); [apply IHm; lia|lia]. }
      destruct (Ascii.eqb c "[").
      { destruct (after_char "]" (skip_ws r)) as [r'|] eqn:Hc.
        - apply after_char_length in Hc. apply served_ok. lia.
        - apply (served_shorter _ (skip_ws r)); [apply IHe; lia|lia]. }
      destruct (Ascii.eqb c (chr 34)).
      { destruct (parse_string_body r) as [[str r']|] eqn:Hb;
          [|apply served_fail].
        apply (parse_string_body_length _ _ _ _ (le_n _)) in Hb.
        apply served_ok. lia. }
      assert (Hlit : forall word v, (1 <= String.length word)%nat ->
                served (parse_literal word v (String c r)) s).
      { intros word v Hw. split; [apply parse_literal_fuel|].
        intros v' r' H. apply parse_literal_length in H; [|exact Hw].
        simpl in H. lia. }
      destruct (Ascii.eqb c "t"); [apply Hlit; simpl; lia|].
      destruct (Ascii.eqb c "f"); [apply Hlit; simpl; lia|].
      destruct (Ascii.eqb c "n"); [apply Hlit; simpl; lia|].
      destruct (parse_number (String c r)) as [[lexeme r']|] eqn:Hn;
        [|apply served_fail].
      apply parse_number_length in Hn. simpl in Hn. apply served_ok. lia.
    + intros s acc Hfuel. rewrite parse_elements_cons.
      destruct (IHv s) as [Hnf Hlen]; [lia|].
      destruct (parse_value fuel s) as [v r| |];
        [|apply served_fail|contradiction].
      specialize (Hlen v r eq_refl).
      pose proof (skip_ws_length r) as Hskip.
      destruct (after_char "," (skip_ws r)) as [r'|] eqn:Hc.
      * apply after_char_length in Hc.
        apply (served_shorter _ r'); [apply IHe; lia|lia].
      * destruct (after_char "]" (skip_ws r)) as [r'|] eqn:Hc';
          [|apply served_fail].
        apply after_char_length in Hc'. apply served_ok. lia.
    + intros s acc Hfuel. rewrite parse_members_cons.
      pose proof (skip_ws_length s) as Hskip.
      destruct (after_char (chr 34) (skip_ws s)) as [r|] eqn:Hq;
        [|apply served_fail].
      apply after_char_length in Hq.
      destruct (parse_string_body r) as [[key r1]|] eqn:Hb;
        [|apply served_fail].
      apply (parse_string_body_length _ _ _ _ (le_n _)) in Hb.
      pose proof (skip_ws_length r1) as Hskip1.
      destruct (after_char ":" (skip_ws r1)) as [r2|] eqn:Hcolon;
        [|apply served_fail].
      apply after_char_length in Hcolon.
      destruct (IHv r2) as [Hnf Hlen]; [lia|].
      destruct (parse_value fuel r2) as [v r3| |];
        [|apply served_fail|contradiction].
      specialize (Hlen v r3 eq_refl).
      pose proof (skip_ws_length r3) as Hskip3.
      destruct (after_char "," (skip_ws r3)) as [r4|] eqn:Hc.
      * apply after_char_length in Hc.
        apply (served_shorter _ r4); [apply IHm; lia|lia].
      * destruct (after_char "}" (skip_ws r3)) as [r4|] eqn:Hc';
          [|apply served_fail].
        apply after_char_length in Hc'. apply served_ok. lia.
Qed.

(** The parser never stops for want of fuel: [JSON_parse] gives [None]
    on a syntax error only. *)
Lemma parse_fuel_enough (s : string) :
  parse_value (parse_fuel s) s <> POutOfFuel.
Proof.
  destruct (parser_served (parse_fuel s)) as [Hv _].
  apply Hv. unfold parse_fuel. lia.
Qed.

(** * Further properties *)

(** ** The retry wrappers: attempts, growth of the pauses *)

Lemma growsFrom_weaken (ws : list Z) : forall b b' : Z,
  b' <= b -> growsFrom b ws -> growsFrom b' ws.
Proof.
  destruct ws as [|w ws]; intros b b' Hle H; simpl in *; [exact I|].
  destruct H as [Hb Hrest]. split; [lia|exact Hrest].
Qed.

Lemma retryWith_trace_grows {W T : Type} (isRateLimit : JsError -> bool)
    (factor : Z) (ev : Event) (op : W -> Outcome T * W) (r : nat) :
  forall (b : Z) (st : State W),
  0 <= b -> 1 <= factor ->
  exists ws, (List.length ws <= r)%nat /\
    growsFrom b ws /\
    trace (snd (retryWith isRateLimit factor (request ev op) r b st))
    = trace st ++ attemptsTrace ev ws.
Proof.
  induction r as [|r IH]; intros b st Hb Hf.
  - exists []. split; [simpl; lia|]. split; [exact I|].
    destruct (op (world st)) as [[v|e] w'] eqn:Hop.
    + rewrite (retryWith_returned _ _ _ _ _ _ _ _ _ Hop). reflexivity.
    + rewrite (retryWith_thrown_last _ _ _ _ _ _ _ _ Hop). reflexivity.
  - destruct (op (world st)) as [[v|e] w'] eqn:Hop.
    + exists []. split; [simpl; lia|]. split; [exact I|].
      rewrite (retryWith_returned _ _ _ _ _ _ _ _ _ Hop). reflexivity.
    + rewrite (retryWith_thrown_more _ _ _ _ _ _ _ _ _ Hop).
      set (w := waitFor isRateLimit factor e b).
      assert (Hw : b <= w).
      { subst w. unfold waitFor. destruct (isRateLimit e); [nia|lia]. }
      clearbody w.
      destruct (IH (w * 2) (mkState w' (trace st ++ [ev; EvDelay w])))
        as [ws [Hlen [Hgrow Htr]]]; [lia|exact Hf|].
      exists (w :: ws). split; [simpl; lia|]. split.
      * cbn [growsFrom]. split; [exact Hw|].
        apply (growsFrom_weaken ws (w * 2)); [lia|exact Hgrow].
      * rewrite Htr. simpl. rewrite <- app_assoc. reflexivity.
Qed.

(** X1. Whatever the operation does, each of the three wrappers sends
    the request at most [r + 1] times and pauses at most [r] times: the
    trace grows by attempts with a pause between two of them, and by
    nothing else. *)
Theorem retry_attempts_bounded (svc : Services) (T : Type) (ev : Event)
    (op : World svc -> Outcome T * World svc) (r : nat) (b : Z)
    (st : State (World svc)) :
  (exists ws, (List.length ws <= r)%nat /\
     trace (snd (Feedback.retry svc (request ev op) r b st))
     = trace st ++ attemptsTrace ev ws) /\
  (exists ws, (List.length ws <= r)%nat /\
     trace (snd (WebSearch.retry svc (request ev op) r b st))
     = trace st ++ attemptsTrace ev ws) /\
  (exists ws, (List.length ws <= r)%nat /\
     trace (snd (ResearchEngine.retry svc (request ev op) r b st))
     = trace st ++ attemptsTrace ev ws).
Proof.
  rewrite Feedback_retry_scheme, WebSearch_retry_scheme,
    ResearchEngine_retry_scheme.
  repeat split; apply retryWith_trace.
Qed.

(** X2. With a base delay that is not negative, the pauses of each
    wrapper grow: the first is at least the base delay and every later
    one at least twice the one before, whatever the failures are. *)
Theorem retry_pauses_grow (svc : Services) (T : Type) (ev : Event)
    (op : World svc -> Outcome T * World svc) (r : nat) (b : Z)
    (st : State (World svc)) :
  0 <= b ->
  (exists ws, growsFrom b ws /\
     trace (snd (Feedback.retry svc (request ev op) r b st))
     = trace st ++ attemptsTrace ev ws) /\
  (exists ws, growsFrom b ws /\
     trace (snd (WebSearch.retry svc (request ev op) r b st))
     = trace st ++ attemptsTrace ev ws) /\
  (exists ws, growsFrom b ws /\
     trace (snd (ResearchEngine.retry svc (request ev op) r b st))
     = trace st ++ attemptsTrace ev ws).
Proof.
  intros Hb.
  rewrite Feedback_retry_scheme, WebSearch_retry_scheme,
    ResearchEngine_retry_scheme.
  repeat split.
  - destruct (retryWith_trace_grows messageSaysRateLimit 2 ev op r b st Hb)
      as [ws [_ [Hg Htr]]]; [lia|]. exists ws. auto.
  - destruct (retryWith_trace_grows statusIs429 4 ev op r b st Hb)
      as [ws [_ [Hg Htr]]]; [lia|]. exists ws. auto.
  - destruct (retryWith_trace_grows messageSaysRateLimit 4 ev op r b st Hb)
      as [ws [_ [Hg Htr]]]; [lia|]. exists ws. auto.
Qed.

Lemma retry_pauses_grow_witness :
  exists ws, growsFrom 2000 ws /\
    trace (snd (WebSearch.retry Scenario.flakyServices
                  (request (EvSearch "q" 4 30000) Scenario.flaky) 3 2000
                  (mkState [Scenario.timedOut; Scenario.rateLimited429] [])))
    = [] ++ attemptsTrace (EvSearch "q" 4 30000) ws.
Proof.
  apply (proj1 (proj2 (retry_pauses_grow Scenario.flakyServices Z
                         (EvSearch "q" 4 30000) Scenario.flaky 3 2000
                         (mkState [Scenario.timedOut; Scenario.rateLimited429] [])
                         ltac:(lia)))).
Defined.

Lemma retryWith_rate_limited {W T : Type} (isRateLimit : JsError -> bool)
    (factor : Z) (ev : Event) (op : W -> Outcome T * W) (k : nat) :
  forall (r : nat) (b : Z) (st : State W) es wk v w',
  (k <= r)%nat ->
  failures op k (world st) = Some (es, wk) ->
  Forall (fun e => isRateLimit e = true) es ->
  op wk = (Returned v, w') ->
  retryWith isRateLimit factor (request ev op) r b st
  = (Returned v,
     mkState w' (trace st ++ attemptsTrace ev (compounded b factor k))).
Proof.
  induction k as [|k IH]; intros r b st es wk v w' Hle Hf Hrl Hok.
  - simpl in Hf. injection Hf as <- <-.
    apply retryWith_returned. exact Hok.
  - destruct r as [|r]; [lia|].
    simpl in Hf.
    destruct (op (world st)) as [[v0|e] w1] eqn:Hop; [discriminate|].
    destruct (failures op k w1) as [[es' w2]|] eqn:Hf'; [|discriminate].
    injection Hf as <- <-.
    inversion Hrl as [|? ? He Hrest]; subst.
    rewrite (retryWith_thrown_more _ _ _ _ _ _ _ _ _ Hop).
    unfold waitFor. rewrite He.
    rewrite (IH r (b * factor * 2)
                (mkState w1 (trace st ++ [ev; EvDelay (b * factor)]))
                es' w2 v w'); [|lia|exact Hf'|exact Hrest|exact Hok].
    simpl. rewrite <- app_assoc. reflexivity.
Qed.

Lemma compounded_from (f : Z) (k : nat) : forall (b : Z) (n : nat),
  compounded (b * (2 * f) ^ Z.of_nat n) f k
  = map (fun i => b * f * (2 * f) ^ Z.of_nat i) (seq n k).
Proof.
  induction k as [|k IH]; intros b n; cbn [compounded map seq];
    [reflexivity|].
  f_equal; [ring|]. rewrite <- IH. f_equal.
  rewrite Nat2Z.inj_succ, Z.pow_succ_r by lia. ring.
Qed.

Lemma compounded_closed (b f : Z) (k : nat) :
  compounded b f k = map (fun i => b * f * (2 * f) ^ Z.of_nat i) (seq 0 k).
Proof.
  rewrite <- compounded_from. f_equal.
  change (Z.of_nat 0) with 0. rewrite Z.pow_0_r. ring.
Qed.

(** X3. Rate limits compound. In the wrapper of the search client, an
    operation that fails [k] times with status 429, [k] within the
    retries, and then succeeds is answered after the pauses
    [4b, 32b, 256b, ...]: each is eight times the one before, as the
    pause of a rate limit, four times the base, is doubled into the next
    base. *)
Theorem retry_rate_limits_compound (svc : Services) (T : Type)
    (query : string) (lim tmo : Z) (op : World svc -> Outcome T * World svc)
    (r k : nat) (b : Z) (st : State (World svc)) es wk v w' :
  (k <= r)%nat ->
  failures op k (world st) = Some (es, wk) ->
  Forall (fun e => statusCode e = Some 429) es ->
  op wk = (Returned v, w') ->
  let run := WebSearch.retry svc (request (EvSearch query lim tmo) op) r b st in
  fst run = Returned v /\
  waits (trace (snd run))
  = waits (trace st) ++ map (fun i => 4 * b * 8 ^ Z.of_nat i) (seq 0 k).
Proof.
  intros Hk Hf H429 Hok run. subst run. rewrite WebSearch_retry_scheme.
  rewrite (retryWith_rate_limited statusIs429 4 _ op k r b st es wk v w');
    [|exact Hk|exact Hf| |exact Hok].
  - cbn [fst snd trace]. split; [reflexivity|].
    rewrite waits_app, waits_attempts_search, compounded_closed.
    f_equal. apply map_ext. intros i. change (2 * 4) with 8. ring.
  - eapply Forall_impl; [|exact H429]. intros e He. unfold statusIs429.
    rewrite He. reflexivity.
Qed.

Lemma retry_rate_limits_compound_witness :
  let run := WebSearch.retry Scenario.flakyServices
               (request (EvSearch "q" 4 30000) Scenario.flaky) 3 2000
               (mkState [Scenario.rateLimited429; Scenario.rateLimited429] []) in
  fst run = Returned 42 /\
  waits (trace (snd run)) = [] ++ [8000; 64000].
Proof.
  apply (retry_rate_limits_compound Scenario.flakyServices Z "q" 4 30000
           Scenario.flaky 3 2 2000
           (mkState [Scenario.rateLimited429; Scenario.rateLimited429] [])
           [Scenario.rateLimited429; Scenario.rateLimited429] [] 42 []).
  - lia.
  - reflexivity.
  - repeat constructor.
  - reflexivity.
Defined.

(** ** The extractors: fenced blocks, the span of the slice, balance *)

Lemma strip_prefix_app (p s : string) : strip_prefix p (p ++ s) = Some s.
Proof.
  induction p as [|c p IH]; simpl; [reflexivity|].
  rewrite Ascii.eqb_refl. exact IH.
Qed.

Lemma trimStart_all_ws (ws s : string) :
  all_ws ws = true -> trimStart (ws ++ s) = trimStart s.
Proof.
  induction ws as [|c ws IH]; simpl; [reflexivity|].
  intros H. apply andb_true_iff in H. destruct H as [Hc Hws].
  rewrite Hc. apply IH. exact Hws.
Qed.

Lemma all_ws_append (a b : string) :
  all_ws (a ++ b) = all_ws a && all_ws b.
Proof.
  induction a as [|c a IH]; simpl; [reflexivity|].
  rewrite IH. apply andb_assoc.
Qed.

Lemma trimStart_cons (c : ascii) (s : string) :
  trimStart (String c s) = if is_ws c then trimStart s else String c s.
Proof. reflexivity. Qed.

Lemma startsWith_fence_cons (c : ascii) (s : string) :
  Ascii.eqb c "`" = false -> startsWith fence (String c s) = false.
Proof.
  intros H. unfold fence. cbn [startsWith].
  rewrite Ascii.eqb_sym, H. reflexivity.
Qed.

(** After a stretch that holds no backtick and is not all white space,
    what follows the white space is not a fence. *)
Lemma no_fence_after (u v : string) :
  has_char "`" u = false ->
  all_ws u = false ->
  startsWith fence (trimStart (u ++ v)) = false.
Proof.
  induction u as [|c u IH]; [discriminate|].
  cbn [has_char all_ws]. simpl append.
  intros Hno Hws. apply orb_false_iff in Hno. destruct Hno as [Hc Hu].
  rewrite trimStart_cons.
  destruct (is_ws c) eqn:Hcws.
  - apply IH; assumption.
  - apply startsWith_fence_cons. exact Hc.
Qed.

Lemma lazy_body_ends (mid ws2 post : string) :
  has_char "`" mid = false ->
  all_ws ws2 = true ->
  lazy_body (mid ++ String "}" (ws2 ++ fence ++ post))
  = Some (mid ++ "}")%string.
Proof.
  intros Hmid Hws.
  assert (Hend : startsWith fence (trimStart (ws2 ++ fence ++ post)) = true).
  { rewrite trimStart_all_ws by exact Hws. reflexivity. }
  remember (ws2 ++ fence ++ post)%string as tail eqn:Htail. clear Htail.
  induction mid as [|c mid IH].
  - simpl append. cbn [lazy_body]. rewrite Ascii.eqb_refl, Hend. reflexivity.
  - cbn [has_char] in Hmid. apply orb_false_iff in Hmid.
    destruct Hmid as [Hc Hmid].
    simpl append. cbn [lazy_body].
    assert (Hnot : startsWith fence (trimStart (mid ++ String "}" tail))
                   = false).
    { change (mid ++ String "}" tail)%string
        with (mid ++ ("}" ++ tail))%string.
      rewrite <- append_assoc. apply no_fence_after.
      - rewrite has_char_append, Hmid. reflexivity.
      - rewrite all_ws_append. apply andb_false_r. }
    rewrite Hnot, andb_false_r, (IH Hmid). reflexivity.
Qed.

Lemma after_tag_object (ws1 mid ws2 post : string) :
  all_ws ws1 = true ->
  all_ws ws2 = true ->
  has_char "`" mid = false ->
  after_tag (ws1 ++ String "{" (mid ++ "}") ++ ws2 ++ fence ++ post)
  = Some (String "{" (mid ++ "}")).
Proof.
  intros H1 H2 Hmid. unfold after_tag.
  rewrite trimStart_all_ws by exact H1.
  remember (ws2 ++ fence ++ post)%string as tail eqn:Htail.
  change (String "{" (mid ++ "}") ++ tail)%string
    with (String "{" ((mid ++ "}") ++ tail)).
  rewrite trimStart_cons. change (is_ws "{") with false. cbv iota.
  rewrite Ascii.eqb_refl, append_assoc.
  change ("}" ++ tail)%string with (String "}" tail).
  subst tail. rewrite lazy_body_ends by assumption. reflexivity.
Qed.

Lemma strip_json_none (ws1 rest : string) :
  all_ws ws1 = true ->
  strip_prefix "json" (ws1 ++ String "{" rest) = None.
Proof.
  destruct ws1 as [|c ws1]; [reflexivity|].
  cbn [all_ws]. intros H. apply andb_true_iff in H. destruct H as [Hc _].
  change (strip_prefix "json" (String c ws1 ++ String "{" rest))
    with (if Ascii.eqb "j" c
          then strip_prefix "son" (ws1 ++ String "{" rest) else None).
  destruct (Ascii.eqb_spec "j" c) as [<-|_]; [discriminate|reflexivity].
Qed.

Lemma codeBlockMatch_skip (pre s : string) :
  has_char "`" pre = false ->
  codeBlockMatch (pre ++ s) = codeBlockMatch s.
Proof.
  induction pre as [|c pre IH]; simpl append; [reflexivity|].
  intros H. cbn [has_char] in H. apply orb_false_iff in H.
  destruct H as [Hc Hpre].
  cbn [codeBlockMatch]. unfold match_here at 1. unfold fence at 1.
  cbn [strip_prefix]. rewrite Ascii.eqb_sym, Hc. apply IH. exact Hpre.
Qed.

Lemma codeBlockMatch_here (s captured : string) :
  match_here s = Some captured -> codeBlockMatch s = Some captured.
Proof. intros H. destruct s; cbn [codeBlockMatch]; rewrite H; reflexivity. Qed.

(** X4. A fenced block wins. When the text before the first fence holds
    no backtick, the fence is followed by the tag json or by none, and
    the block holds, between optional white space, an object text
    without backticks, the three extractors return exactly that object
    text, whatever braces it holds and whatever follows the closing
    fence. *)
Theorem fenced_block_is_extracted (pre tag ws1 mid ws2 post : string) :
  has_char "`" pre = false ->
  tag = "json"%string \/ tag = EmptyString ->
  all_ws ws1 = true ->
  all_ws ws2 = true ->
  has_char "`" mid = false ->
  let obj := String "{" (mid ++ "}") in
  let text := (pre ++ "```" ++ tag ++ ws1 ++ obj ++ ws2 ++ "```" ++ post)%string in
  Feedback.extractJSON text = Some obj /\
  ResearchEngine.extractJSON text = Some obj /\
  GeminiProvider.extractJSON text = Some obj.
Proof.
  intros Hpre Htag H1 H2 Hmid obj text.
  assert (Hmatch : codeBlockMatch text = Some obj).
  { subst text. rewrite codeBlockMatch_skip by exact Hpre.
    apply codeBlockMatch_here. unfold match_here.
    change "```"%string with fence. rewrite strip_prefix_app.
    destruct Htag as [-> | ->].
    - rewrite strip_prefix_app. subst obj.
      rewrite after_tag_object by assumption. reflexivity.
    - simpl append. subst obj. simpl append.
      rewrite strip_json_none by exact H1.
      change (ws1 ++ String "{" ((mid ++ "}") ++ ws2 ++ fence ++ post))%string
        with (ws1 ++ String "{" (mid ++ "}") ++ ws2 ++ fence ++ post)%string.
      apply after_tag_object; assumption. }
  unfold Feedback.extractJSON, ResearchEngine.extractJSON,
    GeminiProvider.extractJSON.
  rewrite Hmatch. repeat split; reflexivity.
Qed.

Lemma fenced_block_is_extracted_witness :
  let text := ("Here you go: ```json" ++ nl ++ "{" ++ quoted "a" ++ ":{}}"
               ++ nl ++ "``` and {more}")%string in
  Feedback.extractJSON text = Some ("{" ++ quoted "a" ++ ":{}}")%string /\
  ResearchEngine.extractJSON text = Some ("{" ++ quoted "a" ++ ":{}}")%string /\
  GeminiProvider.extractJSON text = Some ("{" ++ quoted "a" ++ ":{}}")%string.
Proof.
  apply (fenced_block_is_extracted "Here you go: " "json" nl
           (quoted "a" ++ ":{}") nl " and {more}");
    try reflexivity.
  left. reflexivity.
Defined.

Lemma append_split (a : string) : forall b c d : string,
  (a ++ b = c ++ d)%string ->
  (String.length a <= String.length c)%nat ->
  exists m, c = (a ++ m)%string /\ b = (m ++ d)%string.
Proof.
  induction a as [|x a IH]; intros b c d Heq Hlen.
  - exists c. split; [reflexivity|exact Heq].
  - destruct c as [|y c]; [simpl in Hlen; lia|].
    simpl in Heq. injection Heq as -> Heq. simpl in Hlen.
    destruct (IH b c d Heq) as [m [-> ->]]; [lia|].
    exists m. split; reflexivity.
Qed.

Lemma naive_extract_slice (pre mid post : string) :
  codeBlockMatch (pre ++ String "{" (mid ++ String "}" post)) = None ->
  has_char "{" pre = false ->
  has_char "}" post = false ->
  Feedback.extractJSON (pre ++ String "{" (mid ++ String "}" post))
  = Some (String "{" (mid ++ "}")).
Proof.
  intros Hfence Hpre Hpost.
  unfold Feedback.extractJSON. rewrite Hfence.
  change "{"%string with (str1 "{"%char).
  change "}"%string with (str1 "}"%char).
  rewrite (indexOf_char_first "{" pre _ Hpre).
  replace (pre ++ String "{" (mid ++ String "}" post))%string
    with ((pre ++ String "{" mid) ++ String "}" post)%string
    by (rewrite append_assoc; reflexivity).
  rewrite (lastIndexOf_char_last "}" _ post Hpost).
  pose proof (js_length_nonneg pre) as Hnn.
  pose proof (js_length_nonneg (pre ++ String "{" mid)) as Hnn'.
  destruct (Z.eqb_spec (js_length pre) (-1)); [lia|].
  destruct (Z.eqb_spec (js_length (pre ++ String "{" mid)) (-1)); [lia|].
  cbn [orb]. f_equal.
  rewrite js_substring_ordered.
  - rewrite append_assoc.
    replace (Z.to_nat (js_length pre)) with (String.length pre)
      by (unfold js_length; lia).
    replace (Z.to_nat (js_length (pre ++ String "{" mid) + 1 - js_length pre))
      with (String.length (String "{" (mid ++ "}"))).
    + change (String "{" mid ++ String "}" post)%string
        with (String "{" (mid ++ String "}" post)).
      replace (String "{" (mid ++ String "}" post))
        with (String "{" (mid ++ "}") ++ post)%string
        by (simpl; rewrite append_assoc; reflexivity).
      apply substring_middle.
    + rewrite js_length_append. unfold js_length. simpl String.length.
      rewrite length_append. simpl String.length. lia.
  - rewrite js_length_append. pose proof (js_length_nonneg (String "{" mid)).
    lia.
  - rewrite !js_length_append. unfold js_length. simpl String.length. lia.
Qed.

(** X5. The span of the slice. On a text without a fenced block whose
    first opening brace comes before its last closing brace, the
    extractor of the feedback module and that of the research engine
    return the stretch from the one to the other: the text is
    [pre ++ result ++ post] with no opening brace in [pre] and no
    closing brace in [post], and the result starts with an opening brace
    and ends with a closing one. *)
Theorem naive_extract_span (text : string) :
  codeBlockMatch text = None ->
  0 <= indexOf "{" text ->
  indexOf "{" text < lastIndexOf "}" text ->
  exists pre mid post,
    text = (pre ++ String "{" (mid ++ "}") ++ post)%string /\
    has_char "{" pre = false /\
    has_char "}" post = false /\
    Feedback.extractJSON text = Some (String "{" (mid ++ "}")) /\
    ResearchEngine.extractJSON text = Some (String "{" (mid ++ "}")).
Proof.
  intros Hfence Hopen Horder.
  change "{"%string with (str1 "{"%char) in Hopen, Horder.
  change "}"%string with (str1 "}"%char) in Horder.
  destruct (has_char "{" text) eqn:Ho;
    [|rewrite (indexOf_char_absent _ _ Ho) in Hopen; lia].
  destruct (has_char "}" text) eqn:Hc;
    [|rewrite (lastIndexOf_char_absent _ _ Hc) in Horder; lia].
  destruct (has_char_first _ _ Ho) as [pre [r1 [Ht Hpre]]].
  destruct (has_char_last _ _ Hc) as [q [post [Ht' Hpost]]].
  assert (Hs : indexOf (str1 "{") text = js_length pre).
  { rewrite Ht. apply indexOf_char_first. exact Hpre. }
  assert (He : lastIndexOf (str1 "}") text = js_length q).
  { rewrite Ht'. apply lastIndexOf_char_last. exact Hpost. }
  rewrite Hs, He in Horder.
  destruct (append_split pre (String "{" r1) q (String "}" post)) as [m [Hq Hr]].
  { rewrite <- Ht. exact Ht'. }
  { unfold js_length in Horder. lia. }
  destruct m as [|x mid].
  { rewrite append_empty_r in Hq. subst q. lia. }
  simpl in Hr. injection Hr as <- Hr1.
  exists pre, mid, post.
  assert (Htext : text = (pre ++ String "{" (mid ++ String "}" post))%string).
  { rewrite Ht, Hr1. reflexivity. }
  assert (Hshape : (pre ++ String "{" (mid ++ "}") ++ post)%string
                   = (pre ++ String "{" (mid ++ String "}" post))%string).
  { simpl. rewrite append_assoc. reflexivity. }
  split; [rewrite Hshape; exact Htext|].
  split; [exact Hpre|]. split; [exact Hpost|].
  assert (Hres : Feedback.extractJSON text = Some (String "{" (mid ++ "}"))).
  { rewrite Htext. apply naive_extract_slice; [|exact Hpre|exact Hpost].
    rewrite <- Htext. exact Hfence. }
  split; exact Hres.
Qed.

Lemma naive_extract_span_witness :
  exists pre mid post,
    "a } b { c { d } e } f { g"%string
    = (pre ++ String "{" (mid ++ "}") ++ post)%string /\
    has_char "{" pre = false /\
    has_char "}" post = false /\
    Feedback.extractJSON "a } b { c { d } e } f { g"
    = Some (String "{" (mid ++ "}")) /\
    ResearchEngine.extractJSON "a } b { c { d } e } f { g"
    = Some (String "{" (mid ++ "}")).
Proof.
  apply (naive_extract_span "a } b { c { d } e } f { g");
    [reflexivity|discriminate|reflexivity].
Defined.

Lemma substring_0_0 (s : string) : String.substring 0 0 s = EmptyString.
Proof. destruct s; reflexivity. Qed.

(** Once inside an object, the loop returns at the brace that matches
    the opening one. *)
Lemma braceLoop_inside (s : string) :
  forall (d : nat) (i js j k : Z),
  (1 <= d)%nat ->
  js <> -1 ->
  GeminiProvider.braceLoop s i (Z.of_nat d) js = Some (j, k) ->
  j = js /\
  exists n : nat,
    k = i + Z.of_nat n /\
    (n < String.length s)%nat /\
    closesAtEndFrom d (String.substring 0 (S n) s) = true.
Proof.
  induction s as [|c s IH]; intros d i js j k Hd Hjs H; [discriminate|].
  rewrite braceLoop_cons in H.
  destruct (Ascii.eqb c "{") eqn:Hopen.
  - destruct (Z.eqb_spec (Z.of_nat d) 0) as [H0|_]; [lia|].
    replace (Z.of_nat d + 1) with (Z.of_nat (S d)) in H by lia.
    destruct (IH (S d) (i + 1) js j k) as [Hj [n [Hk [Hn Hclose]]]];
      [lia|exact Hjs|exact H|].
    split; [exact Hj|]. exists (S n).
    split; [lia|]. split; [simpl; lia|].
    change (String.substring 0 (S (S n)) (String c s))
      with (String c (String.substring 0 (S n) s)).
    cbn [closesAtEndFrom]. rewrite Hopen. exact Hclose.
  - destruct (Ascii.eqb c "}") eqn:Hclose.
    + destruct (Z.eqb_spec (Z.of_nat d - 1) 0) as [H1|H1].
      * destruct (Z.eqb_spec js (-1)) as [|_]; [contradiction|].
        cbn [andb negb] in H. injection H as <- <-.
        split; [reflexivity|]. exists 0%nat.
        split; [lia|]. split; [simpl; lia|].
        change (String.substring 0 1 (String c s))
          with (String c (String.substring 0 0 s)).
        rewrite substring_0_0. cbn [closesAtEndFrom].
        rewrite Hopen, Hclose.
        destruct d as [|[|d]]; [lia|reflexivity|lia].
      * cbn [andb] in H.
        destruct d as [|[|d]]; [lia|lia|].
        replace (Z.of_nat (S (S d)) - 1) with (Z.of_nat (S d)) in H by lia.
        destruct (IH (S d) (i + 1) js j k) as [Hj [n [Hk [Hn Hcl]]]];
          [lia|exact Hjs|exact H|].
        split; [exact Hj|]. exists (S n).
        split; [lia|]. split; [simpl; lia|].
        change (String.substring 0 (S (S n)) (String c s))
          with (String c (String.substring 0 (S n) s)).
        cbn [closesAtEndFrom]. rewrite Hopen, Hclose. exact Hcl.
    + destruct (IH d (i + 1) js j k) as [Hj [n [Hk [Hn Hcl]]]];
        [exact Hd|exact Hjs|exact H|].
      split; [exact Hj|]. exists (S n).
      split; [lia|]. split; [simpl; lia|].
      change (String.substring 0 (S (S n)) (String c s))
        with (String c (String.substring 0 (S n) s)).
      cbn [closesAtEndFrom]. rewrite Hopen, Hclose. exact Hcl.
Qed.

(** Before any object, the loop can only return on an object it has
    entered. *)
Lemma braceLoop_outside (s : string) :
  forall (i braceCount j k : Z),
  braceCount <= 0 ->
  0 <= i ->
  GeminiProvider.braceLoop s i braceCount (-1) = Some (j, k) ->
  exists p n : nat,
    j = i + Z.of_nat p /\
    k = j + Z.of_nat n /\
    (p + n < String.length s)%nat /\
    balancedObject (String.substring p (S n) s) = true.
Proof.
  induction s as [|c s IH]; intros i bc j k Hbc Hi H; [discriminate|].
  rewrite braceLoop_cons in H.
  destruct (Ascii.eqb c "{") eqn:Hopen.
  - destruct (Z.eqb_spec bc 0) as [->|Hne].
    + change (0 + 1) with (Z.of_nat 1) in H.
      destruct (braceLoop_inside s 1 (i + 1) i j k) as [Hj [n [Hk [Hn Hcl]]]];
        [lia|lia|exact H|].
      exists 0%nat, (S n). split; [lia|]. split; [lia|].
      split; [simpl; lia|].
      change (String.substring 0 (S (S n)) (String c s))
        with (String c (String.substring 0 (S n) s)).
      cbn [balancedObject]. rewrite Hopen. exact Hcl.
    + destruct (IH (i + 1) (bc + 1) j k) as [p [n [Hj [Hk [Hn Hb]]]]];
        [lia|lia|exact H|].
      exists (S p), n. split; [lia|]. split; [lia|].
      split; [simpl; lia|]. exact Hb.
  - destruct (Ascii.eqb c "}").
    + change (negb (-1 =? -1)) with false in H.
      rewrite andb_false_r in H.
      destruct (IH (i + 1) (bc - 1) j k) as [p [n [Hj [Hk [Hn Hb]]]]];
        [lia|lia|exact H|].
      exists (S p), n. split; [lia|]. split; [lia|].
      split; [simpl; lia|]. exact Hb.
    + destruct (IH (i + 1) bc j k) as [p [n [Hj [Hk [Hn Hb]]]]];
        [lia|lia|exact H|].
      exists (S p), n. split; [lia|]. split; [lia|].
      split; [simpl; lia|]. exact Hb.
Qed.

(** X6. On a text without a fenced block, what the extractor of the
    Gemini provider returns is either brace-balanced, an opening brace
    matched by the last character, or the slice from the first opening
    brace to the last closing one that the other two extractors
    return. *)
Theorem gemini_extract_balanced_or_slice (text s : string) :
  codeBlockMatch text = None ->
  GeminiProvider.extractJSON text = Some s ->
  balancedObject s = true \/ Feedback.extractJSON text = Some s.
Proof.
  intros Hfence. unfold GeminiProvider.extractJSON, Feedback.extractJSON.
  rewrite Hfence.
  destruct ((indexOf "{" text =? -1) || (lastIndexOf "}" text =? -1));
    [discriminate|].
  destruct (GeminiProvider.braceLoop text 0 0 (-1)) as [[j k]|] eqn:Hloop.
  - intros H. injection H as <-. left.
    destruct (braceLoop_outside text 0 0 j k) as [p [n [Hj [Hk [Hn Hb]]]]];
      [lia|lia|exact Hloop|].
    rewrite js_substring_ordered; [|lia|unfold js_length; lia].
    replace (Z.to_nat j) with p by lia.
    replace (Z.to_nat (k + 1 - j)) with (S n) by lia.
    exact Hb.
  - intros H. right. exact H.
Qed.

Lemma gemini_extract_balanced_or_slice_witness :
  balancedObject "{ d }" = true \/
  Feedback.extractJSON "a } b { c { d } e } f { g" = Some "{ d }"%string.
Proof.
  apply (gemini_extract_balanced_or_slice "a } b { c { d } e } f { g");
    reflexivity.
Defined.

(** ** The feedback generator: what it returns and what it sends *)

Lemma includes_char (c : ascii) (s : string) :
  includes (str1 c) s = has_char c s.
Proof.
  induction s as [|x s IH].
  - reflexivity.
  - cbn [includes has_char]. rewrite startsWith_char, IH. reflexivity.
Qed.

Lemma has_char_trimStart (c : ascii) (s : string) :
  is_ws c = false -> has_char c (trimStart s) = has_char c s.
Proof.
  intros Hc. induction s as [|x s IH]; [reflexivity|].
  rewrite trimStart_cons. destruct (is_ws x) eqn:Hx; [|reflexivity].
  rewrite IH. cbn [has_char].
  destruct (Ascii.eqb_spec x c) as [->|_]; [congruence|reflexivity].
Qed.

Lemma has_char_trimEnd (c : ascii) (s : string) :
  is_ws c = false -> has_char c (trimEnd s) = has_char c s.
Proof.
  intros Hc. induction s as [|x s IH]; [reflexivity|].
  cbn [trimEnd has_char]. rewrite <- IH.
  destruct (trimEnd s) as [|y t].
  - destruct (is_ws x) eqn:Hx.
    + destruct (Ascii.eqb_spec x c) as [->|_]; [congruence|reflexivity].
    + reflexivity.
  - reflexivity.
Qed.

Lemma includes_question_trim (s : string) :
  includes "?" s = true -> includes "?" (trim s) = true.
Proof.
  change "?"%string with (str1 "?"%char). rewrite !includes_char.
  unfold trim. rewrite has_char_trimEnd, has_char_trimStart by reflexivity.
  auto.
Qed.

Lemma validated_questions_wellformed (questions : list json) :
  Forall (fun q => q <> EmptyString /\ includes "?" q = true)
         (map Feedback.trimmed (filter Feedback.isValidQuestion questions)).
Proof.
  induction questions as [|q questions IH]; [constructor|].
  cbn [filter]. destruct (Feedback.isValidQuestion q) eqn:Hq; [|exact IH].
  cbn [map]. constructor; [|exact IH].
  destruct q as [| | |s| |]; try discriminate.
  cbn [Feedback.isValidQuestion] in Hq. apply andb_true_iff in Hq.
  destruct Hq as [Hlen Hmark]. cbn [Feedback.trimmed]. split.
  - intros Hempty. rewrite Hempty in Hlen. discriminate.
  - apply includes_question_trim. exact Hmark.
Qed.

Lemma questionsOf_wellformed (a b text : string) (n : Z) (l : list string) :
  Feedback.questionsOf a b text n = Returned l ->
  Forall (fun q => q <> EmptyString /\ includes "?" q = true) l.
Proof.
  unfold Feedback.questionsOf.
  destruct (Feedback.extractJSON text) as [[|c s]|]; try discriminate.
  destruct (JSON_parse (String c s)) as [parsed|]; try discriminate.
  unfold Feedback.validQuestions.
  destruct parsed as [| | | | |members]; try discriminate.
  destruct (get_member "questions" members) as [[| | | |questions|]|];
    try discriminate.
  pose proof (slice0_Forall _ _ n (validated_questions_wellformed questions))
    as Hall.
  destruct (slice0 _ n) as [|q qs]; [discriminate|].
  intros H. injection H as <-. exact Hall.
Qed.

(** X7. Asked for at least one question, [generateFeedback] never
    throws and returns at least one question and no more than asked
    for, whatever the model and the parser do; it sends no search. *)
Theorem generateFeedback_count (svc : Services) (args : Feedback.FeedbackArgs)
    (st : State (World svc)) :
  1 <= asked args ->
  exists qs st',
    Feedback.generateFeedback svc args st = (Returned qs, st') /\
    1 <= Z.of_nat (List.length qs) <= asked args /\
    searches (trace st') = searches (trace st).
Proof.
  intros Hn.
  destruct (generateFeedback_cases svc args st)
    as [qs [st' [Hrun [Hs [Hdef|Hmodel]]]]].
  - exists qs, st'. split; [exact Hrun|]. split; [|exact Hs].
    subst qs. rewrite slice0_length by lia.
    unfold Feedback.defaultQuestions. simpl List.length. lia.
  - destruct Hmodel as [p [w [r [w' [text [_ [_ Hfirst]]]]]]].
    exists qs, st'. split; [exact Hrun|]. split; [|exact Hs].
    unfold Feedback.firstAttempt in Hfirst.
    apply questionsOf_returned in Hfirst; lia.
Qed.

Lemma generateFeedback_count_witness :
  exists qs st',
    Feedback.generateFeedback Scenario.scripted
      {| Feedback.query := "tides"; Feedback.numQuestions := Some 2 |}
      (Scenario.start [Returned Scenario.oneQuestion] [])
    = (Returned qs, st') /\
    1 <= Z.of_nat (List.length qs) <= 2 /\
    searches (trace st') = [].
Proof.
  apply (generateFeedback_count Scenario.scripted
           {| Feedback.query := "tides"; Feedback.numQuestions := Some 2 |}
           (Scenario.start [Returned Scenario.oneQuestion] [])).
  unfold asked. simpl. lia.
Defined.

(** X8. On every path, each question [generateFeedback] returns is a
    string that is not empty and holds a question mark: the questions of
    the model are kept only when they do, trimming does not remove the
    mark, and the default questions do. *)
Theorem generateFeedback_questions_wellformed (svc : Services)
    (args : Feedback.FeedbackArgs) (st : State (World svc)) :
  exists qs st',
    Feedback.generateFeedback svc args st = (Returned qs, st') /\
    Forall (fun q => q <> EmptyString /\ includes "?" q = true) qs.
Proof.
  destruct (generateFeedback_cases svc args st)
    as [qs [st' [Hrun [_ [Hdef|Hmodel]]]]].
  - exists qs, st'. split; [exact Hrun|]. subst qs.
    apply slice0_Forall. apply defaultQuestions_wellformed.
  - destruct Hmodel as [p [w [r [w' [text [_ [_ Hfirst]]]]]]].
    exists qs, st'. split; [exact Hrun|].
    unfold Feedback.firstAttempt in Hfirst.
    eapply questionsOf_wellformed. exact Hfirst.
Qed.

Lemma generates_app (l1 l2 : list Event) :
  generates (l1 ++ l2) = generates l1 ++ generates l2.
Proof.
  induction l1 as [|[ms|q l t|p] l1 IH]; simpl; rewrite ?IH; reflexivity.
Qed.

Lemma generates_attempts (p : string) (ws : list Z) :
  generates (attemptsTrace (EvGenerate p) ws) = repeat p (S (List.length ws)).
Proof.
  induction ws as [|w ws IH]; [reflexivity|].
  cbn [attemptsTrace generates]. rewrite IH. reflexivity.
Qed.

Lemma generateText_trace (svc : Services) (p : string)
    (st : State (World svc)) :
  exists ws, (List.length ws <= 3)%nat /\
    trace (snd (Feedback.generateText svc p st))
    = trace st ++ attemptsTrace (EvGenerate p) ws.
Proof.
  unfold Feedback.generateText, bind, limit, lift.
  rewrite Feedback_retry_scheme.
  destruct (retryWith_trace messageSaysRateLimit 2 (EvGenerate p)
              (model_generateContent svc p) Feedback.default_retries
              Feedback.default_baseDelay st) as [ws [Hlen Htr]].
  exists ws. split; [exact Hlen|].
  destruct (retryWith messageSaysRateLimit 2 _ _ _ st) as [[r|e] st1];
    exact Htr.
Qed.

(** X9. The requests of [generateFeedback]. It sends the prompt between
    one and four times, then the amended prompt at most four times, and
    no other request to the model; in all it pauses at most six times. *)
Theorem generateFeedback_request_budget (svc : Services)
    (args : Feedback.FeedbackArgs) (st : State (World svc)) :
  let st' := snd (Feedback.generateFeedback svc args st) in
  exists n1 n2 : nat,
    (1 <= n1 <= 4)%nat /\ (n2 <= 4)%nat /\
    generates (trace st')
    = generates (trace st)
      ++ repeat (Feedback.prompt (Feedback.query args) (asked args)) n1
      ++ repeat (Feedback.retryPrompt (Feedback.query args) (asked args)) n2
    /\
    (List.length (waits (trace st')) <= List.length (waits (trace st)) + 6)%nat.
Proof.
  cbv zeta. unfold Feedback.generateFeedback. fold (asked args).
  set (n := asked args). set (q := Feedback.query args).
  unfold try_catch, bind, lift.
  destruct (generateText_trace svc (Feedback.prompt q n) st)
    as [ws1 [Hl1 Ht1]].
  assert (Hone : forall st1 : State (World svc),
            trace st1 = trace st ++ attemptsTrace (EvGenerate (Feedback.prompt q n)) ws1 ->
            exists n1 n2 : nat,
              (1 <= n1 <= 4)%nat /\ (n2 <= 4)%nat /\
              generates (trace st1)
              = generates (trace st) ++ repeat (Feedback.prompt q n) n1
                ++ repeat (Feedback.retryPrompt q n) n2 /\
              (List.length (waits (trace st1))
               <= List.length (waits (trace st)) + 6)%nat).
  { intros st1 H. exists (S (List.length ws1)), 0%nat.
    split; [lia|]. split; [lia|]. rewrite H. split.
    - rewrite generates_app, generates_attempts.
      cbn [repeat]. rewrite app_nil_r. reflexivity.
    - rewrite waits_app, waits_attempts_generate, length_app. lia. }
  assert (Htwo : forall (st1 st2 : State (World svc)) ws2,
            trace st1 = trace st ++ attemptsTrace (EvGenerate (Feedback.prompt q n)) ws1 ->
            (List.length ws2 <= 3)%nat ->
            trace st2 = trace st1 ++ attemptsTrace (EvGenerate (Feedback.retryPrompt q n)) ws2 ->
            exists n1 n2 : nat,
              (1 <= n1 <= 4)%nat /\ (n2 <= 4)%nat /\
              generates (trace st2)
              = generates (trace st) ++ repeat (Feedback.prompt q n) n1
                ++ repeat (Feedback.retryPrompt q n) n2 /\
              (List.length (waits (trace st2))
               <= List.length (waits (trace st)) + 6)%nat).
  { intros st1 st2 ws2 H1 Hl2 H2.
    exists (S (List.length ws1)), (S (List.length ws2)).
    split; [lia|]. split; [lia|]. rewrite H2, H1. split.
    - rewrite !generates_app, !generates_attempts, <- app_assoc.
      reflexivity.
    - rewrite !waits_app, !waits_attempts_generate, !length_app. lia. }
  destruct (Feedback.generateText svc (Feedback.prompt q n) st)
    as [[text|e] st1]; cbn [snd] in Ht1.
  - destruct (Feedback.firstAttempt text n) as [l|e].
    + cbn [snd]. apply Hone. exact Ht1.
    + destruct (generateText_trace svc (Feedback.retryPrompt q n) st1)
        as [ws2 [Hl2 Ht2]].
      destruct (Feedback.generateText svc (Feedback.retryPrompt q n) st1)
        as [[retryText|e2] st2]; cbn [snd] in Ht2.
      * destruct (Feedback.secondAttempt retryText n) as [l|e3];
          cbn [snd]; apply (Htwo st1 st2 ws2); assumption.
      * cbn [snd]. apply (Htwo st1 st2 ws2); assumption.
  - cbn [snd]. apply Hone. exact Ht1.
Qed.

(** ** The search client: what it returns, when it pauses *)

Lemma compact_nonempty (l : list (option string)) :
  Forall (fun s => s <> EmptyString) (WebSearch.compact l).
Proof.
  induction l as [|[[|c s]|] l IH]; cbn [WebSearch.compact]; auto.
  constructor; [discriminate|exact IH].
Qed.

Lemma compact_length (l : list (option string)) :
  (List.length (WebSearch.compact l) <= List.length l)%nat.
Proof.
  induction l as [|[[|c s]|] l IH]; cbn [WebSearch.compact List.length]; lia.
Qed.

Lemma mapItems_length (svc : Services) (items : list SearchItem) :
  forall l, WebSearch.mapItems svc items = Returned l ->
            List.length l = List.length items.
Proof.
  induction items as [|item items IH]; intros l H.
  - injection H as <-. reflexivity.
  - cbn [WebSearch.mapItems] in H.
    destruct (match markdown item with
              | None => Returned None
              | Some EmptyString => Returned None
              | Some content =>
                  match trimPrompt svc content 15000 with
                  | Returned t => Returned (Some t)
                  | Thrown e => Thrown e
                  end
              end) as [x|e]; [|discriminate].
    destruct (WebSearch.mapItems svc items) as [xs|e]; [|discriminate].
    injection H as <-. simpl. rewrite (IH xs eq_refl). reflexivity.
Qed.

Lemma last_attempts (ev : Event) (ws : list Z) (tr : list Event) (d : Event) :
  last (tr ++ attemptsTrace ev ws) d = ev.
Proof.
  assert (H : exists front, attemptsTrace ev ws = front ++ [ev]).
  { induction ws as [|w ws [front IH]].
    - exists []. reflexivity.
    - exists (ev :: EvDelay w :: front). simpl. rewrite IH. reflexivity. }
  destruct H as [front ->]. rewrite app_assoc. apply last_last.
Qed.

(** The three ways [searchWeb] ends. *)
Lemma searchWeb_cases (svc : Services) (query : string) (depth : Z)
    (st : State (World svc)) :
  let attempt :=
    WebSearch.retry svc (WebSearch.searchRequest svc query depth) 3 2000 st in
  (exists ws, (List.length ws <= 3)%nat /\
     trace (snd attempt)
     = trace st ++ attemptsTrace
         (EvSearch query (Z.min (depth * 2) 5) 30000) ws) /\
  ((exists result contents,
      fst attempt = Returned result /\
      WebSearch.extractContents svc result = Returned contents /\
      WebSearch.searchWeb svc query depth st
      = (Returned contents,
         mkState (world (snd attempt))
                 (trace (snd attempt) ++ [EvDelay 1000])))
   \/
   ((forall result, fst attempt = Returned result ->
       exists e, WebSearch.extractContents svc result = Thrown e) /\
    WebSearch.searchWeb svc query depth st = (Returned [], snd attempt))).
Proof.
  intros attempt. split.
  - subst attempt. unfold WebSearch.searchRequest.
    rewrite WebSearch_retry_scheme. apply retryWith_trace.
  - unfold WebSearch.searchWeb, try_catch, bind, limit,
      WebSearch.default_retries, WebSearch.default_baseDelay.
    fold attempt. destruct attempt as [[result|e] st1]; cbn [fst snd].
    + unfold lift.
      destruct (WebSearch.extractContents svc result) as [l|e'] eqn:Hex.
      * left. exists result, l. repeat split; assumption.
      * right. split; [|reflexivity].
        intros result' H. injection H as <-. eauto.
    + right. split; [|reflexivity]. intros result' H. discriminate.
Qed.

(** X10. Whatever the service answers, [searchWeb] returns no empty
    string, and when the call succeeds it returns no more strings than
    the answer has items. *)
Theorem searchWeb_results (svc : Services) (query : string) (depth : Z)
    (st : State (World svc)) :
  exists contents st',
    WebSearch.searchWeb svc query depth st = (Returned contents, st') /\
    Forall (fun c => c <> EmptyString) contents /\
    (forall result items,
       fst (WebSearch.retry svc (WebSearch.searchRequest svc query depth)
              3 2000 st) = Returned result ->
       data result = Some items ->
       (List.length contents <= List.length items)%nat).
Proof.
  destruct (searchWeb_cases svc query depth st)
    as [_ [[result [contents [Hres [Hex Hrun]]]]|[Hbad Hrun]]].
  - eexists. eexists. split; [exact Hrun|].
    unfold WebSearch.extractContents in Hex.
    destruct (data result) as [items|] eqn:Hdata; [|discriminate].
    destruct (WebSearch.mapItems svc items) as [l|e] eqn:Hmap; [|discriminate].
    injection Hex as <-. split; [apply compact_nonempty|].
    intros result' items' Hres' Hdata'.
    rewrite Hres in Hres'. injection Hres' as <-.
    rewrite Hdata in Hdata'. injection Hdata' as <-.
    rewrite <- (mapItems_length svc items l Hmap). apply compact_length.
  - eexists. eexists. split; [exact Hrun|]. split; [constructor|].
    intros. simpl. lia.
Qed.

Lemma searchWeb_results_witness :
  exists contents st',
    WebSearch.searchWeb Scenario.scripted "cats" 2
      (Scenario.start []
         [Returned {| data := Some [ {| markdown := Some "abc" |};
                                     {| markdown := None |} ] |}])
    = (Returned contents, st') /\
    Forall (fun c => c <> EmptyString) contents /\
    (List.length contents <= 2)%nat.
Proof.
  destruct (searchWeb_results Scenario.scripted "cats" 2
              (Scenario.start []
                 [Returned {| data := Some [ {| markdown := Some "abc" |};
                                             {| markdown := None |} ] |}]))
    as [contents [st' [Hrun [Hne Hlen]]]].
  exists contents, st'. split; [exact Hrun|]. split; [exact Hne|].
  apply (Hlen {| data := Some [ {| markdown := Some "abc" |};
                                {| markdown := None |} ] |}
              [ {| markdown := Some "abc" |}; {| markdown := None |} ]);
    reflexivity.
Defined.

(** X11. The one-second pause of [searchWeb] follows a success only.
    When the call succeeds and the answer is read, the last event of
    the run is the pause of 1000 ms; when the call fails for good, the
    last event is the last search request, with no pause after it. *)
Theorem searchWeb_pause_on_success_only (svc : Services) (query : string)
    (depth : Z) (st : State (World svc)) :
  let attempt :=
    WebSearch.retry svc (WebSearch.searchRequest svc query depth) 3 2000 st in
  let st' := snd (WebSearch.searchWeb svc query depth st) in
  (forall result contents,
     fst attempt = Returned result ->
     WebSearch.extractContents svc result = Returned contents ->
     last (trace st') (EvDelay 0) = EvDelay 1000) /\
  (forall e,
     fst attempt = Thrown e ->
     last (trace st') (EvDelay 0)
     = EvSearch query (Z.min (depth * 2) 5) 30000).
Proof.
  intros attempt st'. subst st'.
  destruct (searchWeb_cases svc query depth st)
    as [[ws [_ Htr]] [[result [contents [Hres [Hex Hrun]]]]|[Hbad Hrun]]];
    fold attempt in Htr, Hrun; try fold attempt in Hres; try fold attempt in Hbad.
  - split.
    + intros _ _ _ _. rewrite Hrun. cbn [snd trace]. apply last_last.
    + intros e He. rewrite Hres in He. discriminate.
  - split.
    + intros result contents Hres Hex.
      destruct (Hbad result Hres) as [e He]. rewrite Hex in He. discriminate.
    + intros e He. rewrite Hrun. cbn [snd]. rewrite Htr.
      apply last_attempts.
Qed.

Lemma searchWeb_pause_on_success_only_witness :
  last (trace (snd (WebSearch.searchWeb Scenario.scripted "cats" 2
                      (Scenario.start [] []))))
       (EvDelay 0)
  = EvSearch "cats" (Z.min (2 * 2) 5) 30000.
Proof.
  apply (proj2 (searchWeb_pause_on_success_only Scenario.scripted "cats" 2
                  (Scenario.start [] []))
               (Error "no answer")).
  reflexivity.
Defined.

(** ** The steps of the orchestrator *)

Lemma searchWeb_total (svc : Services) (query : string) (depth : Z)
    (st : State (World svc)) :
  exists contents st',
    WebSearch.searchWeb svc query depth st = (Returned contents, st') /\
    (List.length (searches (trace st'))
     <= List.length (searches (trace st)) + 4)%nat.
Proof.
  destruct (searchWeb_cases svc query depth st)
    as [[ws [Hlen Htr]] [[result [contents [_ [_ Hrun]]]]|[_ Hrun]]];
    eexists; eexists; (split; [exact Hrun|]); cbn [trace].
  - rewrite searches_app, Htr, searches_app, searches_attempts, !length_app,
      repeat_length. simpl. lia.
  - rewrite Htr, searches_app, searches_attempts, length_app, repeat_length.
    lia.
Qed.

Lemma searchLoop_steps (svc : Services) (queries : list string) (depth : Z) :
  forall st : State (World svc),
  exists results st',
    ResearchEngine.searchLoop svc (WebSearch.searchWeb svc) queries depth st
    = (Returned results, st').
Proof.
  induction queries as [|q rest IH]; intros st.
  - exists [], st. reflexivity.
  - cbn [ResearchEngine.searchLoop]. unfold bind at 1.
    destruct (searchWeb_total svc q depth st) as [contents [st1 [Hrun _]]].
    rewrite Hrun. unfold bind at 1.
    assert (Hpause : exists st2,
              (match rest with
               | [] => ret tt
               | _ :: _ => delay 1000
               end) st1 = (Returned tt, st2)).
    { destruct rest; eexists; reflexivity. }
    destruct Hpause as [st2 Hp]. rewrite Hp. unfold bind at 1.
    destruct (IH st2) as [results [st3 Hloop]].
    rewrite Hloop. eexists. eexists. reflexivity.
Qed.


Lemma queriesOf_returned (text : string) (n : Z) (l : list string) :
  0 <= n ->
  ResearchSteps.queriesOf text n = Returned l ->
  (1 <= Z.of_nat (List.length l) <= n).
Proof.
  intros Hn. unfold ResearchSteps.queriesOf.
  destruct (ResearchEngine.extractJSON text) as [[|c s]|]; try discriminate.
  destruct (JSON_parse (String c s)) as [parsed|]; try discriminate.
  unfold ResearchSteps.validQueries.
  destruct parsed as [| | | | |members]; try discriminate.
  destruct (get_member "queries" members) as [[| | | |queries|]|];
    try discriminate.
  pose proof (slice0_length
                (map ResearchSteps.trimmed
                     (filter ResearchSteps.isValidQuery queries)) n Hn) as Hlen.
  destruct (slice0 _ n) as [|q qs]; [discriminate|].
  intros H. injection H as <-.
  simpl List.length in *. lia.
Qed.

(** [generateSerpQueries] always returns, sends no search, and returns
    either the variations of the query cut to the breadth or the queries
    read from an answer of the model. *)
Lemma generateSerpQueries_cases (svc : Services) (query : string)
    (breadth : Z) (st : State (World svc)) :
  exists qs st',
    ResearchSteps.generateSerpQueries svc query breadth st
    = (Returned qs, st') /\
    searches (trace st') = searches (trace st) /\
    (qs = slice0 (ResearchSteps.fallbackQueries query) breadth
     \/
     exists w r w' text,
       model_generateContent svc (ResearchSteps.prompt query breadth) w
       = (Returned r, w') /\
       response_text r = Returned text /\
       ResearchSteps.queriesOf text breadth = Returned qs).
Proof.
  unfold ResearchSteps.generateSerpQueries, try_catch, bind, limit, lift.
  rewrite ResearchEngine_retry_scheme.
  set (p := ResearchSteps.prompt query breadth).
  destruct (retryWith_trace messageSaysRateLimit 4 (EvGenerate p)
              (model_generateContent svc p) ResearchSteps.default_retries
              ResearchSteps.default_baseDelay st) as [ws [_ Htr]].
  pose proof (retryWith_returned_from_op messageSaysRateLimit 4
                (EvGenerate p) (model_generateContent svc p)
                ResearchSteps.default_retries
                ResearchSteps.default_baseDelay st) as Hfrom.
  assert (Hs : forall st1 : State (World svc),
            trace st1 = trace st ++ attemptsTrace (EvGenerate p) ws ->
            searches (trace st1) = searches (trace st)).
  { intros st1 H. rewrite H, searches_app, searches_attempts_generate.
    apply app_nil_r. }
  destruct (retryWith messageSaysRateLimit 4 _ _ _ st) as [[r|e] st1];
    cbn [fst snd] in *.
  - destruct (response_text r) as [text|e] eqn:Htext.
    + destruct (ResearchSteps.queriesOf text breadth) as [l|e] eqn:Hq.
      * exists l, st1. split; [reflexivity|]. split; [auto|]. right.
        destruct (Hfrom r eq_refl) as [w [w' Hop]].
        exists w, r, w', text. auto.
      * eexists. exists st1. split; [reflexivity|]. split; [auto|].
        left. reflexivity.
    + eexists. exists st1. split; [reflexivity|]. split; [auto|].
      left. reflexivity.
  - eexists. exists st1. split; [reflexivity|]. split; [auto|].
    left. reflexivity.
Qed.

(** X13. Asked for a breadth of at least one, [generateSerpQueries]
    never throws and returns at least one query and no more than the
    breadth, whatever the model and the parser do; it sends no search. *)
Theorem generateSerpQueries_count (svc : Services) (query : string)
    (breadth : Z) (st : State (World svc)) :
  1 <= breadth ->
  exists qs st',
    ResearchSteps.generateSerpQueries svc query breadth st
    = (Returned qs, st') /\
    1 <= Z.of_nat (List.length qs) <= breadth /\
    searches (trace st') = searches (trace st).
Proof.
  intros Hb.
  destruct (generateSerpQueries_cases svc query breadth st)
    as [qs [st' [Hrun [Hs [Hdef|Hmodel]]]]].
  - exists qs, st'. split; [exact Hrun|]. split; [|exact Hs].
    subst qs. rewrite slice0_length by lia.
    unfold ResearchSteps.fallbackQueries. simpl List.length. lia.
  - destruct Hmodel as [w [r [w' [text [_ [_ Hq]]]]]].
    exists qs, st'. split; [exact Hrun|]. split; [|exact Hs].
    apply queriesOf_returned in Hq; lia.
Qed.

Lemma generateSerpQueries_count_witness :
  exists qs st',
    ResearchSteps.generateSerpQueries Scenario.chatty "tides" 2 (mkState tt [])
    = (Returned qs, st') /\
    1 <= Z.of_nat (List.length qs) <= 2 /\
    searches (trace st') = [].
Proof.
  apply (generateSerpQueries_count Scenario.chatty "tides" 2 (mkState tt [])).
  lia.
Defined.

(** X14. When no answer of the model gives queries,
    [generateSerpQueries] returns the first [min (breadth, 4)] of the
    query itself and its three variations: for a breadth of at least
    one the first query searched is the original query, and a breadth
    above four gets four queries. *)
Theorem generateSerpQueries_fallback (svc : Services) (query : string)
    (breadth : Z) (st : State (World svc)) :
  1 <= breadth ->
  (forall p w r w' text,
     model_generateContent svc p w = (Returned r, w') ->
     response_text r = Returned text ->
     yieldsQueries text breadth = false) ->
  exists qs st',
    ResearchSteps.generateSerpQueries svc query breadth st
    = (Returned qs, st') /\
    Z.of_nat (List.length qs) = Z.min breadth 4 /\
    nth_error qs 0 = Some query /\
    qs = firstn (List.length qs)
           [query; (query ++ " comparison")%string;
            (query ++ " review")%string; (query ++ " worth it")%string].
Proof.
  intros Hb Hnever.
  destruct (generateSerpQueries_cases svc query breadth st)
    as [qs [st' [Hrun [_ [Hdef|Hmodel]]]]].
  - exists qs, st'. split; [exact Hrun|].
    assert (Hlen : Z.of_nat (List.length qs) = Z.min breadth 4).
    { subst qs. rewrite slice0_length by lia. reflexivity. }
    split; [exact Hlen|].
    assert (Hfirst : qs = firstn (List.length qs)
                            (ResearchSteps.fallbackQueries query)).
    { subst qs. unfold slice0, ResearchSteps.fallbackQueries.
      generalize (Z.to_nat
                    (if breadth <? 0
                     then Z.max
                            (Z.of_nat
                               (List.length
                                  [query; (query ++ " comparison")%string;
                                   (query ++ " review")%string;
                                   (query ++ " worth it")%string]) + breadth) 0
                     else Z.min breadth
                            (Z.of_nat
                               (List.length
                                  [query; (query ++ " comparison")%string;
                                   (query ++ " review")%string;
                                   (query ++ " worth it")%string])))).
      intros k. destruct k as [|[|[|[|[|k]]]]]; reflexivity. }
    split; [|exact Hfirst].
    rewrite Hfirst.
    destruct (List.length qs) as [|k]; [lia|]. reflexivity.
  - destruct Hmodel as [w [r [w' [text [Hop [Htext Hq]]]]]].
    pose proof (Hnever _ w r w' text Hop Htext) as Hno.
    unfold yieldsQueries in Hno. rewrite Hq in Hno. discriminate.
Qed.

Lemma generateSerpQueries_fallback_witness :
  exists qs st',
    ResearchSteps.generateSerpQueries Scenario.chatty "tides" 6 (mkState tt [])
    = (Returned qs, st') /\
    Z.of_nat (List.length qs) = Z.min 6 4 /\
    nth_error qs 0 = Some "tides"%string /\
    qs = firstn (List.length qs)
           ["tides"; "tides comparison"; "tides review"; "tides worth it"]%string.
Proof.
  apply (generateSerpQueries_fallback Scenario.chatty "tides" 6
           (mkState tt [])).
  - lia.
  - intros p w r w' text Hop Htext. simpl in Hop.
    injection Hop as <- _. simpl in Htext. injection Htext as <-.
    reflexivity.
Defined.

(** X15. With the feedback generator, the query generator and the
    search client of the modules, the only step that can make
    [deepResearch] report an error is the analysis: if [processContents]
    never throws, the result never carries an error, whatever the
    services do. *)
Theorem deepResearch_error_only_from_analysis (svc : Services)
    (processContents :
       string -> list string -> M (World svc) ResearchEngine.Analysis)
    (query : string) (breadth depth : Z) (st : State (World svc)) :
  (forall q contents s, exists a s',
      processContents q contents s = (Returned a, s')) ->
  exists result st',
    ResearchSteps.deepResearch_wired svc processContents query breadth depth st
    = (Returned result, st') /\
    ResearchEngine.error result = None.
Proof.
  intros Htotal.
  unfold ResearchSteps.deepResearch_wired, ResearchEngine.deepResearch,
    try_catch, ResearchEngine.deepResearch_try.
  destruct ((breadth =? 1) && (depth =? 1)).
  - unfold bind.
    destruct (generateFeedback_cases svc
                {| Feedback.query := query; Feedback.numQuestions := Some 3 |}
                st) as [qs [st1 [Hrun _]]].
    rewrite Hrun. eexists. eexists. split; reflexivity.
  - unfold bind.
    destruct (generateSerpQueries_cases svc query breadth st)
      as [qs [st1 [Hq _]]].
    rewrite Hq.
    destruct (searchLoop_steps svc qs depth st1) as [rs [st2 Hloop]].
    rewrite Hloop.
    destruct (Htotal query (List.concat rs) st2) as [a [st3 Hpc]].
    rewrite Hpc. eexists. eexists. split; reflexivity.
Qed.

Lemma deepResearch_error_only_from_analysis_witness :
  exists result st',
    ResearchSteps.deepResearch_wired Scenario.scripted
      (fun _ contents => ret (ResearchSteps.processContents_fallback contents))
      "tides" 2 1 (Scenario.start [] [])
    = (Returned result, st') /\
    ResearchEngine.error result = None.
Proof.
  apply (deepResearch_error_only_from_analysis Scenario.scripted
           (fun _ contents =>
              ret (ResearchSteps.processContents_fallback contents))
           "tides" 2 1 (Scenario.start [] [])).
  intros q contents s. eexists. eexists. reflexivity.
Defined.

(** X16. Which fields the result of [deepResearch] carries, whatever
    the steps do: the feedback questions are present only when breadth
    and depth are both 1 and nothing was thrown, and then the search
    queries are empty and the report is empty; a result with an error
    has no feedback questions. *)
Theorem deepResearch_fields (svc : Services)
    (generateFeedback : Feedback.FeedbackArgs -> M (World svc) (list string))
    (generateSerpQueries searchWeb : string -> Z -> M (World svc) (list string))
    (processContents :
       string -> list string -> M (World svc) ResearchEngine.Analysis)
    (query : string) (breadth depth : Z) (st : State (World svc))
    (result : ResearchEngine.ResearchResult) (st' : State (World svc)) :
  ResearchEngine.deepResearch svc generateFeedback generateSerpQueries
    searchWeb processContents query breadth depth st
  = (Returned result, st') ->
  (forall qs, ResearchEngine.feedbackQuestions result = Some qs ->
     breadth = 1 /\ depth = 1 /\
     ResearchEngine.error result = None /\
     ResearchEngine.searchQueries result = [] /\
     ResearchEngine.report result
     = {| ResearchEngine.executiveSummary := EmptyString;
          ResearchEngine.report_keyFindings := [];
          ResearchEngine.report_sources := [] |}) /\
  (ResearchEngine.error result <> None ->
   ResearchEngine.feedbackQuestions result = None /\
   ResearchEngine.report result = ResearchEngine.failedReport).
Proof.
  unfold ResearchEngine.deepResearch, try_catch,
    ResearchEngine.deepResearch_try.
  destruct ((breadth =? 1) && (depth =? 1)) eqn:Hmode.
  - apply andb_true_iff in Hmode. destruct Hmode as [Hb Hd].
    apply Z.eqb_eq in Hb, Hd. unfold bind.
    destruct (generateFeedback _ st) as [[qs|e] st1];
      intros H; injection H as <- _; cbn; split.
    + intros qs' _. repeat split; assumption.
    + intros H. contradiction.
    + intros qs' H. discriminate.
    + intros _. split; reflexivity.
  - unfold bind.
    destruct (generateSerpQueries query breadth st) as [[qs|e] st1].
    + destruct (ResearchEngine.searchLoop svc searchWeb qs depth st1)
        as [[rs|e] st2].
      * destruct (processContents query (List.concat rs) st2)
          as [[a|e] st3];
          intros H; injection H as <- _; cbn; split;
          try (intros qs' H; discriminate);
          try (intros H; contradiction);
          intros _; split; reflexivity.
      * intros H; injection H as <- _; cbn; split;
          [intros qs' H; discriminate|intros _; split; reflexivity].
    + intros H; injection H as <- _; cbn; split;
        [intros qs' H; discriminate|intros _; split; reflexivity].
Qed.

Lemma deepResearch_fields_witness :
  1 = 1 /\ 1 = 1 /\
  ResearchEngine.error
    (ResearchEngine.Build_ResearchResult "quantum computing"
       (Some ["Which decade?"%string]) None []
       (ResearchEngine.Build_Report EmptyString [] [])) = None /\
  ResearchEngine.searchQueries
    (ResearchEngine.Build_ResearchResult "quantum computing"
       (Some ["Which decade?"%string]) None []
       (ResearchEngine.Build_Report EmptyString [] [])) = [] /\
  ResearchEngine.report
    (ResearchEngine.Build_ResearchResult "quantum computing"
       (Some ["Which decade?"%string]) None []
       (ResearchEngine.Build_Report EmptyString [] []))
  = ResearchEngine.Build_Report EmptyString [] [].
Proof.
  apply (proj1 (deepResearch_fields Scenario.scripted
                  (Feedback.generateFeedback Scenario.scripted)
                  Scenario.noQueries (WebSearch.searchWeb Scenario.scripted)
                  Scenario.noAnalysis "quantum computing" 1 1
                  (Scenario.start [Returned Scenario.oneQuestion] [])
                  _ _ eq_refl)
               ["Which decade?"%string] eq_refl).
Defined.

(** ** The chunking and the merge of the analysis *)

Lemma nonEmpty_length (s : string) :
  nonEmpty s = false -> js_length s = 0.
Proof. destruct s; [reflexivity|discriminate]. Qed.

Lemma chunkLoop_nonempty (contents : list string) :
  forall (chunks : list string) (currentChunk : string),
  Forall (fun c => js_length c <= ResearchEngine.maxChunkSize) contents ->
  Forall (fun ch => ch <> EmptyString) chunks ->
  let (chunks', last) :=
    ResearchEngine.chunkLoop contents chunks currentChunk in
  Forall (fun ch => ch <> EmptyString) chunks' /\
  (List.length chunks' + b2n (nonEmpty last)
   <= List.length chunks + b2n (nonEmpty currentChunk)
      + List.length contents)%nat.
Proof.
  unfold ResearchEngine.maxChunkSize.
  induction contents as [|content rest IH]; intros chunks cur Hitems Hchunks.
  - cbn [ResearchEngine.chunkLoop]. split; [exact Hchunks|]. simpl. lia.
  - inversion Hitems as [|? ? Hc Hrest]; subst.
    cbn [ResearchEngine.chunkLoop]. unfold ResearchEngine.maxChunkSize.
    destruct (Z.gtb_spec (js_length cur + js_length content) 15000)
      as [Hgt|Hle].
    + assert (Hcur : cur <> EmptyString).
      { intros ->. unfold js_length in Hgt, Hc. simpl in Hgt. lia. }
      specialize (IH (chunks ++ [cur]) content Hrest).
      destruct (ResearchEngine.chunkLoop rest (chunks ++ [cur]) content)
        as [chunks' last].
      destruct IH as [Hne Hcount].
      { apply Forall_app. split; [exact Hchunks|].
        constructor; [exact Hcur|constructor]. }
      split; [exact Hne|].
      rewrite length_app in Hcount. simpl List.length in *.
      destruct cur; [contradiction|].
      destruct (nonEmpty content); simpl in *; lia.
    + specialize (IH chunks (cur ++ nl ++ nl ++ content)%string Hrest Hchunks).
      destruct (ResearchEngine.chunkLoop rest chunks
                  (cur ++ nl ++ nl ++ content)) as [chunks' last].
      destruct IH as [Hne Hcount].
      split; [exact Hne|].
      assert (Hb : nonEmpty (cur ++ nl ++ nl ++ content) = true).
      { destruct cur; reflexivity. }
      rewrite Hb in Hcount. simpl List.length. simpl b2n in Hcount.
      destruct (nonEmpty cur); simpl; lia.
Qed.

(** X17. When no item is longer than 15,000 characters, the chunking
    step returns no empty chunk, no chunk longer than 15,002 characters
    and no more chunks than there are items. *)
Theorem chunks_of_bounded_items (contents : list string) :
  Forall (fun c => js_length c <= 15000) contents ->
  let chunks := ResearchEngine.processContents_chunks contents in
  Forall (fun ch => ch <> EmptyString /\ js_length ch <= 15002) chunks /\
  (List.length chunks <= List.length contents)%nat.
Proof.
  intros Hitems chunks. subst chunks.
  unfold ResearchEngine.processContents_chunks.
  assert (Hempty : js_length EmptyString <= ResearchEngine.maxChunkSize + 2).
  { unfold ResearchEngine.maxChunkSize, js_length. simpl. lia. }
  pose proof (chunkLoop_bound contents [] EmptyString Hitems
                (Forall_nil _) Hempty) as Hbound.
  pose proof (chunkLoop_nonempty contents [] EmptyString Hitems
                (Forall_nil _)) as Hne.
  destruct (ResearchEngine.chunkLoop contents [] EmptyString)
    as [chunks last].
  destruct Hbound as [Hb Hlast]. destruct Hne as [Hn Hcount].
  unfold ResearchEngine.maxChunkSize in Hb, Hlast.
  assert (Hall : Forall (fun ch => ch <> EmptyString /\ js_length ch <= 15002)
                        chunks).
  { rewrite Forall_forall in *. intros ch Hin. split; [auto|].
    apply Hb. exact Hin. }
  destruct last as [|c last].
  - split; [exact Hall|]. simpl in Hcount. lia.
  - split.
    + apply Forall_app. split; [exact Hall|].
      constructor; [|constructor]. split; [discriminate|exact Hlast].
    + rewrite length_app. simpl in *. lia.
Qed.

Lemma chunks_of_bounded_items_witness :
  let chunks := ResearchEngine.processContents_chunks ["alpha"; "beta"] in
  Forall (fun ch => ch <> EmptyString /\ js_length ch <= 15002) chunks /\
  (List.length chunks <= 2)%nat.
Proof.
  apply (chunks_of_bounded_items ["alpha"; "beta"]%string).
  repeat constructor; unfold js_length; simpl; lia.
Defined.

Lemma startsWith_refl (s : string) : startsWith s s = true.
Proof.
  induction s as [|c s IH]; [reflexivity|].
  cbn [startsWith]. rewrite Ascii.eqb_refl. exact IH.
Qed.

Lemma startsWith_app (needle : string) : forall a b : string,
  startsWith needle a = true -> startsWith needle (a ++ b) = true.
Proof.
  induction needle as [|x needle IH]; intros a b H; [reflexivity|].
  destruct a as [|y a]; [discriminate|].
  cbn [startsWith] in H. apply andb_true_iff in H. destruct H as [Hx Hrest].
  simpl append. cbn [startsWith]. rewrite Hx. apply IH. exact Hrest.
Qed.

Lemma includes_refl (s : string) : includes s s = true.
Proof. destruct s; cbn [includes]; rewrite startsWith_refl; reflexivity. Qed.

Lemma includes_app_l (needle a b : string) :
  includes needle a = true -> includes needle (a ++ b) = true.
Proof.
  induction a as [|c a IH]; intros H.
  - cbn [includes] in H. rewrite orb_false_r in H.
    destruct needle; [|discriminate]. destruct b; reflexivity.
  - cbn [includes] in H. apply orb_true_iff in H. simpl append.
    cbn [includes]. destruct H as [H|H].
    + change (String c (a ++ b)) with (String c a ++ b)%string.
      rewrite (startsWith_app _ _ _ H). reflexivity.
    + rewrite (IH H). apply orb_true_r.
Qed.

Lemma includes_in_empty (needle : string) :
  includes needle EmptyString = true -> needle = EmptyString.
Proof. destruct needle; [reflexivity|discriminate]. Qed.

Lemma includes_empty (s : string) : includes EmptyString s = true.
Proof. destruct s; reflexivity. Qed.

(** An item is covered by a state of the loop when a chunk pushed so
    far, or the chunk being built, holds it. *)
Lemma chunkLoop_covers (contents : list string) :
  forall (chunks : list string) (currentChunk : string),
  let (chunks', last) :=
    ResearchEngine.chunkLoop contents chunks currentChunk in
  (forall item,
     (exists ch, In ch (chunks ++ [currentChunk]) /\ includes item ch = true) ->
     exists ch, In ch (chunks' ++ [last]) /\ includes item ch = true) /\
  (forall item, In item contents ->
     exists ch, In ch (chunks' ++ [last]) /\ includes item ch = true) /\
  (chunks <> [] \/ currentChunk <> EmptyString \/ contents <> [] ->
   chunks' <> [] \/ last <> EmptyString).
Proof.
  induction contents as [|content rest IH]; intros chunks cur.
  - cbn [ResearchEngine.chunkLoop]. split; [auto|].
    split; [intros item []|]. intros [H|[H|H]]; auto; contradiction.
  - cbn [ResearchEngine.chunkLoop].
    destruct (js_length cur + js_length content >? ResearchEngine.maxChunkSize).
    + specialize (IH (chunks ++ [cur]) content).
      destruct (ResearchEngine.chunkLoop rest (chunks ++ [cur]) content)
        as [chunks' last].
      destruct IH as [Hkeep [Hrest Hsome]].
      split; [|split].
      * intros item [ch [Hin Hinc]]. apply Hkeep. exists ch.
        split; [|exact Hinc]. apply in_or_app. left. exact Hin.
      * intros item [<-|Hin]; [|apply Hrest; exact Hin].
        apply Hkeep. exists content. split; [|apply includes_refl].
        apply in_or_app. right. left. reflexivity.
      * intros _. apply Hsome. left. destruct chunks; discriminate.
    + specialize (IH chunks (cur ++ nl ++ nl ++ content)%string).
      destruct (ResearchEngine.chunkLoop rest chunks
                  (cur ++ nl ++ nl ++ content)) as [chunks' last].
      destruct IH as [Hkeep [Hrest Hsome]].
      split; [|split].
      * intros item [ch [Hin Hinc]]. apply Hkeep.
        apply in_app_or in Hin. destruct Hin as [Hin|[<-|[]]].
        -- exists ch. split; [|exact Hinc]. apply in_or_app. left. exact Hin.
        -- exists (cur ++ nl ++ nl ++ content)%string.
           split; [apply in_or_app; right; left; reflexivity|].
           apply includes_app_l. exact Hinc.
      * intros item [<-|Hin]; [|apply Hrest; exact Hin].
        apply Hkeep. exists (cur ++ nl ++ nl ++ content)%string.
        split; [apply in_or_app; right; left; reflexivity|].
        apply includes_app_r. apply includes_app_r. apply includes_app_r.
        apply includes_refl.
      * intros _. apply Hsome. right. left. destruct cur; discriminate.
Qed.

(** X18. The chunking step loses no item: every item of the input is
    held, whole, by one of the chunks returned, whatever the sizes. *)
Theorem chunks_hold_every_item (contents : list string) (item : string) :
  In item contents ->
  exists chunk,
    In chunk (ResearchEngine.processContents_chunks contents) /\
    includes item chunk = true.
Proof.
  intros Hin. unfold ResearchEngine.processContents_chunks.
  pose proof (chunkLoop_covers contents [] EmptyString) as H.
  destruct (ResearchEngine.chunkLoop contents [] EmptyString)
    as [chunks last].
  destruct H as [_ [Hall Hsome]].
  destruct (Hall item Hin) as [ch [Hch Hinc]].
  destruct last as [|c last]; [|exists ch; auto].
  apply in_app_or in Hch. destruct Hch as [Hch|[<-|[]]]; [exists ch; auto|].
  apply includes_in_empty in Hinc. subst item.
  assert (Hne : chunks <> [] \/ EmptyString <> EmptyString).
  { apply Hsome. right. right. destruct contents; [contradiction|discriminate]. }
  destruct Hne as [Hne|Hne]; [|contradiction].
  destruct chunks as [|ch0 chunks]; [contradiction|].
  exists ch0. split; [left; reflexivity|apply includes_empty].
Qed.

Lemma chunks_hold_every_item_witness :
  exists chunk,
    In chunk (ResearchEngine.processContents_chunks ["alpha"; "beta"]) /\
    includes "beta" chunk = true.
Proof.
  apply (chunks_hold_every_item ["alpha"; "beta"]%string "beta").
  right. left. reflexivity.
Defined.

Lemma firstByKey_fixed {A : Type} (key : A -> string) (l : list A) :
  forall seen : list string,
  NoDup (map key l) ->
  (forall k, In k (map key l) -> ~ In k seen) ->
  firstByKey key seen l = l.
Proof.
  induction l as [|x rest IH]; intros seen Hnd Hfresh; [reflexivity|].
  cbn [firstByKey]. cbn [map] in Hnd, Hfresh.
  inversion Hnd as [|? ? Hx Hrest]; subst.
  destruct (existsb (String.eqb (key x)) seen) eqn:Hseen.
  - apply existsb_eqb_In in Hseen. exfalso.
    apply (Hfresh (key x)); [left; reflexivity|exact Hseen].
  - f_equal. apply IH; [exact Hrest|].
    intros k Hk Hin. apply in_app_or in Hin. destruct Hin as [Hin|[<-|[]]].
    + apply (Hfresh k); [right; exact Hk|exact Hin].
    + contradiction.
Qed.

(** A result whose titles and whose sources are already distinct comes
    back from the merge as it went in. *)
Lemma merge_single_distinct (r : ResearchEngine.Analysis) :
  NoDup (map ResearchEngine.title (ResearchEngine.keyFindings r)) ->
  NoDup (ResearchEngine.sources r) ->
  ResearchEngine.processContents_merge [r] = r.
Proof.
  intros Ht Hs. destruct r as [summary findings srcs]. cbn in Ht, Hs.
  unfold ResearchEngine.processContents_merge.
  cbn [map flat_map ResearchEngine.summary ResearchEngine.keyFindings
       ResearchEngine.sources join].
  rewrite !app_nil_r. f_equal.
  - unfold filter_indexed.
    pose proof (filter_first_titles findings []) as Hf.
    change (filter_indexed_from ResearchEngine.firstWithTitle findings
              findings 0
            = firstByKey ResearchEngine.title [] findings) in Hf.
    rewrite Hf.
    apply firstByKey_fixed; [exact Ht|]. intros k _ [].
  - unfold spread_set. rewrite spread_set_from. cbn [app].
    apply firstByKey_fixed; [rewrite map_id; exact Hs|]. intros k _ [].
Qed.

(** X19. Merging is idempotent: the merge of the chunk results, merged
    again as a single result, is unchanged.  Once the findings have
    distinct titles and the sources are distinct, the merge removes
    nothing more. *)
Theorem merge_idempotent (chunkResults : list ResearchEngine.Analysis) :
  ResearchEngine.processContents_merge
    [ResearchEngine.processContents_merge chunkResults]
  = ResearchEngine.processContents_merge chunkResults.
Proof.
  apply merge_single_distinct.
  - unfold ResearchEngine.processContents_merge.
    cbn [ResearchEngine.keyFindings]. unfold filter_indexed.
    pose proof (filter_first_titles
                  (flat_map ResearchEngine.keyFindings chunkResults) [])
      as Hf.
    change (filter_indexed_from ResearchEngine.firstWithTitle
              (flat_map ResearchEngine.keyFindings chunkResults)
              (flat_map ResearchEngine.keyFindings chunkResults) 0
            = firstByKey ResearchEngine.title []
                (flat_map ResearchEngine.keyFindings chunkResults)) in Hf.
    rewrite Hf. apply firstByKey_NoDup.
  - unfold ResearchEngine.processContents_merge.
    cbn [ResearchEngine.sources]. unfold spread_set.
    rewrite spread_set_from. cbn [app].
    pose proof (firstByKey_NoDup (fun s : string => s)
                  (flat_map ResearchEngine.sources chunkResults) []) as H.
    rewrite map_id in H. exact H.
Qed.

Lemma substring_length_le (s : string) : forall n m : nat,
  (String.length (String.substring n m s) <= m)%nat.
Proof.
  induction s as [|c s IH]; intros n m.
  - destruct n, m; simpl; lia.
  - destruct n as [|n].
    + destruct m as [|m]; simpl; [lia|]. specialize (IH 0%nat m). lia.
    + simpl. apply IH.
Qed.

(** The first [n] characters of a text that has that many, and what
    follows them. *)
Lemma substring_head (s : string) : forall n : nat,
  (n <= String.length s)%nat ->
  exists rest,
    s = (String.substring 0 n s ++ rest)%string /\
    String.length (String.substring 0 n s) = n.
Proof.
  induction s as [|c s IH]; intros n Hn.
  - simpl in Hn. assert (n = 0%nat) by lia. subst n.
    exists EmptyString. split; reflexivity.
  - destruct n as [|n].
    + exists (String c s). split; reflexivity.
    + simpl in Hn. destruct (IH n) as [rest [Hs Hlen]]; [lia|].
      exists rest. simpl. split; [f_equal; exact Hs|f_equal; exact Hlen].
Qed.

(** X20. The analysis returned when the analysis failed lists every
    content once, in one finding titled Raw Results: as many details as
    contents, in their order, and the detail of a content is its first
    200 characters, the whole content when it has no more, followed by
    an ellipsis; so no detail is longer than 203 characters. *)
Theorem fallback_analysis_details (contents : list string) :
  exists details,
    ResearchSteps.processContents_fallback contents
    = {| ResearchEngine.summary :=
           "Error analyzing results. Here are the raw findings:";
         ResearchEngine.keyFindings :=
           [ {| ResearchEngine.title := "Raw Results";
                ResearchEngine.details := details |} ];
         ResearchEngine.sources := ["Error processing sources"] |} /\
    List.length details = List.length contents /\
    Forall (fun d => js_length d <= 203) details /\
    (forall i c, nth_error contents i = Some c ->
       exists head rest,
         c = (head ++ rest)%string /\
         js_length head = Z.min 200 (js_length c) /\
         nth_error details i = Some (head ++ "...")%string) /\
    (forall i c, nth_error contents i = Some c ->
       js_length c <= 200 ->
       nth_error details i = Some (c ++ "...")%string).
Proof.
  eexists. split; [reflexivity|]. split; [apply length_map|].
  assert (Hcut : forall c,
            exists head rest,
              c = (head ++ rest)%string /\
              js_length head = Z.min 200 (js_length c) /\
              js_substring c 0 200 = head).
  { intros c. unfold js_substring, clamp, js_length.
    match goal with
    | |- context [String.substring ?a ?b c] =>
        replace a with 0%nat by lia;
        replace b with (Nat.min 200 (String.length c)) by lia
    end.
    destruct (substring_head c (Nat.min 200 (String.length c)))
      as [rest [Hs Hlen]]; [lia|].
    exists (String.substring 0 (Nat.min 200 (String.length c)) c), rest.
    split; [exact Hs|]. split; [rewrite Hlen; lia|reflexivity]. }
  split; [|split].
  - apply Forall_forall. intros d Hd. apply in_map_iff in Hd.
    destruct Hd as [c [<- _]].
    destruct (Hcut c) as [head [rest [_ [Hlen ->]]]].
    rewrite js_length_append. change (js_length "...") with 3. lia.
  - intros i c Hc. rewrite nth_error_map, Hc. cbn [option_map].
    destruct (Hcut c) as [head [rest [Hsplit [Hlen Hsub]]]].
    exists head, rest. rewrite Hsub. auto.
  - intros i c Hc Hlen. rewrite nth_error_map, Hc. cbn [option_map].
    destruct (Hcut c) as [head [rest [Hsplit [Hhead Hsub]]]].
    rewrite Hsub. f_equal. f_equal.
    assert (Hrest : rest = EmptyString).
    { assert (Hl : js_length c = js_length head + js_length rest).
      { rewrite Hsplit at 1. apply js_length_append. }
      destruct rest; [reflexivity|].
      unfold js_length in *. simpl String.length in *. lia. }
    rewrite Hsplit, Hrest, append_empty_r. reflexivity.
Qed.

Lemma fallback_analysis_details_witness :
  exists details,
    ResearchEngine.keyFindings
      (ResearchSteps.processContents_fallback
         ["short"; repeat_string "ab" 101])
    = [ {| ResearchEngine.title := "Raw Results";
           ResearchEngine.details := details |} ] /\
    nth_error details 0 = Some "short..."%string /\
    exists head rest,
      repeat_string "ab" 101 = (head ++ rest)%string /\
      js_length head = 200 /\
      nth_error details 1 = Some (head ++ "...")%string.
Proof.
  destruct (fallback_analysis_details ["short"; repeat_string "ab" 101]%string)
    as [details [Hk [_ [_ [Hcut Hnth]]]]].
  exists details. split; [rewrite Hk; reflexivity|]. split.
  - apply (Hnth 0%nat "short"%string); [reflexivity|].
    unfold js_length. simpl. lia.
  - destruct (Hcut 1%nat (repeat_string "ab" 101) eq_refl)
      as [head [rest [Hsplit [Hlen Hd]]]].
    exists head, rest. split; [exact Hsplit|]. split; [|exact Hd].
    rewrite Hlen. reflexivity.
Defined.

(** ** The command line: breadth, depth, the name of the report *)

(** X21. The breadth and the depth taken from the answers of the user.
    Whatever is typed, the breadth is between 1 and 10 and the depth
    between 1 and 5; an answer that is not a number, and the answer 0,
    give the defaults 6 and 3; and every whole number from 1 to 10,
    typed in decimal, is the breadth, every one from 1 to 5 the depth. *)
Theorem breadth_and_depth_from_answers :
  (forall s, 1 <= Run.chooseBreadth s <= 10 /\ 1 <= Run.chooseDepth s <= 5) /\
  (forall s, Run.parseInt s = None \/ Run.parseInt s = Some 0 ->
             Run.chooseBreadth s = 6 /\ Run.chooseDepth s = 3) /\
  (forall n, 1 <= n <= 10 -> Run.chooseBreadth (string_of_Z n) = n) /\
  (forall n, 1 <= n <= 5 -> Run.chooseDepth (string_of_Z n) = n).
Proof.
  split; [|split; [|split]].
  - intros s. unfold Run.chooseBreadth, Run.chooseDepth. lia.
  - intros s H. unfold Run.chooseBreadth, Run.chooseDepth, Run.parseIntOr.
    destruct H as [-> | ->]; split; reflexivity.
  - intros n Hn.
    assert (Hall : forallb
                     (fun k => Run.chooseBreadth (string_of_Z (Z.of_nat k))
                               =? Z.of_nat k) (seq 1 10) = true)
      by reflexivity.
    rewrite forallb_forall in Hall.
    specialize (Hall (Z.to_nat n)). rewrite in_seq, Z2Nat.id in Hall by lia.
    apply Z.eqb_eq. apply Hall. lia.
  - intros n Hn.
    assert (Hall : forallb
                     (fun k => Run.chooseDepth (string_of_Z (Z.of_nat k))
                               =? Z.of_nat k) (seq 1 5) = true)
      by reflexivity.
    rewrite forallb_forall in Hall.
    specialize (Hall (Z.to_nat n)). rewrite in_seq, Z2Nat.id in Hall by lia.
    apply Z.eqb_eq. apply Hall. lia.
Qed.

Lemma breadth_and_depth_from_answers_witness :
  (Run.chooseBreadth "many" = 6 /\ Run.chooseDepth "many" = 3) /\
  Run.chooseBreadth (string_of_Z 7) = 7 /\
  Run.chooseDepth (string_of_Z 4) = 4.
Proof.
  destruct breadth_and_depth_from_answers as [_ [Hdefault [Hb Hd]]].
  split; [apply Hdefault; left; reflexivity|].
  split; [apply Hb; lia|apply Hd; lia].
Defined.

Lemma replaceRuns_chars (s : string) : forall inRun : bool,
  Forall (fun c => Run.is_slug_char c = true \/ c = "-"%char)
         (chars (Run.replaceRuns s inRun)).
Proof.
  induction s as [|c s IH]; intros inRun; cbn [Run.replaceRuns].
  - constructor.
  - destruct (Run.is_slug_char c) eqn:Hc.
    + cbn [chars]. constructor; [left; exact Hc|apply IH].
    + destruct inRun; [apply IH|].
      cbn [chars]. constructor; [right; reflexivity|apply IH].
Qed.

Lemma sliceTo_chars (P : ascii -> Prop) (n : nat) : forall s : string,
  Forall P (chars s) -> Forall P (chars (Run.sliceTo n s)).
Proof.
  induction n as [|n IH]; intros s H; [constructor|].
  destruct s as [|c s]; [constructor|].
  cbn [Run.sliceTo chars] in *. inversion H; subst.
  constructor; [assumption|apply IH; assumption].
Qed.

Lemma sliceTo_length (n : nat) : forall s : string,
  (String.length (Run.sliceTo n s) <= n)%nat.
Proof.
  induction n as [|n IH]; intros s; [simpl; lia|].
  destruct s as [|c s]; [simpl; lia|].
  cbn [Run.sliceTo String.length]. specialize (IH s). lia.
Qed.

Lemma startsWith_sliceTo (needle : string) : forall (n : nat) (s : string),
  startsWith needle (Run.sliceTo n s) = true -> startsWith needle s = true.
Proof.
  induction needle as [|x needle IH]; intros n s H; [reflexivity|].
  destruct n as [|n]; [discriminate|].
  destruct s as [|c s]; [discriminate|].
  cbn [Run.sliceTo startsWith] in *.
  apply andb_true_iff in H. destruct H as [Hx Hrest].
  rewrite Hx. apply (IH n). exact Hrest.
Qed.

Lemma includes_sliceTo (needle : string) : forall (n : nat) (s : string),
  needle <> EmptyString ->
  includes needle (Run.sliceTo n s) = true -> includes needle s = true.
Proof.
  intros n s Hne. revert n. induction s as [|c s IH]; intros n H.
  - destruct n; cbn [Run.sliceTo] in H; apply includes_in_empty in H;
      contradiction.
  - destruct n as [|n].
    + cbn [Run.sliceTo] in H. apply includes_in_empty in H. contradiction.
    + cbn [Run.sliceTo includes] in H. apply orb_true_iff in H.
      cbn [includes]. destruct H as [H|H].
      * change (String c (Run.sliceTo n s))
          with (Run.sliceTo (S n) (String c s)) in H.
        rewrite (startsWith_sliceTo _ _ _ H). reflexivity.
      * rewrite (IH n H). apply orb_true_r.
Qed.

Lemma replaceRuns_no_double (s : string) : forall inRun : bool,
  includes "--" (Run.replaceRuns s inRun) = false /\
  (inRun = true -> startsWith "-" (Run.replaceRuns s inRun) = false).
Proof.
  induction s as [|c s IH]; intros inRun; cbn [Run.replaceRuns].
  - split; reflexivity.
  - destruct (Run.is_slug_char c) eqn:Hc.
    + assert (Hnot : Ascii.eqb "-" c = false).
      { destruct (Ascii.eqb_spec "-" c) as [<-|_]; [discriminate|reflexivity]. }
      destruct (IH false) as [Hinc _]. split.
      * cbn [includes startsWith]. rewrite Hnot, Hinc. reflexivity.
      * intros _. cbn [startsWith]. rewrite Hnot. reflexivity.
    + destruct inRun.
      * apply IH.
      * destruct (IH true) as [Hinc Hstart]. split; [|discriminate].
        cbn [includes]. rewrite Hinc, orb_false_r.
        change (startsWith "--" (String "-" (Run.replaceRuns s true)))
          with (Ascii.eqb "-" "-" && startsWith "-" (Run.replaceRuns s true)).
        rewrite (Hstart eq_refl). reflexivity.
Qed.

(** X22. The part of the report's name made from the query is safe in
    a file name: whatever the query, it holds only small letters, digits
    and hyphens, never two hyphens in a row, and at most 50 characters. *)
Theorem sanitizedQuery_safe (query : string) :
  Forall (fun c => Run.is_slug_char c = true \/ c = "-"%char)
         (chars (Run.sanitizedQuery query)) /\
  includes "--" (Run.sanitizedQuery query) = false /\
  js_length (Run.sanitizedQuery query) <= 50.
Proof.
  unfold Run.sanitizedQuery. split; [|split].
  - apply sliceTo_chars. apply replaceRuns_chars.
  - destruct (includes "--"
                (Run.sliceTo 50
                   (Run.replaceRuns (Run.toLowerCase query) false))) eqn:H;
      [|reflexivity].
    apply includes_sliceTo in H; [|discriminate].
    rewrite (proj1 (replaceRuns_no_double _ false)) in H. discriminate.
  - unfold js_length.
    pose proof (sliceTo_length 50
                  (Run.replaceRuns (Run.toLowerCase query) false)). lia.
Qed.

Lemma endsWith_app (a suffix : string) :
  FileUtil.endsWith suffix (a ++ suffix) = true.
Proof.
  unfold FileUtil.endsWith. rewrite length_append.
  destruct (Nat.ltb_spec (String.length a + String.length suffix)
                         (String.length suffix)) as [H|_]; [lia|].
  replace (String.length a + String.length suffix - String.length suffix)%nat
    with (String.length a) by lia.
  rewrite substring_skip, substring_all. apply String.eqb_refl.
Qed.

(** X23. The name a report is saved under. [saveToFile] always writes
    under a name that ends in [.md], adding the extension only when it
    is missing; and the name the command line builds from the query and
    the date already ends in [.md], so the report is saved under exactly
    that name. *)
Theorem report_saved_under_md_name :
  (forall filename timestamp,
     FileUtil.endsWith ".md" (FileUtil.fileWithExt filename timestamp) = true) /\
  (forall filename timestamp,
     filename <> EmptyString ->
     FileUtil.endsWith ".md" filename = true ->
     FileUtil.fileWithExt filename timestamp = filename) /\
  (forall query date timestamp,
     FileUtil.fileWithExt (Run.filename query date) timestamp
     = Run.filename query date).
Proof.
  assert (Hkeep : forall filename timestamp,
            filename <> EmptyString ->
            FileUtil.endsWith ".md" filename = true ->
            FileUtil.fileWithExt filename timestamp = filename).
  { intros filename timestamp Hne Hmd. unfold FileUtil.fileWithExt.
    destruct filename as [|c f]; [contradiction|]. rewrite Hmd. reflexivity. }
  split; [|split; [exact Hkeep|]].
  - intros filename timestamp. unfold FileUtil.fileWithExt.
    set (final := match filename with
                  | EmptyString => ("research-" ++ timestamp ++ ".md")%string
                  | String _ _ => filename
                  end).
    destruct (FileUtil.endsWith ".md" final) eqn:H; [exact H|].
    apply endsWith_app.
  - intros query date timestamp. apply Hkeep.
    + unfold Run.filename. discriminate.
    + unfold Run.filename.
      replace ("research-" ++ Run.sanitizedQuery query ++ "-" ++ date ++ ".md")%string
        with (("research-" ++ Run.sanitizedQuery query ++ "-" ++ date) ++ ".md")%string
        by (rewrite !append_assoc; reflexivity).
      apply endsWith_app.
Qed.

Lemma report_saved_under_md_name_witness :
  FileUtil.fileWithExt "notes.md" "T" = "notes.md"%string.
Proof.
  apply (proj1 (proj2 report_saved_under_md_name) "notes.md"%string "T"%string).
  - discriminate.
  - reflexivity.
Defined.

(** X24. The smallest settings select the sentinel mode. When the
    answers of the user give breadth 1 and depth 1, the run the command
    line starts with them takes the branch meant for harvesting
    questions: it returns feedback questions with an empty report and no
    search queries, and sends no search, whatever the services and the
    analysis are. *)
Theorem smallest_settings_run_no_search (svc : Services)
    (processContents :
       string -> list string -> M (World svc) ResearchEngine.Analysis)
    (breadthStr depthStr query : string) (st : State (World svc)) :
  Run.chooseBreadth breadthStr = 1 ->
  Run.chooseDepth depthStr = 1 ->
  exists qs st',
    ResearchSteps.deepResearch_wired svc processContents query
      (Run.chooseBreadth breadthStr) (Run.chooseDepth depthStr) st
    = (Returned
         {| ResearchEngine.query := query;
            ResearchEngine.feedbackQuestions := Some qs;
            ResearchEngine.error := None;
            ResearchEngine.searchQueries := [];
            ResearchEngine.report :=
              {| ResearchEngine.executiveSummary := EmptyString;
                 ResearchEngine.report_keyFindings := [];
                 ResearchEngine.report_sources := [] |} |}, st') /\
    searches (trace st') = searches (trace st).
Proof.
  intros Hb Hd. rewrite Hb, Hd.
  destruct (generateFeedback_cases svc
              {| Feedback.query := query; Feedback.numQuestions := Some 3 |} st)
    as [qs [st' [Hrun [Hs _]]]].
  exists qs, st'.
  unfold ResearchSteps.deepResearch_wired, ResearchEngine.deepResearch,
    try_catch, ResearchEngine.deepResearch_try.
  change ((1 =? 1) && (1 =? 1)) with true. cbv iota.
  unfold bind. rewrite Hrun. unfold ret.
  split; [reflexivity|exact Hs].
Qed.

Lemma smallest_settings_run_no_search_witness :
  exists qs st',
    ResearchSteps.deepResearch_wired Scenario.scripted Scenario.noAnalysis
      "tides" (Run.chooseBreadth "1") (Run.chooseDepth "1")
      (Scenario.start [Returned Scenario.oneQuestion] [])
    = (Returned
         {| ResearchEngine.query := "tides";
            ResearchEngine.feedbackQuestions := Some qs;
            ResearchEngine.error := None;
            ResearchEngine.searchQueries := [];
            ResearchEngine.report :=
              {| ResearchEngine.executiveSummary := EmptyString;
                 ResearchEngine.report_keyFindings := [];
                 ResearchEngine.report_sources := [] |} |}, st') /\
    searches (trace st') = [].
Proof.
  apply (smallest_settings_run_no_search Scenario.scripted Scenario.noAnalysis
           "1" "1" "tides"
           (Scenario.start [Returned Scenario.oneQuestion] []));
    reflexivity.
Defined.
